(** * LinkedIn MCP server: extraction engine and action methods

    A shallow embedding of [linkedin_mcp_server/scraping/extractor.py]:
    the noise-stripping function, the page-extraction retry policy, the
    person/company scrapers and the two action methods
    [connect_with_person] and [send_message], together with the properties
    the specification states about them. *)

From Stdlib Require Import List String Ascii NArith QArith Bool Arith Lia.
From stdpp Require Import base option list gmap.
Import ListNotations.

Local Open Scope nat_scope.
Local Open Scope list_scope.

(** ** Python strings

    A Python [str] is a sequence of Unicode code points.  Indices, [len]
    and slices count code points, so the model is a list of code points. *)

Definition char := N.
Definition pystr := list N.

(** String literals of the source are ASCII; [py] reads one. *)
Definition py (s : string) : pystr :=
  List.map N_of_ascii (list_ascii_of_string s).

(** Truth value of a [str]: non-empty. *)
Definition truthy (s : pystr) : bool :=
  match s with [] => false | _ :: _ => true end.

Definition NL : char := 10%N.

(** The double-quote character, as a one-character string. *)
Definition dquote : pystr := [34%N].

(** [str.isspace] on one code point: the characters CPython's
    [_PyUnicode_IsWhitespace] accepts. *)
Definition py_isspace (c : char) : bool :=
  ((9 <=? c) && (c <=? 13) || (28 <=? c) && (c <=? 32)
   || (c =? 133) || (c =? 160) || (c =? 5760)
   || (8192 <=? c) && (c <=? 8202)
   || (c =? 8232) || (c =? 8233) || (c =? 8239) || (c =? 8287)
   || (c =? 12288))%N.

Fixpoint lstrip (s : pystr) : pystr :=
  match s with
  | [] => []
  | c :: s' => if py_isspace c then lstrip s' else s
  end.

Definition rstrip (s : pystr) : pystr := rev (lstrip (rev s)).

(** [str.strip()] with no argument. *)
Definition strip (s : pystr) : pystr := rstrip (lstrip s).

(** ** Regular expressions ([re]), as far as [_NOISE_MARKERS] uses them

    Literals, [.], [+] on a single character, [^] and [$] under
    [re.MULTILINE], concatenation and alternation. *)

Inductive atom : Type :=
| ALit (c : char)      (* one literal character *)
| ADot.                (* [.] without DOTALL: anything but a newline *)

Inductive regex : Type :=
| REps
| RAtom (a : atom)
| RPlus (a : atom)
| RBol                 (* [^] with MULTILINE *)
| REol                 (* [$] with MULTILINE *)
| RCat (r1 r2 : regex)
| RAlt (r1 r2 : regex).

Definition atom_ok (a : atom) (c : char) : bool :=
  match a with
  | ALit d => (c =? d)%N
  | ADot => negb (c =? NL)%N
  end.

(** [^] matches at the start of the string and right after a newline;
    [prev] is the character before the current position. *)
Definition at_bol (prev : option char) : bool :=
  match prev with None => true | Some c => (c =? NL)%N end.

(** [$] matches at the end of the string and right before a newline. *)
Definition at_eol (s : pystr) : bool :=
  match s with [] => true | c :: _ => (c =? NL)%N end.

Definition cont := option char -> pystr -> bool.

(** One or more [a], then the continuation (longest run first). *)
Fixpoint plus_k (a : atom) (k : cont) (s : pystr) : bool :=
  match s with
  | [] => false
  | c :: s' => atom_ok a c && (plus_k a k s' || k (Some c) s')
  end.

(** Backtracking matcher: does [r] match at the current position, followed
    by something the continuation accepts? *)
Fixpoint matches (r : regex) (prev : option char) (s : pystr) (k : cont)
  : bool :=
  match r with
  | REps => k prev s
  | RAtom a =>
      match s with
      | [] => false
      | c :: s' => atom_ok a c && k (Some c) s'
      end
  | RPlus a => plus_k a k s
  | RBol => at_bol prev && k prev s
  | REol => at_eol s && k prev s
  | RCat r1 r2 => matches r1 prev s (fun p s' => matches r2 p s' k)
  | RAlt r1 r2 => matches r1 prev s k || matches r2 prev s k
  end.

Definition accept : cont := fun _ _ => true.

(** [pattern.search(text)]: positions are tried from left to right; the
    result is [match.start()] of the first position where the pattern
    matches, [None] when there is none. *)
Fixpoint search_from (r : regex) (prev : option char) (s : pystr) (pos : nat)
  : option nat :=
  if matches r prev s accept then Some pos
  else match s with
       | [] => None
       | c :: s' => search_from r (Some c) s' (S pos)
       end.

Definition re_search (r : regex) (text : pystr) : option nat :=
  search_from r None text 0.

(** A literal word. *)
Definition lit (s : string) : regex :=
  fold_right (fun c r => RCat (RAtom (ALit c)) r) REps (py s).

Definition rcat (rs : list regex) : regex := fold_right RCat REps rs.

(** *** What a pattern means

    [denotes r prev w rest]: the pattern [r] matches exactly the word [w],
    when [prev] is the character before [w] and [rest] is the text after
    it (the anchors look at both). *)

(** The character before the position reached after reading [w]. *)
Definition last_char (prev : option char) (w : pystr) : option char :=
  fold_left (fun _ c => Some c) w prev.

Fixpoint denotes (r : regex) (prev : option char) (w rest : pystr) : Prop :=
  match r with
  | REps => w = []
  | RAtom a => exists c, w = [c] /\ atom_ok a c = true
  | RPlus a => w <> [] /\ Forall (fun c => atom_ok a c = true) w
  | RBol => w = [] /\ at_bol prev = true
  | REol => w = [] /\ at_eol rest = true
  | RCat r1 r2 =>
      exists w1 w2,
        w = w1 ++ w2 /\ denotes r1 prev w1 (w2 ++ rest) /\
        denotes r2 (last_char prev w1) w2 rest
  | RAlt r1 r2 => denotes r1 prev w rest \/ denotes r2 prev w rest
  end.

(** ** Module constants *)

(* _NAV_DELAY = 2.0 *)
Definition _NAV_DELAY : Q := 2 # 1.

(* _RATE_LIMIT_RETRY_DELAY = 5.0 *)
Definition _RATE_LIMIT_RETRY_DELAY : Q := 5 # 1.

Definition _RATE_LIMITED_MSG : pystr :=
  py "[Rate limited] LinkedIn blocked this section. Try again later or request fewer sections.".

Definition _NOISE_MARKERS : list regex :=
  [ (* ^About\n+(?:Accessibility|Talent Solutions) *)
    rcat [RBol; lit "About"; RPlus (ALit NL);
         RAlt (lit "Accessibility") (lit "Talent Solutions")];
    (* ^More profiles for you$ *)
    rcat [RBol; lit "More profiles for you"; REol];
    (* ^Explore premium profiles$ *)
    rcat [RBol; lit "Explore premium profiles"; REol];
    (* ^Get up to .+ replies when you message with InMail$ *)
    rcat [RBol; lit "Get up to "; RPlus ADot;
         lit " replies when you message with InMail"; REol] ].

(** ** [strip_linkedin_noise] *)

(** The loop over [_NOISE_MARKERS], with [earliest] as the accumulator. *)
Definition earliest_step (text : pystr) (earliest : nat) (pattern : regex)
  : nat :=
  match re_search pattern text with
  | Some start => if start <? earliest then start else earliest
  | None => earliest
  end.

Definition earliest_marker (text : pystr) : nat :=
  fold_left (earliest_step text) _NOISE_MARKERS (length text).

Definition strip_linkedin_noise (text : pystr) : pystr :=
  strip (firstn (earliest_marker text) text).

(** ** Where a pattern matches

    [matches_at r text i]: the pattern matches the text starting at
    position [i] (the position [match.start()] can take). *)

Definition prev_char (text : pystr) (i : nat) : option char :=
  match i with
  | 0 => None
  | S j => nth_error text j
  end.

Definition matches_at (r : regex) (text : pystr) (i : nat) : Prop :=
  i <= length text /\
  matches r (prev_char text i) (skipn i text) accept = true.

(** [m] is the earliest position at which any noise marker matches. *)
Definition earliest_match (text : pystr) (m : nat) : Prop :=
  (exists p, In p _NOISE_MARKERS /\ matches_at p text m) /\
  (forall p j, In p _NOISE_MARKERS -> j < m -> ~ matches_at p text j).

(** No noise marker matches anywhere in the text. *)
Definition no_marker (text : pystr) : Prop :=
  forall p i, In p _NOISE_MARKERS -> ~ matches_at p text i.

(** Executable counterpart of [no_marker]. *)
Definition no_marker_b (text : pystr) : bool :=
  forallb (fun p => match re_search p text with None => true | Some _ => false end)
          _NOISE_MARKERS.

(** ** Exceptions, results and effects

    The model covers what [except Exception] can catch: the classified
    scraper exceptions ([LinkedInScraperException] and its subclasses, such
    as the rate-limit and authentication errors), the browser library's
    timeout, and every other [Exception].  [str(e)] is the message. *)

Inductive exn : Type :=
| LinkedInScraperException (cls msg : pystr)
| PlaywrightTimeoutError (msg : pystr)
| OtherException (cls msg : pystr).

(* isinstance(e, LinkedInScraperException) *)
Definition is_scraper_exception (e : exn) : bool :=
  match e with LinkedInScraperException _ _ => true | _ => false end.

(* isinstance(e, PlaywrightTimeoutError) *)
Definition is_timeout (e : exn) : bool :=
  match e with PlaywrightTimeoutError _ => true | _ => false end.

(* str(e) *)
Definition exn_str (e : exn) : pystr :=
  match e with
  | LinkedInScraperException _ m => m
  | PlaywrightTimeoutError m => m
  | OtherException _ m => m
  end.

Inductive result (A : Type) : Type :=
| Ok (a : A)
| Raise (e : exn).
Arguments Ok {A} a.
Arguments Raise {A} e.

(** The scripts handed to [page.evaluate]. *)
Inductive Script : Type :=
| JsMainInnerText          (* main ? main.innerText : document.body.innerText *)
| JsOverlayInnerText       (* dialog / modal / main innerText, trimmed *)
| JsDialogState            (* which invite dialog is on screen *)
| JsClickAddNote
| JsClickSendInvitation
| JsClickSendWithout
| JsModalClosed
| JsClickSendMessage.

(** What the program does to the outside world, in order. *)
Inductive Event : Type :=
| EvGoto (url : pystr)
| EvDetectRateLimit
| EvWaitForSelector (selector : pystr)
| EvHandleModalClose
| EvScrollToBottom
| EvEvaluate (script : Script)
| EvSleep (seconds : Q)
| EvLocatorWaitFor (selector : pystr)
| EvLocatorClick (selector : pystr)
| EvFill (selector text : pystr).

(** The value of the dialog-state script: its [type] field, and the
    [str()] of the whole object (used in a debug message). *)
Inductive DialogType : Type :=
| invite_modal | note_input_modal | pending | already_connected
| pending_on_page | unknown.

Record DialogState : Type := {
  ds_type : DialogType;
  ds_repr : pystr
}.

(** The browser page ([patchright]'s [Page]) and the helpers of
    [core.utils] acting on it.  They belong to external collaborators, so
    they are an interface: any call may return or raise and changes the
    browser state [B]. *)
Class Page (B : Type) : Type := {
  page_goto : pystr -> B -> result unit * B;
  page_wait_for_selector : pystr -> B -> result unit * B;
  page_evaluate_str : Script -> B -> result pystr * B;
  page_evaluate_bool : Script -> B -> result bool * B;
  page_evaluate_dialog : Script -> B -> result DialogState * B;
  locator_wait_for : pystr -> B -> result unit * B;
  locator_click : pystr -> B -> result unit * B;
  locator_fill : pystr -> pystr -> B -> result unit * B;
  util_detect_rate_limit : B -> result unit * B;
  util_handle_modal_close : B -> result unit * B;
  util_scroll_to_bottom : B -> result unit * B
}.

(** A coroutine of the extractor: runs on a browser state, returns or
    raises, leaves a browser state and the events it caused. *)
Definition IO (B A : Type) : Type := B -> result A * B * list Event.

Definition ret {B A} (a : A) : IO B A := fun b => (Ok a, b, []).

Definition raise {B A} (e : exn) : IO B A := fun b => (Raise e, b, []).

Definition bind {B A C} (m : IO B A) (f : A -> IO B C) : IO B C :=
  fun b =>
    match m b with
    | (Ok a, b1, t1) =>
        match f a b1 with
        | (r, b2, t2) => (r, b2, t1 ++ t2)
        end
    | (Raise e, b1, t1) => (Raise e, b1, t1)
    end.

(** [try: body / except ... as e: handler e]. *)
Definition try_except {B A} (body : IO B A) (handler : exn -> IO B A)
  : IO B A :=
  fun b =>
    match body b with
    | (Ok a, b1, t1) => (Ok a, b1, t1)
    | (Raise e, b1, t1) =>
        match handler e b1 with
        | (r, b2, t2) => (r, b2, t1 ++ t2)
        end
    end.

(** One call of the page interface, recorded as an event. *)
Definition call {B A} (ev : Event) (f : B -> result A * B) : IO B A :=
  fun b => match f b with (r, b1) => (r, b1, [ev]) end.

(** [await asyncio.sleep(seconds)]. *)
Definition sleep {B} (seconds : Q) : IO B unit :=
  fun b => (Ok tt, b, [EvSleep seconds]).

Declare Scope io_scope.
Delimit Scope io_scope with io.
Notation "x <- c1 ;; c2" := (bind c1 (fun x => c2))
  (at level 100, c1 at next level, right associativity) : io_scope.
Notation "c1 ;; c2" := (bind c1 (fun _ => c2))
  (at level 100, right associativity) : io_scope.
Local Open Scope io_scope.

Section Extractor.
Context {B : Type} `{Page B}.

Definition goto (url : pystr) : IO B unit :=
  call (EvGoto url) (page_goto url).
Definition detect_rate_limit : IO B unit :=
  call EvDetectRateLimit util_detect_rate_limit.
Definition wait_for_selector (selector : pystr) : IO B unit :=
  call (EvWaitForSelector selector) (page_wait_for_selector selector).
Definition handle_modal_close : IO B unit :=
  call EvHandleModalClose util_handle_modal_close.
Definition scroll_to_bottom : IO B unit :=
  call EvScrollToBottom util_scroll_to_bottom.
Definition evaluate_str (s : Script) : IO B pystr :=
  call (EvEvaluate s) (page_evaluate_str s).
Definition evaluate_bool (s : Script) : IO B bool :=
  call (EvEvaluate s) (page_evaluate_bool s).
Definition evaluate_dialog (s : Script) : IO B DialogState :=
  call (EvEvaluate s) (page_evaluate_dialog s).
Definition wait_for (selector : pystr) : IO B unit :=
  call (EvLocatorWaitFor selector) (locator_wait_for selector).
Definition click (selector : pystr) : IO B unit :=
  call (EvLocatorClick selector) (locator_click selector).
Definition fill (selector text : pystr) : IO B unit :=
  call (EvFill selector text) (locator_fill selector text).

(** [except PlaywrightTimeoutError: logger.debug(...)]. *)
Definition ignore_timeout (e : exn) : IO B unit :=
  if is_timeout e then ret tt else raise e.

(** The tail shared by [_extract_page_once] and [_extract_overlay_once]:
    from the raw innerText to the returned text. *)
Definition classify_raw (raw : pystr) : pystr :=
  if negb (truthy raw) then []
  else
    let cleaned := strip_linkedin_noise raw in
    if negb (truthy cleaned) && truthy (strip raw) then _RATE_LIMITED_MSG
    else cleaned.

Definition _extract_page_once (url : pystr) : IO B pystr :=
  goto url ;;
  detect_rate_limit ;;
  try_except (wait_for_selector (py "main")) ignore_timeout ;;
  handle_modal_close ;;
  scroll_to_bottom ;;
  raw <- evaluate_str JsMainInnerText ;;
  ret (classify_raw raw).

(** [except LinkedInScraperException: raise / except Exception: return ''] *)
Definition isolate_errors (e : exn) : IO B pystr :=
  if is_scraper_exception e then raise e else ret [].

Definition extract_page (url : pystr) : IO B pystr :=
  try_except
    (result <- _extract_page_once url ;;
     if decide (result <> _RATE_LIMITED_MSG) then ret result
     else
       sleep _RATE_LIMIT_RETRY_DELAY ;;
       _extract_page_once url)
    isolate_errors.

Definition _extract_overlay_once (url : pystr) : IO B pystr :=
  goto url ;;
  detect_rate_limit ;;
  try_except
    (wait_for_selector (py "dialog[open], .artdeco-modal__content"))
    ignore_timeout ;;
  raw <- evaluate_str JsOverlayInnerText ;;
  ret (classify_raw raw).

Definition _extract_overlay (url : pystr) : IO B pystr :=
  try_except
    (result <- _extract_overlay_once url ;;
     if decide (result <> _RATE_LIMITED_MSG) then ret result
     else
       sleep _RATE_LIMIT_RETRY_DELAY ;;
       _extract_overlay_once url)
    isolate_errors.

End Extractor.

(** ** Section flags

    The extractor imports the flags from [scraping/fields.py]; what that
    module declares is a parameter here: the values of the members of the
    two [enum.Flag] classes, the members in definition order (what
    iterating the class yields) and the two name-to-flag dictionaries, as
    item lists in insertion order. *)
Record FieldsModule : Type := {
  BASIC_INFO : N;
  EXPERIENCE : N;
  EDUCATION : N;
  INTERESTS : N;
  HONORS : N;
  LANGUAGES : N;
  CONTACT_INFO : N;
  PersonScrapingFields : list N;
  PERSON_SECTION_MAP : list (pystr * N);
  ABOUT : N;
  POSTS : N;
  JOBS : N;
  CompanyScrapingFields : list N;
  COMPANY_SECTION_MAP : list (pystr * N)
}.

(** [bool(flag)]: a flag value is true unless it is the empty flag. *)
Definition flag_truthy (f : N) : bool := negb (f =? 0)%N.

(** [flag in fields] ([Flag.__contains__]). *)
Definition flag_in (flag fields : N) : bool := (N.land flag fields =? flag)%N.

(** [{v: k for k, v in section_map.items()}]. *)
Definition reverse_map (section_map : list (pystr * N)) : gmap N pystr :=
  fold_left (fun m kv => <[snd kv := fst kv]> m) section_map ∅.

(** The loop that builds [sections_requested] from the flags. *)
Definition requested_sections (first : pystr) (members : list N)
    (section_map : list (pystr * N)) (fields : N) : list pystr :=
  let reverse_map := reverse_map section_map in
  fold_left
    (fun requested flag =>
       match reverse_map !! flag with
       | Some name => if flag_in flag fields then requested ++ [name]
                      else requested
       | None => requested
       end)
    members [first].

(** The dict the scrapers return. *)
Record ScrapeResult : Type := {
  url : pystr;
  sections : gmap pystr pystr;
  pages_visited : list pystr;
  sections_requested : list pystr
}.

(** The dict the action methods return. *)
Record ActionResult : Type := {
  status : pystr;
  message : pystr;
  profile_url : pystr
}.

Section Scrapers.
Context {B : Type} `{Page B}.
Variable F : FieldsModule.

(** [except LinkedInScraperException: raise / except Exception:
    pages_visited.append(url)] *)
Definition section_failed (sections : gmap pystr pystr)
    (pages_visited : list pystr) (url : pystr) (e : exn)
  : IO B (gmap pystr pystr * list pystr) :=
  if is_scraper_exception e then raise e
  else ret (sections, pages_visited ++ [url]).

(** The [for ... in page_map] loop of [scrape_person]; [sections] and
    [pages_visited] are the two objects it updates. *)
Fixpoint person_pages (fields : N) (base_url : pystr)
    (page_map : list (N * pystr * pystr * bool))
    (sections : gmap pystr pystr) (pages_visited : list pystr)
  : IO B (gmap pystr pystr * list pystr) :=
  match page_map with
  | [] => ret (sections, pages_visited)
  | (flag, section_name, suffix, is_overlay) :: rest =>
      if negb (flag_truthy (N.land flag fields)) then
        person_pages fields base_url rest sections pages_visited
      else
        let url := base_url ++ suffix in
        st <- try_except
                (text <- (if is_overlay : bool then _extract_overlay url
                          else extract_page url) ;;
                 ret (if truthy text then <[section_name := text]> sections
                      else sections,
                      pages_visited ++ [url]))
                (section_failed sections pages_visited url) ;;
        sleep _NAV_DELAY ;;
        person_pages fields base_url rest (fst st) (snd st)
  end.

Definition person_page_map : list (N * pystr * pystr * bool) :=
  [ (BASIC_INFO F, py "main_profile", py "/", false);
    (EXPERIENCE F, py "experience", py "/details/experience/", false);
    (EDUCATION F, py "education", py "/details/education/", false);
    (INTERESTS F, py "interests", py "/details/interests/", false);
    (HONORS F, py "honors", py "/details/honors/", false);
    (LANGUAGES F, py "languages", py "/details/languages/", false);
    (CONTACT_INFO F, py "contact_info", py "/overlay/contact-info/", true) ].

Definition scrape_person (username : pystr) (fields : N)
  : IO B ScrapeResult :=
  let fields := N.lor fields (BASIC_INFO F) in
  let base_url := py "https://www.linkedin.com/in/" ++ username in
  st <- person_pages fields base_url person_page_map ∅ [] ;;
  let requested :=
    requested_sections (py "main_profile") (PersonScrapingFields F)
                       (PERSON_SECTION_MAP F) fields in
  ret {| url := base_url ++ py "/";
         sections := fst st;
         pages_visited := snd st;
         sections_requested := requested |}.

(** The [for ... in page_map] loop of [scrape_company]. *)
Fixpoint company_pages (fields : N) (base_url : pystr)
    (page_map : list (N * pystr * pystr))
    (sections : gmap pystr pystr) (pages_visited : list pystr)
  : IO B (gmap pystr pystr * list pystr) :=
  match page_map with
  | [] => ret (sections, pages_visited)
  | (flag, section_name, suffix) :: rest =>
      if negb (flag_truthy (N.land flag fields)) then
        company_pages fields base_url rest sections pages_visited
      else
        let url := base_url ++ suffix in
        st <- try_except
                (text <- extract_page url ;;
                 ret (if truthy text then <[section_name := text]> sections
                      else sections,
                      pages_visited ++ [url]))
                (section_failed sections pages_visited url) ;;
        sleep _NAV_DELAY ;;
        company_pages fields base_url rest (fst st) (snd st)
  end.

Definition company_page_map : list (N * pystr * pystr) :=
  [ (ABOUT F, py "about", py "/about/");
    (POSTS F, py "posts", py "/posts/");
    (JOBS F, py "jobs", py "/jobs/") ].

Definition scrape_company (company_name : pystr) (fields : N)
  : IO B ScrapeResult :=
  let fields := N.lor fields (ABOUT F) in
  let base_url := py "https://www.linkedin.com/company/" ++ company_name in
  st <- company_pages fields base_url company_page_map ∅ [] ;;
  let requested :=
    requested_sections (py "about") (CompanyScrapingFields F)
                       (COMPANY_SECTION_MAP F) fields in
  ret {| url := base_url ++ py "/";
         sections := fst st;
         pages_visited := snd st;
         sections_requested := requested |}.

End Scrapers.

(** ** Action methods *)

Section Actions.
Context {B : Type} `{Page B}.

(** Truth value of an optional string ([note: str | None]). *)
Definition note_truthy (note : option pystr) : bool :=
  match note with Some s => truthy s | None => false end.

(* note[:200] *)
Definition note_slice (note : option pystr) : pystr :=
  match note with Some s => firstn 200 s | None => [] end.

Definition dialog_type_eqb (a b : DialogType) : bool :=
  match a, b with
  | invite_modal, invite_modal | note_input_modal, note_input_modal
  | pending, pending | already_connected, already_connected
  | pending_on_page, pending_on_page | unknown, unknown => true
  | _, _ => false
  end.

(* '[role="dialog"] textarea' *)
Definition textarea_selector : pystr :=
  py "[role=" ++ dquote ++ py "dialog" ++ dquote ++ py "] textarea".

(** The note branch of the invite modal.  [Some r] stands for the
    [return r] inside the inner handler, [None] for falling through to
    the verification that follows. *)
Definition send_with_note (linkedin_username profile_url : pystr)
    (note : option pystr) : IO B (option ActionResult) :=
  add_note_clicked <- evaluate_bool JsClickAddNote ;;
  if add_note_clicked : bool then
    sleep (2 # 1) ;;
    try_except
      (wait_for textarea_selector ;;
       fill textarea_selector (note_slice note) ;;
       sleep (1 # 2) ;;
       _ <- evaluate_bool JsClickSendInvitation ;;
       ret None)
      (fun e =>
         ret (Some {| status := py "error";
                      message := py "Error filling note: " ++ exn_str e;
                      profile_url := profile_url |}))
  else
    _ <- evaluate_bool JsClickSendWithout ;;
    ret None.

(** The body of the [try] of [connect_with_person]. *)
Definition connect_with_person_body
    (linkedin_username profile_url invite_url : pystr)
    (note : option pystr) : IO B ActionResult :=
  goto invite_url ;;
  detect_rate_limit ;;
  sleep (2 # 1) ;;
  dialog_state <- evaluate_dialog JsDialogState ;;
  if dialog_type_eqb (ds_type dialog_state) already_connected then
    ret {| status := py "already_connected";
           message := py "Already connected with " ++ linkedin_username;
           profile_url := profile_url |}
  else if dialog_type_eqb (ds_type dialog_state) pending
          || dialog_type_eqb (ds_type dialog_state) pending_on_page then
    ret {| status := py "pending";
           message := py "Connection request already pending for "
                      ++ linkedin_username;
           profile_url := profile_url |}
  else if dialog_type_eqb (ds_type dialog_state) invite_modal then
    early <- (if note_truthy note then
                send_with_note linkedin_username profile_url note
              else
                _ <- evaluate_bool JsClickSendWithout ;;
                ret None) ;;
    match early with
    | Some r => ret r
    | None =>
        sleep (2 # 1) ;;
        modal_closed <- evaluate_bool JsModalClosed ;;
        if modal_closed : bool then
          ret {| status := py "success";
                 message := py "Connection request sent to "
                            ++ linkedin_username
                            ++ (if note_truthy note then py " with note"
                                else []);
                 profile_url := profile_url |}
        else
          ret {| status := py "partial";
                 message := py "Modal may still be visible for "
                            ++ linkedin_username;
                 profile_url := profile_url |}
    end
  else
    ret {| status := py "error";
           message := py "Could not determine invite modal state for "
                      ++ linkedin_username ++ py ". Debug: "
                      ++ ds_repr dialog_state;
           profile_url := profile_url |}.

Definition connect_with_person (linkedin_username : pystr)
    (note : option pystr) : IO B ActionResult :=
  let profile_url :=
    py "https://www.linkedin.com/in/" ++ linkedin_username ++ py "/" in
  let invite_url :=
    py "https://www.linkedin.com/preload/custom-invite/?vanityName="
    ++ linkedin_username in
  try_except
    (connect_with_person_body linkedin_username profile_url invite_url note)
    (fun e =>
       ret {| status := py "error";
              message := py "Error connecting with " ++ linkedin_username
                         ++ py ": " ++ exn_str e;
              profile_url := profile_url |}).

(* '[role="textbox"], .msg-form__contenteditable, textarea[name="message"]' *)
Definition msg_box_selector : pystr :=
  py "[role=" ++ dquote ++ py "textbox" ++ dquote
  ++ py "], .msg-form__contenteditable, textarea[name="
  ++ dquote ++ py "message" ++ dquote ++ py "]".

(** The body of the [try] of [send_message]. *)
Definition send_message_body
    (linkedin_username profile_url messaging_url message : pystr)
  : IO B ActionResult :=
  goto messaging_url ;;
  detect_rate_limit ;;
  sleep (2 # 1) ;;
  early <- try_except
             (wait_for msg_box_selector ;; ret None)
             (fun e =>
                if is_timeout e then
                  ret (Some {| status := py "error";
                               message :=
                                 py "Message compose area not found for "
                                 ++ linkedin_username
                                 ++ py ". They may have messaging disabled.";
                               profile_url := profile_url |})
                else raise e) ;;
  match early with
  | Some r => ret r
  | None =>
      click msg_box_selector ;;
      sleep (3 # 10) ;;
      fill msg_box_selector message ;;
      sleep (1 # 2) ;;
      send_clicked <- evaluate_bool JsClickSendMessage ;;
      if send_clicked : bool then
        sleep (2 # 1) ;;
        ret {| status := py "success";
               message := py "Message sent to " ++ linkedin_username;
               profile_url := profile_url |}
      else
        ret {| status := py "error";
               message := py "Could not find send button for "
                          ++ linkedin_username;
               profile_url := profile_url |}
  end.

Definition send_message (linkedin_username message : pystr)
  : IO B ActionResult :=
  let profile_url :=
    py "https://www.linkedin.com/in/" ++ linkedin_username ++ py "/" in
  let messaging_url :=
    py "https://www.linkedin.com/messaging/compose/?recipients="
    ++ linkedin_username in
  try_except
    (send_message_body linkedin_username profile_url messaging_url message)
    (fun e =>
       ret {| status := py "error";
              message := py "Error sending message: " ++ exn_str e;
              profile_url := profile_url |}).

End Actions.

(** ** The error boundary of the action methods

    Every action method of [LinkedInExtractor], from [connect_with_person]
    to [request_recommendation], has the same outer structure: it formats
    its URLs, then runs one [try] statement whose only handler is
    [except Exception as e]; the handler logs the exception and returns
    the error record of the method.  No action method has a handler that
    raises again. *)

Module Action.


End Action.





Section ActionTry.
Context {B R : Type}.


End ActionTry.

(** ** A scripted browser

    A browser whose replies are fixed in advance, one per call of the page
    interface, in order; it runs the extractor on concrete pages.  A reply
    of the wrong kind, or a missing one, counts as the call's neutral
    value. *)

Inductive Reply : Type :=
| RpDone
| RpStr (s : pystr)
| RpBool (b : bool)
| RpDialog (d : DialogState)
| RpRaise (e : exn).

Definition Scripted : Type := list Reply.

Definition reply_unit (b : Scripted) : result unit * Scripted :=
  match b with
  | RpRaise e :: rest => (Raise e, rest)
  | _ :: rest => (Ok tt, rest)
  | [] => (Ok tt, [])
  end.

Definition reply_str (b : Scripted) : result pystr * Scripted :=
  match b with
  | RpRaise e :: rest => (Raise e, rest)
  | RpStr s :: rest => (Ok s, rest)
  | _ :: rest => (Ok [], rest)
  | [] => (Ok [], [])
  end.

Definition reply_bool (b : Scripted) : result bool * Scripted :=
  match b with
  | RpRaise e :: rest => (Raise e, rest)
  | RpBool v :: rest => (Ok v, rest)
  | _ :: rest => (Ok false, rest)
  | [] => (Ok false, [])
  end.

Definition reply_dialog (b : Scripted) : result DialogState * Scripted :=
  match b with
  | RpRaise e :: rest => (Raise e, rest)
  | RpDialog d :: rest => (Ok d, rest)
  | _ :: rest => (Ok {| ds_type := unknown; ds_repr := [] |}, rest)
  | [] => (Ok {| ds_type := unknown; ds_repr := [] |}, [])
  end.

#[export] Instance scripted_page : Page Scripted := {|
  page_goto := fun _ => reply_unit;
  page_wait_for_selector := fun _ => reply_unit;
  page_evaluate_str := fun _ => reply_str;
  page_evaluate_bool := fun _ => reply_bool;
  page_evaluate_dialog := fun _ => reply_dialog;
  locator_wait_for := fun _ => reply_unit;
  locator_click := fun _ => reply_unit;
  locator_fill := fun _ _ => reply_unit;
  util_detect_rate_limit := reply_unit;
  util_handle_modal_close := reply_unit;
  util_scroll_to_bottom := reply_unit
|}.

(** Flag values as [enum.auto()] numbers them, for running the scrapers. *)
Definition sample_fields : FieldsModule := {|
  BASIC_INFO := 1; EXPERIENCE := 2; EDUCATION := 4; INTERESTS := 8;
  HONORS := 16; LANGUAGES := 32; CONTACT_INFO := 64;
  PersonScrapingFields := [1; 2; 4; 8; 16; 32; 64]%N;
  PERSON_SECTION_MAP :=
    [ (py "experience", 2); (py "education", 4); (py "interests", 8);
      (py "honors", 16); (py "languages", 32); (py "contact_info", 64) ]%N;
  ABOUT := 1; POSTS := 2; JOBS := 4;
  CompanyScrapingFields := [1; 2; 4]%N;
  COMPANY_SECTION_MAP := [ (py "posts", 2); (py "jobs", 4) ]%N
|}.

(** A page that renders only site chrome. *)
Definition chrome_only : pystr :=
  py "About" ++ [NL] ++ py "Accessibility" ++ [NL] ++ py "Talent Solutions".

(** A browser on which every step of one attempt goes through and the
    main innerText is [raw]. *)
Definition page_with (raw : pystr) : Scripted :=
  [RpDone; RpDone; RpDone; RpDone; RpDone; RpStr raw].

(** The replies of an invite dialog that takes a note: navigation, rate
    check, dialog state, the add-a-note click, the textarea, the fill, the
    send click and the check that the modal closed. *)
Definition invite_dialog_script : Scripted :=
  [RpDone; RpDone;
   RpDialog {| ds_type := invite_modal; ds_repr := py "{...}" |};
   RpBool true; RpDone; RpDone; RpBool true; RpBool true].

(** ** Observations on a run *)

Definition outcome {B A} (run : result A * B * list Event) : result A :=
  fst (fst run).
Definition final {B A} (run : result A * B * list Event) : B :=
  snd (fst run).
Definition trace {B A} (run : result A * B * list Event) : list Event :=
  snd run.

Definition is_goto (ev : Event) : bool :=
  match ev with EvGoto _ => true | _ => false end.

(** Every extraction attempt starts with one [page.goto]; the number of
    attempts made is the number of navigations. *)
Definition attempts (t : list Event) : nat := length (filter is_goto t).

(** The durations slept, in order. *)
Fixpoint backoffs (t : list Event) : list Q :=
  match t with
  | [] => []
  | EvSleep d :: t' => d :: backoffs t'
  | _ :: t' => backoffs t'
  end.

(** Every event a coroutine causes satisfies [P], whatever the browser
    does. *)
Definition emits {B A} (P : Event -> Prop) (m : IO B A) : Prop :=
  forall b, Forall P (trace (m b)).

(** An event that is neither a navigation nor a sleep. *)
Definition quiet (ev : Event) : Prop :=
  match ev with EvGoto _ | EvSleep _ => False | _ => True end.

Section Reading.
Context {B : Type} `{Page B}.

(** The page loads at [url] from browser state [b] and its main
    innerText is read as [raw], leaving the browser in [b']: every step
    of the attempt goes through (a timeout while waiting for [main] is
    tolerated). *)
Definition reads_raw (url : pystr) (b : B) (raw : pystr) (b' : B) : Prop :=
  exists b1 b2 b3 b4 b5 r,
    page_goto url b = (Ok tt, b1) /\
    util_detect_rate_limit b1 = (Ok tt, b2) /\
    page_wait_for_selector (py "main") b2 = (r, b3) /\
    (r = Ok tt \/ exists m, r = Raise (PlaywrightTimeoutError m)) /\
    util_handle_modal_close b3 = (Ok tt, b4) /\
    util_scroll_to_bottom b4 = (Ok tt, b5) /\
    page_evaluate_str JsMainInnerText b5 = (Ok raw, b').
End Reading.

(** What the handler of [extract_page] turns an attempt's outcome into. *)
Definition isolated (r : result pystr) : result pystr :=
  match r with
  | Ok v => Ok v
  | Raise e => if is_scraper_exception e then Raise e else Ok []
  end.

(** ** The extractions of a scraper run

    [extractions] replays the page loop from browser state [b] and lists
    what each requested section's extraction returned, in order: the name
    of the section and the text. *)

Section Replay.
Context {B : Type} `{Page B}.

Definition extract_section (is_overlay : bool) (url : pystr) : IO B pystr :=
  if is_overlay then _extract_overlay url else extract_page url.

Fixpoint extractions (fields : N) (base_url : pystr)
    (page_map : list (N * pystr * pystr * bool)) (b : B)
  : list (pystr * pystr) :=
  match page_map with
  | [] => []
  | (flag, section_name, suffix, is_overlay) :: rest =>
      if negb (flag_truthy (N.land flag fields)) then
        extractions fields base_url rest b
      else
        match extract_section is_overlay (base_url ++ suffix) b with
        | (Ok text, b1, _) =>
            (section_name, text) :: extractions fields base_url rest b1
        | (Raise e, b1, _) =>
            if is_scraper_exception e then []
            else extractions fields base_url rest b1
        end
  end.
End Replay.

(** The URLs of the requested sections, in page-map order. *)
Fixpoint requested_urls (fields : N) (base_url : pystr)
    (page_map : list (N * pystr * pystr * bool)) : list pystr :=
  match page_map with
  | [] => []
  | (flag, _, suffix, _) :: rest =>
      if negb (flag_truthy (N.land flag fields)) then
        requested_urls fields base_url rest
      else (base_url ++ suffix) :: requested_urls fields base_url rest
  end.

(** [if text: sections[section_name] = text]. *)
Definition keep_section (sections : gmap pystr pystr)
    (entry : pystr * pystr) : gmap pystr pystr :=
  if truthy (snd entry) then <[fst entry := snd entry]> sections
  else sections.

(** A company page-map entry as a person page-map entry: no overlay. *)
Definition no_overlay (entry : N * pystr * pystr)
  : N * pystr * pystr * bool :=
  (entry, false).

(** The section name of a page-map entry. *)
Definition entry_name (entry : N * pystr * pystr * bool) : pystr :=
  snd (fst (fst entry)).

(** What [connect_with_person] may type into the page, given its [note]
    argument: only the invitation textarea, and only the first 200
    characters of the note. *)
Definition note_fill_only (note : option pystr) (ev : Event) : Prop :=
  match ev with
  | EvFill selector text =>
      exists n, note = Some n /\ text = firstn 200 n
  | _ => True
  end.



(** ** The retry wrapper, once

    [extract_page] and [_extract_overlay] wrap their single attempt in the
    same way; [retrying once] is that wrapper around the attempt [once]. *)
Definition retrying {B} (once : IO B pystr) : IO B pystr :=
  try_except
    (result <- once ;;
     if decide (result <> _RATE_LIMITED_MSG) then ret result
     else
       sleep _RATE_LIMIT_RETRY_DELAY ;;
       once)
    (fun e => if is_scraper_exception e then raise e else ret []).

(** ** [urllib.parse.quote_plus]

    The string is encoded as UTF-8 (strict: a lone surrogate cannot be
    encoded and raises [UnicodeEncodeError]); the bytes of letters, digits
    and [_.-~] stay, a space becomes [+], every other byte becomes [%XX]
    with upper-case hexadecimal digits. *)

Definition utf8_encode_char (c : char) : option (list N) :=
  (if c <? 128 then Some [c]
   else if c <? 2048 then Some [192 + c / 64; 128 + c mod 64]
   else if c <? 65536 then
     if (55296 <=? c) && (c <=? 57343) then None
     else Some [224 + c / 4096; 128 + (c / 64) mod 64; 128 + c mod 64]
   else if c <? 1114112 then
     Some [240 + c / 262144; 128 + (c / 4096) mod 64;
           128 + (c / 64) mod 64; 128 + c mod 64]
   else None)%N.

Fixpoint utf8_encode (s : pystr) : option (list N) :=
  match s with
  | [] => Some []
  | c :: s' =>
      match utf8_encode_char c, utf8_encode s' with
      | Some bs, Some rest => Some (bs ++ rest)
      | _, _ => None
      end
  end.

(* _ALWAYS_SAFE: ASCII letters, digits and _.-~ *)
Definition always_safe (b : N) : bool :=
  ((65 <=? b) && (b <=? 90) || (97 <=? b) && (b <=? 122)
   || (48 <=? b) && (b <=? 57)
   || (b =? 95) || (b =? 46) || (b =? 45) || (b =? 126))%N.

Definition hex_digit (n : N) : char :=
  (if n <? 10 then 48 + n else 55 + n)%N.

Definition quote_byte (b : N) : pystr :=
  if always_safe b then [b]
  else if (b =? 32)%N then [43%N]
  else [37%N; hex_digit (b / 16); hex_digit (b mod 16)].

(** The text of the encoding error is left out. *)
Definition quote_plus (s : pystr) : result pystr :=
  match utf8_encode s with
  | Some bs => Ok (concat (List.map quote_byte bs))
  | None => Raise (OtherException (py "UnicodeEncodeError") [])
  end.

(** A computation without effects, inside a coroutine. *)
Definition pure_step {B A} (r : result A) : IO B A := fun b => (r, b, []).

(** ** [scrape_job] and [search_jobs] *)

Section JobScrapers.
Context {B : Type} `{Page B}.

(** [sections = {}; if text: sections[name] = text]. *)
Definition single_section (name text : pystr) : gmap pystr pystr :=
  if truthy text then <[name := text]> ∅ else ∅.

Definition scrape_job (job_id : pystr) : IO B ScrapeResult :=
  let url := py "https://www.linkedin.com/jobs/view/" ++ job_id ++ py "/" in
  text <- extract_page url ;;
  ret {| url := url;
         sections := single_section (py "job_posting") text;
         pages_visited := [url];
         sections_requested := [py "job_posting"] |}.

Definition search_jobs (keywords : pystr) (location : option pystr)
  : IO B ScrapeResult :=
  quoted <- pure_step (quote_plus keywords) ;;
  let params := py "keywords=" ++ quoted in
  params <- match location with
            | Some place =>
                if truthy place then
                  quoted_location <- pure_step (quote_plus place) ;;
                  ret (params ++ py "&location=" ++ quoted_location)
                else ret params
            | None => ret params
            end ;;
  let url := py "https://www.linkedin.com/jobs/search/?" ++ params in
  text <- extract_page url ;;
  ret {| url := url;
         sections := single_section (py "search_results") text;
         pages_visited := [url];
         sections_requested := [py "search_results"] |}.

End JobScrapers.

(** The characters a quoted parameter is made of: letters, digits,
    [_.-~], [+] and [%]. *)
Definition param_char (c : char) : bool :=
  always_safe c || (c =? 43)%N || (c =? 37)%N.

(** Every navigation in the trace goes to [target]. *)
Definition goes_to (target : pystr) (ev : Event) : Prop :=
  match ev with EvGoto u => u = target | _ => True end.

(** The texts typed into the page during a run, in order. *)
Fixpoint filled_texts (t : list Event) : list pystr :=
  match t with
  | [] => []
  | EvFill _ text :: t' => text :: filled_texts t'
  | _ :: t' => filled_texts t'
  end.

(** ** The search pages and the network methods

    These methods run page scripts of their own and pass their own
    arguments to [scroll_to_bottom]; their events extend the events of the
    extraction core. *)

Inductive WScript : Type :=
| JsPostsInnerText         (* search results container innerText *)
| JsPeopleResults          (* person cards, joined, or container text *)
| JsInvitations            (* the invitation cards of the page *)
| JsScrollWindow           (* window.scrollTo(0, document.body.scrollHeight) *)
| JsConnections            (* the connection cards, at most maxCount *)
| JsConnectionsCount       (* the number in the page heading *)
| JsSetAlert.              (* click the alert button, report the status *)

Inductive WEvent : Type :=
| Core (ev : Event)
| WEvaluate (script : WScript)
| WEvaluateWith (script : WScript) (arg : Z)
| WScrollToBottom (pause_time : Q) (max_scrolls : nat).

(** One invitation, as the invitation script returns it. *)
Record Invitation : Type := {
  inv_name : pystr;
  inv_headline : pystr;
  inv_profile_url : pystr;
  inv_profile_image : option pystr
}.

(** One connection, as the connection script returns it. *)
Record Connection : Type := {
  con_name : pystr;
  con_headline : pystr;
  con_username : pystr;
  con_profile_url : pystr
}.

Class SearchPage (B : Type) : Type := {
  page_evaluate_wstr : WScript -> B -> result pystr * B;
  page_evaluate_scroll : B -> result unit * B;
  page_evaluate_invitations : B -> result (list Invitation) * B;
  page_evaluate_connections : Z -> B -> result (list Connection) * B;
  page_evaluate_count : B -> result Z * B;
  util_scroll_to_bottom_with : Q -> nat -> B -> result unit * B
}.

Definition WIO (B A : Type) : Type := B -> result A * B * list WEvent.

Definition wret {B A} (a : A) : WIO B A := fun b => (Ok a, b, []).

Definition wraise {B A} (e : exn) : WIO B A := fun b => (Raise e, b, []).

Definition wbind {B A C} (m : WIO B A) (f : A -> WIO B C) : WIO B C :=
  fun b =>
    match m b with
    | (Ok a, b1, t1) =>
        match f a b1 with
        | (r, b2, t2) => (r, b2, t1 ++ t2)
        end
    | (Raise e, b1, t1) => (Raise e, b1, t1)
    end.

Definition wtry {B A} (body : WIO B A) (handler : exn -> WIO B A)
  : WIO B A :=
  fun b =>
    match body b with
    | (Ok a, b1, t1) => (Ok a, b1, t1)
    | (Raise e, b1, t1) =>
        match handler e b1 with
        | (r, b2, t2) => (r, b2, t1 ++ t2)
        end
    end.

Definition wcall {B A} (ev : WEvent) (f : B -> result A * B) : WIO B A :=
  fun b => match f b with (r, b1) => (r, b1, [ev]) end.

(** A coroutine of the extraction core, run here. *)
Definition lift {B A} (m : IO B A) : WIO B A :=
  fun b => match m b with (r, b1, t) => (r, b1, List.map Core t) end.

Declare Scope wio_scope.
Delimit Scope wio_scope with wio.
Notation "x <- c1 ;; c2" := (wbind c1 (fun x => c2))
  (at level 100, c1 at next level, right associativity) : wio_scope.
Notation "c1 ;; c2" := (wbind c1 (fun _ => c2))
  (at level 100, right associativity) : wio_scope.

Definition wresult_outcome {B A} (run : result A * B * list WEvent)
  : result A := fst (fst run).
Definition wtrace {B A} (run : result A * B * list WEvent) : list WEvent :=
  snd run.

(** [",".join(parts)]. *)
Fixpoint join_comma (parts : list pystr) : pystr :=
  match parts with
  | [] => []
  | [p] => p
  | p :: rest => p ++ py "," ++ join_comma rest
  end.

(** The key by which invitations are told apart:
    [inv.get("profile_url") or inv.get("name")]. *)
Definition invitation_key (inv : Invitation) : pystr :=
  if truthy (inv_profile_url inv) then inv_profile_url inv else inv_name inv.

(** The loop that removes duplicates; [seen] and [unique_invitations] are
    the two objects it updates. *)
Fixpoint unique_loop (invitations : list Invitation) (seen : gset pystr)
    (unique_invitations : list Invitation) : list Invitation :=
  match invitations with
  | [] => unique_invitations
  | inv :: rest =>
      let key := invitation_key inv in
      if truthy key && negb (bool_decide (key ∈ seen)) then
        unique_loop rest ({[key]} ∪ seen) (unique_invitations ++ [inv])
      else unique_loop rest seen unique_invitations
  end.

(** The two shapes of the dict [get_pending_invitations] returns. *)
Inductive InvitationsResult : Type :=
| InvitationsSuccess (count : nat) (invitations : list Invitation)
| InvitationsError (message : pystr).

(** The two shapes of the dict [get_connections] returns. *)
Inductive ConnectionsResult : Type :=
| ConnectionsSuccess (total_connections : Z) (retrieved : nat)
                     (connections : list Connection)
| ConnectionsError (message : pystr).

Section SearchMethods.
Context {B : Type} `{Page B} `{SearchPage B}.
Local Open Scope wio_scope.

Definition wsleep (seconds : Q) : WIO B unit := lift (sleep seconds).

Definition wignore_timeout (e : exn) : WIO B unit :=
  if is_timeout e then wret tt else wraise e.

Definition _extract_posts_page (url : pystr) : WIO B pystr :=
  lift (goto url) ;;
  lift detect_rate_limit ;;
  wtry (lift (wait_for_selector
                (py ".search-results-container, .scaffold-finite-scroll__content")))
       wignore_timeout ;;
  lift handle_modal_close ;;
  wcall (WScrollToBottom (8 # 10) 8) (util_scroll_to_bottom_with (8 # 10) 8) ;;
  raw <- wcall (WEvaluate JsPostsInnerText)
               (page_evaluate_wstr JsPostsInnerText) ;;
  wret (classify_raw raw).

(** [params += f"&name={quote_plus(value)}"] for an optional value that
    is given and non-empty; [wrap] is what the value is wrapped in before
    quoting. *)
Definition add_param (params name : pystr) (wrap : pystr -> pystr)
    (value : option pystr) : WIO B pystr :=
  match value with
  | Some v =>
      if truthy v then
        quoted <- lift (pure_step (quote_plus (wrap v))) ;;
        wret (params ++ py "&" ++ name ++ py "=" ++ quoted)
      else wret params
  | None => wret params
  end.

(* '"' + value + '"' *)
Definition in_quotes (value : pystr) : pystr := dquote ++ value ++ dquote.

Definition search_posts (keywords : pystr) (date_posted sort_by : option pystr)
  : WIO B ScrapeResult :=
  quoted <- lift (pure_step (quote_plus keywords)) ;;
  let params := py "keywords=" ++ quoted in
  let params := params ++ py "&origin=FACETED_SEARCH" in
  params <- add_param params (py "datePosted") in_quotes date_posted ;;
  params <- add_param params (py "sortBy") in_quotes sort_by ;;
  let url := py "https://www.linkedin.com/search/results/content/?"
             ++ params in
  text <- _extract_posts_page url ;;
  wret {| url := url;
          sections := single_section (py "posts") text;
          pages_visited := [url];
          sections_requested := [py "posts"] |}.

Definition _extract_people_search_page (url : pystr) : WIO B pystr :=
  lift (goto url) ;;
  lift detect_rate_limit ;;
  wtry (lift (wait_for_selector
                (py ".search-results-container, .reusable-search__entity-result-list")))
       wignore_timeout ;;
  lift handle_modal_close ;;
  wcall (WScrollToBottom (8 # 10) 5) (util_scroll_to_bottom_with (8 # 10) 5) ;;
  raw <- wcall (WEvaluate JsPeopleResults)
               (page_evaluate_wstr JsPeopleResults) ;;
  wret (classify_raw raw).

(* "[" + ",".join(f'"{n}"' for n in network) + "]" *)
Definition network_json (network : list pystr) : pystr :=
  py "[" ++ join_comma (List.map in_quotes network) ++ py "]".

(* '["' + location + '"]' *)
Definition geo_json (location : pystr) : pystr :=
  py "[" ++ dquote ++ location ++ dquote ++ py "]".

Definition search_people (keywords : pystr) (network : option (list pystr))
    (location current_company : option pystr) : WIO B ScrapeResult :=
  quoted <- lift (pure_step (quote_plus keywords)) ;;
  let params := py "keywords=" ++ quoted in
  let params := params ++ py "&origin=FACETED_SEARCH" in
  params <- match network with
            | Some (n :: ns) =>
                quoted_network <-
                  lift (pure_step (quote_plus (network_json (n :: ns)))) ;;
                wret (params ++ py "&network=" ++ quoted_network)
            | _ => wret params
            end ;;
  params <- add_param params (py "geoUrn") geo_json location ;;
  params <- add_param params (py "currentCompany") (fun v => v)
                      current_company ;;
  let url := py "https://www.linkedin.com/search/results/people/?"
             ++ params in
  text <- _extract_people_search_page url ;;
  wret {| url := url;
          sections := single_section (py "people") text;
          pages_visited := [url];
          sections_requested := [py "people"] |}.

Definition get_pending_invitations : WIO B InvitationsResult :=
  wtry
    (lift (goto (py "https://www.linkedin.com/mynetwork/invitation-manager/")) ;;
     lift detect_rate_limit ;;
     wsleep (2 # 1) ;;
     invitations <- wcall (WEvaluate JsInvitations)
                          page_evaluate_invitations ;;
     let unique_invitations := unique_loop invitations ∅ [] in
     wret (InvitationsSuccess (length unique_invitations)
                              unique_invitations))
    (fun e =>
       wret (InvitationsError (py "Error getting invitations: "
                               ++ exn_str e))).

(** [for _ in range(n): scroll; sleep(1)]. *)
Fixpoint scroll_rounds (n : nat) : WIO B unit :=
  match n with
  | O => wret tt
  | S k =>
      wcall (WEvaluate JsScrollWindow) page_evaluate_scroll ;;
      wsleep (1 # 1) ;;
      scroll_rounds k
  end.

(* range(min(limit // 10, 10)) *)
Definition scroll_count (limit : Z) : nat :=
  Z.to_nat (Z.min (limit / 10) 10).

Definition get_connections (limit : Z) : WIO B ConnectionsResult :=
  wtry
    (lift (goto (py "https://www.linkedin.com/mynetwork/invite-connect/connections/")) ;;
     lift detect_rate_limit ;;
     wsleep (2 # 1) ;;
     scroll_rounds (scroll_count limit) ;;
     connections <- wcall (WEvaluateWith JsConnections limit)
                          (page_evaluate_connections limit) ;;
     total_count <- wcall (WEvaluate JsConnectionsCount)
                          page_evaluate_count ;;
     wret (ConnectionsSuccess total_count (length connections) connections))
    (fun e =>
       wret (ConnectionsError (py "Error getting connections: "
                               ++ exn_str e))).

End SearchMethods.

(** The number of times the window was scrolled. *)
Fixpoint window_scrolls (t : list WEvent) : nat :=
  match t with
  | [] => 0
  | WEvaluate JsScrollWindow :: t' => S (window_scrolls t')
  | _ :: t' => window_scrolls t'
  end.

(** The navigations of a run. *)
Fixpoint wnavigations (t : list WEvent) : list pystr :=
  match t with
  | [] => []
  | Core (EvGoto u) :: t' => u :: wnavigations t'
  | _ :: t' => wnavigations t'
  end.

(** The durations slept during a run. *)
Fixpoint wsleeps (t : list WEvent) : list Q :=
  match t with
  | [] => []
  | Core (EvSleep d) :: t' => d :: wsleeps t'
  | _ :: t' => wsleeps t'
  end.

(** ** [create_job_alert] *)

(** What [create_job_alert] returns: the record with the arguments, or the
    error record (status ["error"]). *)
Inductive AlertResult : Type :=
| AlertReport (status message keywords : pystr) (location : option pystr)
| AlertError (message : pystr).

(** The alert script; its value is the ["status"] entry of its answer. *)
Class AlertPage (B : Type) : Type := {
  page_evaluate_alert : B -> result pystr * B
}.

Section JobAlerts.
Context {B : Type} `{Page B} `{AlertPage B}.
Local Open Scope wio_scope.

(* f" in {location}" if location else "" *)
Definition in_location (location : option pystr) : pystr :=
  match location with
  | Some place => if truthy place then py " in " ++ place else []
  | None => []
  end.

Definition create_job_alert (keywords : pystr) (location : option pystr)
  : WIO B AlertResult :=
  quoted <- lift (pure_step (quote_plus keywords)) ;;
  let search_url :=
    py "https://www.linkedin.com/jobs/search/?keywords=" ++ quoted in
  search_url <- match location with
                | Some place =>
                    if truthy place then
                      quoted_location <-
                        lift (pure_step (quote_plus place)) ;;
                      wret (search_url ++ py "&location=" ++ quoted_location)
                    else wret search_url
                | None => wret search_url
                end ;;
  wtry
    (lift (goto search_url) ;;
     lift detect_rate_limit ;;
     lift (sleep (2 # 1)) ;;
     alert_created <- wcall (WEvaluate JsSetAlert) page_evaluate_alert ;;
     if decide (alert_created = py "already_exists") then
       wret (AlertReport (py "already_exists")
               (py "Job alert for '" ++ keywords ++ py "' already exists")
               keywords location)
     else if decide (alert_created = py "clicked") then
       lift (sleep (2 # 1)) ;;
       wret (AlertReport (py "success")
               (py "Job alert created for '" ++ keywords ++ py "'"
                ++ in_location location)
               keywords location)
     else
       wret (AlertReport (py "not_found")
               (py "Could not find alert button. Try searching for jobs first.")
               keywords location))
    (fun e =>
       wret (AlertError (py "Error creating job alert: " ++ exn_str e))).

End JobAlerts.

(** The URL [create_job_alert] builds from its arguments. *)
Definition alert_url (keywords : pystr) (location : option pystr)
  : result pystr :=
  match quote_plus keywords with
  | Raise e => Raise e
  | Ok quoted =>
      let search_url :=
        py "https://www.linkedin.com/jobs/search/?keywords=" ++ quoted in
      match location with
      | Some place =>
          if truthy place then
            match quote_plus place with
            | Ok quoted_location =>
                Ok (search_url ++ py "&location=" ++ quoted_location)
            | Raise e => Raise e
            end
          else Ok search_url
      | None => Ok search_url
      end
  end.

(** What [add_param] computes, without the coroutine around it. *)
Definition quoted_param (params name : pystr) (wrap : pystr -> pystr)
    (value : option pystr) : result pystr :=
  match value with
  | Some v =>
      if truthy v then
        match quote_plus (wrap v) with
        | Ok quoted => Ok (params ++ py "&" ++ name ++ py "=" ++ quoted)
        | Raise e => Raise e
        end
      else Ok params
  | None => Ok params
  end.

(** The URL [search_posts] builds from its arguments. *)
Definition posts_url (keywords : pystr) (date_posted sort_by : option pystr)
  : result pystr :=
  match quote_plus keywords with
  | Raise e => Raise e
  | Ok quoted =>
      match quoted_param (py "keywords=" ++ quoted
                          ++ py "&origin=FACETED_SEARCH")
                         (py "datePosted") in_quotes date_posted with
      | Raise e => Raise e
      | Ok params =>
          match quoted_param params (py "sortBy") in_quotes sort_by with
          | Raise e => Raise e
          | Ok params =>
              Ok (py "https://www.linkedin.com/search/results/content/?"
                  ++ params)
          end
      end
  end.

(** The URL [search_people] builds from its arguments. *)
Definition people_url (keywords : pystr) (network : option (list pystr))
    (location current_company : option pystr) : result pystr :=
  match quote_plus keywords with
  | Raise e => Raise e
  | Ok quoted =>
      let params := py "keywords=" ++ quoted in
      let params := params ++ py "&origin=FACETED_SEARCH" in
      match
        match network with
        | Some (n :: ns) =>
            match quote_plus (network_json (n :: ns)) with
            | Ok quoted_network =>
                Ok (params ++ py "&network=" ++ quoted_network)
            | Raise e => Raise e
            end
        | _ => Ok params
        end
      with
      | Raise e => Raise e
      | Ok params =>
          match quoted_param params (py "geoUrn") geo_json location with
          | Raise e => Raise e
          | Ok params =>
              match quoted_param params (py "currentCompany") (fun v => v)
                                 current_company with
              | Raise e => Raise e
              | Ok params =>
                  Ok (py "https://www.linkedin.com/search/results/people/?"
                      ++ params)
              end
          end
      end
  end.

(** How often the character [c] occurs in [s]. *)
Fixpoint count_char (c : char) (s : pystr) : nat :=
  match s with
  | [] => 0
  | d :: s' => (if (d =? c)%N then 1 else 0) + count_char c s'
  end.

(** 1 for an optional text that is given and not empty, 0 otherwise. *)
Definition given (value : option pystr) : nat :=
  match value with
  | Some v => if truthy v then 1 else 0
  | None => 0
  end.

(** 1 for an optional list that is given and not empty, 0 otherwise. *)
Definition given_list (value : option (list pystr)) : nat :=
  match value with
  | Some (_ :: _) => 1
  | _ => 0
  end.

(** The characters of a query string: those of quoted parameters and the
    separators [&] and [=]. *)
Definition query_char (c : char) : bool :=
  param_char c || (c =? 38)%N || (c =? 61)%N.

(** An event that is neither a navigation nor a sleep. *)
Definition wquiet (ev : WEvent) : Prop :=
  match ev with
  | Core (EvGoto _) | Core (EvSleep _) => False
  | _ => True
  end.

Definition wemits {B A} (P : WEvent -> Prop) (m : WIO B A) : Prop :=
  forall b, Forall P (wtrace (m b)).

(** A scripted browser for these methods. *)
Inductive WReply : Type :=
| WDone
| WStr (s : pystr)
| WRaise (e : exn)
| WInvitations (items : list Invitation)
| WConnections (items : list Connection)
| WCount (n : Z).

Definition WScripted : Type := list WReply.

Definition wreply {A} (pick : WReply -> option A) (neutral : A)
    (b : WScripted) : result A * WScripted :=
  match b with
  | WRaise e :: rest => (Raise e, rest)
  | r :: rest => (Ok (default neutral (pick r)), rest)
  | [] => (Ok neutral, [])
  end.

Definition pick_str (r : WReply) : option pystr :=
  match r with WStr s => Some s | _ => None end.
Definition pick_invitations (r : WReply) : option (list Invitation) :=
  match r with WInvitations l => Some l | _ => None end.
Definition pick_connections (r : WReply) : option (list Connection) :=
  match r with WConnections l => Some l | _ => None end.
Definition pick_count (r : WReply) : option Z :=
  match r with WCount n => Some n | _ => None end.

#[export] Instance wscripted_page : Page WScripted := {|
  page_goto := fun _ => wreply (fun _ => None) tt;
  page_wait_for_selector := fun _ => wreply (fun _ => None) tt;
  page_evaluate_str := fun _ => wreply pick_str [];
  page_evaluate_bool := fun _ => wreply (fun _ => None) false;
  page_evaluate_dialog :=
    fun _ => wreply (fun _ => None) {| ds_type := unknown; ds_repr := [] |};
  locator_wait_for := fun _ => wreply (fun _ => None) tt;
  locator_click := fun _ => wreply (fun _ => None) tt;
  locator_fill := fun _ _ => wreply (fun _ => None) tt;
  util_detect_rate_limit := wreply (fun _ => None) tt;
  util_handle_modal_close := wreply (fun _ => None) tt;
  util_scroll_to_bottom := wreply (fun _ => None) tt
|}.

#[export] Instance wscripted_search : SearchPage WScripted := {|
  page_evaluate_wstr := fun _ => wreply pick_str [];
  page_evaluate_scroll := wreply (fun _ => None) tt;
  page_evaluate_invitations := wreply pick_invitations [];
  page_evaluate_connections := fun _ => wreply pick_connections [];
  page_evaluate_count := wreply pick_count 0%Z;
  util_scroll_to_bottom_with := fun _ _ => wreply (fun _ => None) tt
|}.

#[export] Instance wscripted_alert : AlertPage WScripted := {|
  page_evaluate_alert := wreply pick_str []
|}.

(** A job search page whose alert script answers [answer]. *)
Definition alert_page (answer : pystr) : WScripted :=
  [WDone; WDone; WStr answer].

(** Pages for the runs below: an invitation list that shows one person
    twice and one card without name and link, a connection list, a result
    page, and a page whose load fails. *)
Definition inv_ana : Invitation :=
  {| inv_name := py "Ana"; inv_headline := py "Engineer";
     inv_profile_url := py "https://www.linkedin.com/in/ana";
     inv_profile_image := Some (py "ana.png") |}.

Definition inv_ana_again : Invitation :=
  {| inv_name := py "Ana Souza"; inv_headline := py "Engineer";
     inv_profile_url := py "https://www.linkedin.com/in/ana";
     inv_profile_image := None |}.

Definition inv_bo : Invitation :=
  {| inv_name := py "Bo"; inv_headline := [];
     inv_profile_url := []; inv_profile_image := None |}.

Definition inv_blank : Invitation :=
  {| inv_name := []; inv_headline := py "Recruiter";
     inv_profile_url := []; inv_profile_image := None |}.

Definition invitations_page : WScripted :=
  [WDone; WDone; WInvitations [inv_ana; inv_blank; inv_bo; inv_ana_again]].

Definition con_ana : Connection :=
  {| con_name := py "Ana"; con_headline := py "Engineer";
     con_username := py "ana";
     con_profile_url := py "https://www.linkedin.com/in/ana" |}.

Definition connections_page : WScripted :=
  [WDone; WDone; WDone; WDone; WDone; WDone;
   WConnections [con_ana]; WCount 1].

Definition results_page (text : pystr) : WScripted :=
  [WDone; WDone; WDone; WDone; WDone; WStr text].

Definition failing_page (e : exn) : WScripted := [WRaise e].

(** * Properties *)

(** ** [str.strip] *)

Lemma lstrip_shape (s : pystr) :
  lstrip s = [] \/ exists c t, lstrip s = c :: t /\ py_isspace c = false.
Proof.
  induction s as [|c s IH]; simpl; [now left|].
  destruct (py_isspace c) eqn:E; [exact IH|].
  right. exists c, s. split; [reflexivity|exact E].
Qed.

Lemma lstrip_fixed (c : char) (t : pystr) :
  py_isspace c = false -> lstrip (c :: t) = c :: t.
Proof. intros E. simpl. now rewrite E. Qed.

Lemma lstrip_idem (s : pystr) : lstrip (lstrip s) = lstrip s.
Proof.
  destruct (lstrip_shape s) as [E|(c & t & E & Hc)]; rewrite E.
  - reflexivity.
  - now apply lstrip_fixed.
Qed.

Lemma lstrip_suffix (s : pystr) : exists t, s = t ++ lstrip s.
Proof.
  induction s as [|c s [t IH]]; simpl.
  - now exists [].
  - destruct (py_isspace c).
    + exists (c :: t). simpl. now f_equal.
    + now exists [].
Qed.

Lemma lstrip_snoc (l : pystr) (c : char) :
  py_isspace c = false -> exists l', lstrip (l ++ [c]) = l' ++ [c].
Proof.
  intros Hc. induction l as [|d l IH]; simpl.
  - rewrite Hc. now exists [].
  - destruct (py_isspace d); [exact IH|]. now exists (d :: l).
Qed.

Lemma rstrip_prefix (s : pystr) : exists t, s = rstrip s ++ t.
Proof.
  unfold rstrip. destruct (lstrip_suffix (rev s)) as [t Ht].
  exists (rev t). rewrite <- rev_app_distr, <- Ht. now rewrite rev_involutive.
Qed.

Lemma rstrip_idem (s : pystr) : rstrip (rstrip s) = rstrip s.
Proof. unfold rstrip. now rewrite rev_involutive, lstrip_idem. Qed.

Lemma rstrip_keeps_head (c : char) (t : pystr) :
  py_isspace c = false -> exists t', rstrip (c :: t) = c :: t'.
Proof.
  intros Hc. unfold rstrip. change (rev (c :: t)) with (rev t ++ [c]).
  destruct (lstrip_snoc (rev t) c Hc) as [l' E]. rewrite E.
  exists (rev l'). now rewrite rev_app_distr.
Qed.

(** A stripped string is empty or starts with a non-blank character. *)
Lemma strip_shape (s : pystr) :
  strip s = [] \/ exists c t, strip s = c :: t /\ py_isspace c = false.
Proof.
  unfold strip. destruct (lstrip_shape s) as [E|(c & t & E & Hc)]; rewrite E.
  - now left.
  - right. destruct (rstrip_keeps_head c t Hc) as [t' E']. now exists c, t'.
Qed.

Lemma lstrip_strip (s : pystr) : lstrip (strip s) = strip s.
Proof.
  destruct (strip_shape s) as [E|(c & t & E & Hc)]; rewrite E.
  - reflexivity.
  - now apply lstrip_fixed.
Qed.

Lemma strip_idem (s : pystr) : strip (strip s) = strip s.
Proof.
  unfold strip at 1. rewrite lstrip_strip. unfold strip. apply rstrip_idem.
Qed.

(** Stripping a prefix of a string that starts with a non-blank character
    leaves a prefix of that string. *)
Lemma strip_firstn_prefix (s : pystr) (n : nat) :
  lstrip s = s -> exists t, s = strip (firstn n s) ++ t.
Proof.
  intros Hs. unfold strip.
  assert (Hl : lstrip (firstn n s) = firstn n s).
  { destruct n as [|n]; [reflexivity|]. destruct s as [|c s]; [reflexivity|].
    simpl in *. destruct (py_isspace c) eqn:E; [|reflexivity].
    exfalso. destruct (lstrip_suffix s) as [t Ht].
    apply (f_equal (@length _)) in Hs. rewrite Ht in Hs at 2.
    simpl in Hs. rewrite length_app in Hs. lia. }
  rewrite Hl. destruct (rstrip_prefix (firstn n s)) as [t Ht].
  exists (t ++ skipn n s). rewrite app_assoc, <- Ht. symmetry. apply firstn_skipn.
Qed.

(** ** The matcher decides what the patterns mean *)

Lemma last_char_app (prev : option char) (w1 w2 : pystr) :
  last_char prev (w1 ++ w2) = last_char (last_char prev w1) w2.
Proof. unfold last_char. apply fold_left_app. Qed.

Lemma last_char_cons (prev p : option char) (c : char) (w : pystr) :
  last_char prev (c :: w) = last_char p (c :: w).
Proof. reflexivity. Qed.

Lemma plus_k_spec (a : atom) (k : cont) (s : pystr) (prev : option char) :
  plus_k a k s = true <->
  exists w rest,
    s = w ++ rest /\ (w <> [] /\ Forall (fun c => atom_ok a c = true) w) /\
    k (last_char prev w) rest = true.
Proof.
  revert prev. induction s as [|c s IH]; intros prev; simpl.
  - split; [discriminate|].
    intros (w & rest & Hs & [Hw _] & _).
    destruct w; [now contradiction Hw|discriminate].
  - rewrite andb_true_iff, orb_true_iff, (IH (Some c)). split.
    + intros [Hc [(w & rest & -> & [Hw Hall] & Hk)|Hk]].
      * exists (c :: w), rest. split; [reflexivity|].
        split; [split; [discriminate|now constructor]|exact Hk].
      * exists [c], s. split; [reflexivity|].
        split; [split; [discriminate|now repeat constructor]|exact Hk].
    + intros (w & rest & Hs & [Hw Hall] & Hk).
      destruct w as [|d w]; [now contradiction Hw|].
      inversion Hs; subst. inversion Hall as [|x l Hd Hall']; subst.
      split; [exact Hd|]. destruct w as [|e w].
      * right. exact Hk.
      * left. exists (e :: w), rest. split; [reflexivity|].
        split; [split; [discriminate|exact Hall']|exact Hk].
Qed.

(** The backtracking matcher accepts exactly when the text splits into a
    word the pattern denotes and a remainder the continuation accepts. *)
Lemma matches_denotes (r : regex) :
  forall (prev : option char) (s : pystr) (k : cont),
  matches r prev s k = true <->
  exists w rest,
    s = w ++ rest /\ denotes r prev w rest /\
    k (last_char prev w) rest = true.
Proof.
  induction r as [|a|a| | |r1 IH1 r2 IH2|r1 IH1 r2 IH2]; intros prev s k;
    simpl matches; simpl denotes.
  - split.
    + intros Hk. now exists [], s.
    + intros (w & rest & -> & -> & Hk). exact Hk.
  - destruct s as [|c s].
    + split; [discriminate|].
      intros (w & rest & Hs & (c & -> & _) & _). discriminate.
    + rewrite andb_true_iff. split.
      * intros [Hc Hk]. exists [c], s. split; [reflexivity|].
        split; [now exists c|exact Hk].
      * intros (w & rest & Hs & (d & -> & Hd) & Hk).
        inversion Hs; subst. now split.
  - apply plus_k_spec.
  - rewrite andb_true_iff. split.
    + intros [Hb Hk]. now exists [], s.
    + intros (w & rest & -> & [-> Hb] & Hk). now split.
  - rewrite andb_true_iff. split.
    + intros [He Hk]. now exists [], s.
    + intros (w & rest & -> & [-> He] & Hk). now split.
  - rewrite IH1. split.
    + intros (w1 & rest1 & -> & H1 & H2). apply IH2 in H2.
      destruct H2 as (w2 & rest & -> & H2 & Hk).
      exists (w1 ++ w2), rest. split; [now rewrite app_assoc|].
      split; [now exists w1, w2|]. now rewrite last_char_app.
    + intros (w & rest & -> & (w1 & w2 & -> & H1 & H2) & Hk).
      exists w1, (w2 ++ rest). split; [now rewrite app_assoc|].
      split; [exact H1|]. apply IH2. exists w2, rest.
      split; [reflexivity|]. split; [exact H2|].
      now rewrite last_char_app in Hk.
  - rewrite orb_true_iff, IH1, IH2. split.
    + intros [(w & rest & Hs & Hd & Hk)|(w & rest & Hs & Hd & Hk)];
        exists w, rest; (split; [exact Hs|]); (split; [|exact Hk]);
        [now left|now right].
    + intros (w & rest & Hs & [Hd|Hd] & Hk); [left|right];
        now exists w, rest.
Qed.

(** A match at position [i]: the text from [i] on starts with a word the
    pattern denotes. *)
Lemma matches_at_denotes (r : regex) (text : pystr) (i : nat) :
  matches_at r text i <->
  i <= length text /\
  exists w rest,
    skipn i text = w ++ rest /\ denotes r (prev_char text i) w rest.
Proof.
  unfold matches_at. rewrite matches_denotes. split.
  - intros (Hi & w & rest & Hs & Hd & _). split; [exact Hi|]. now exists w, rest.
  - intros (Hi & w & rest & Hs & Hd). split; [exact Hi|]. now exists w, rest.
Qed.

(** *** The markers on concrete lines *)

Example footer_marker_found :
  re_search (nth 0 _NOISE_MARKERS REps)
            (py "Bio" ++ [NL] ++ py "About" ++ [NL; NL] ++ py "Talent Solutions")
  = Some 4.
Proof. vm_compute. reflexivity. Qed.

Example footer_marker_needs_newline :
  re_search (nth 0 _NOISE_MARKERS REps) (py "About Accessibility") = None.
Proof. vm_compute. reflexivity. Qed.

Example sidebar_marker_whole_line :
  re_search (nth 1 _NOISE_MARKERS REps)
            (py "x More profiles for you" ++ [NL] ++ py "More profiles for you")
  = Some 24.
Proof. vm_compute. reflexivity. Qed.

Example inmail_marker_needs_a_word :
  re_search (nth 3 _NOISE_MARKERS REps)
            (py "Get up to  replies when you message with InMail") = None /\
  re_search (nth 3 _NOISE_MARKERS REps)
            (py "Get up to 5x replies when you message with InMail" ++ [NL])
  = Some 0.
Proof. split; vm_compute; reflexivity. Qed.

(** ** [pattern.search] finds the leftmost match *)

Lemma skipn_app_length (pre s : pystr) : skipn (length pre) (pre ++ s) = s.
Proof. induction pre as [|c pre IH]; simpl; [reflexivity|exact IH]. Qed.

Lemma prev_char_snoc (pre s : pystr) (c : char) :
  prev_char (pre ++ c :: s) (S (length pre)) = Some c.
Proof. simpl. induction pre as [|d pre IH]; simpl; [reflexivity|exact IH]. Qed.

Lemma search_from_spec (r : regex) (s : pystr) :
  forall (pre : pystr) (prev : option char) (pos : nat),
  pos = length pre -> prev = prev_char (pre ++ s) pos ->
  match search_from r prev s pos with
  | Some p =>
      pos <= p /\ matches_at r (pre ++ s) p /\
      (forall j, pos <= j -> j < p -> ~ matches_at r (pre ++ s) j)
  | None => forall j, pos <= j -> ~ matches_at r (pre ++ s) j
  end.
Proof.
  induction s as [|c s IH]; intros pre prev pos -> ->; simpl search_from.
  - destruct (matches r _ [] accept) eqn:E.
    + split; [lia|]. split; [|intros; lia].
      split; [rewrite length_app; simpl; lia|].
      now rewrite skipn_app_length.
    + intros j Hj [Hlen Hm]. rewrite length_app in Hlen. simpl in Hlen.
      assert (j = length pre) by lia. subst j.
      rewrite skipn_app_length in Hm. congruence.
  - destruct (matches r _ (c :: s) accept) eqn:E.
    + split; [lia|]. split; [|intros; lia].
      split; [rewrite length_app; simpl; lia|].
      now rewrite skipn_app_length.
    + assert (Htext : (pre ++ [c]) ++ s = pre ++ c :: s)
        by now rewrite <- app_assoc.
      specialize (IH (pre ++ [c]) (Some c) (S (length pre))).
      rewrite Htext in IH.
      specialize (IH (eq_sym (last_length pre c))
                     (eq_sym (prev_char_snoc pre s c))).
      assert (Hhere : ~ matches_at r (pre ++ c :: s) (length pre)).
      { intros [_ Hm]. rewrite skipn_app_length in Hm. congruence. }
      destruct (search_from r (Some c) s (S (length pre))) as [p|].
      * destruct IH as (Hp & Hm & Hmin). split; [lia|]. split; [exact Hm|].
        intros j Hj Hjp. destruct (Nat.eq_dec j (length pre)) as [->|Hne].
        -- exact Hhere.
        -- apply Hmin; lia.
      * intros j Hj. destruct (Nat.eq_dec j (length pre)) as [->|Hne].
        -- exact Hhere.
        -- apply IH; lia.
Qed.

Lemma re_search_some (r : regex) (text : pystr) (p : nat) :
  re_search r text = Some p ->
  matches_at r text p /\ (forall j, j < p -> ~ matches_at r text j).
Proof.
  intros E.
  pose proof (search_from_spec r text [] None 0 eq_refl eq_refl) as S.
  unfold re_search in E. rewrite E in S.
  destruct S as (_ & Hm & Hmin). split; [exact Hm|].
  intros j Hj. apply Hmin; lia.
Qed.

Lemma re_search_none (r : regex) (text : pystr) :
  re_search r text = None -> forall j, ~ matches_at r text j.
Proof.
  intros E.
  pose proof (search_from_spec r text [] None 0 eq_refl eq_refl) as S.
  unfold re_search in E. rewrite E in S.
  intros j. apply S. lia.
Qed.

(** A position where the pattern matches is never left of what
    [search] reports. *)
Lemma re_search_leftmost (r : regex) (text : pystr) (j : nat) :
  matches_at r text j -> exists p, re_search r text = Some p /\ p <= j.
Proof.
  intros Hm. destruct (re_search r text) as [p|] eqn:E.
  - exists p. split; [reflexivity|].
    destruct (re_search_some _ _ _ E) as [_ Hmin].
    destruct (le_lt_dec p j) as [Hle|Hlt]; [exact Hle|].
    exfalso. exact (Hmin j Hlt Hm).
  - exfalso. exact (re_search_none _ _ E j Hm).
Qed.

(** ** The [earliest] loop computes the minimum match start *)

Lemma fold_earliest (text : pystr) (ps : list regex) : forall e0 : nat,
  let e := fold_left (earliest_step text) ps e0 in
  e <= e0 /\
  (e = e0 \/ exists p, In p ps /\ re_search p text = Some e) /\
  (forall p st, In p ps -> re_search p text = Some st -> e <= st).
Proof.
  induction ps as [|q ps IH]; intros e0; simpl.
  - split; [lia|]. split; [now left|]. intros p st [].
  - specialize (IH (earliest_step text e0 q)). simpl in IH.
    destruct IH as (Hle & Hor & Hmin).
    assert (Hstep : earliest_step text e0 q <= e0 /\
                    (earliest_step text e0 q = e0 \/
                     re_search q text = Some (earliest_step text e0 q)) /\
                    (forall st, re_search q text = Some st ->
                                earliest_step text e0 q <= st)).
    { unfold earliest_step. destruct (re_search q text) as [st|].
      - destruct (Nat.ltb_spec st e0).
        + split; [lia|]. split; [now right|]. intros st' [= <-]. lia.
        + split; [lia|]. split; [now left|]. intros st' [= <-]. lia.
      - split; [lia|]. split; [now left|]. intros st' [=]. }
    destruct Hstep as (Hs1 & Hs2 & Hs3).
    split; [lia|]. split.
    + destruct Hor as [Heq|(p & Hp & Hsp)].
      * destruct Hs2 as [Hs2|Hs2].
        -- left. congruence.
        -- right. exists q. split; [now left|]. now rewrite Heq.
      * right. exists p. split; [now right|exact Hsp].
    + intros p st [<-|Hp] Hst.
      * specialize (Hs3 _ Hst). lia.
      * exact (Hmin _ _ Hp Hst).
Qed.

Lemma earliest_marker_spec (text : pystr) :
  earliest_marker text <= length text /\
  (earliest_marker text = length text \/
   exists p, In p _NOISE_MARKERS /\ matches_at p text (earliest_marker text)) /\
  (forall p j, In p _NOISE_MARKERS -> j < earliest_marker text ->
               ~ matches_at p text j).
Proof.
  destruct (fold_earliest text _NOISE_MARKERS (length text))
    as (Hle & Hor & Hmin).
  fold (earliest_marker text) in Hle, Hor, Hmin.
  split; [exact Hle|]. split.
  - destruct Hor as [Heq|(p & Hp & Hs)]; [now left|right].
    exists p. split; [exact Hp|]. now apply re_search_some.
  - intros p j Hp Hj Hm.
    destruct (re_search_leftmost _ _ _ Hm) as (st & Hst & Hstj).
    specialize (Hmin _ _ Hp Hst). lia.
Qed.

(** The position the loop ends with is the earliest match, when there is
    one. *)
Lemma earliest_match_marker (text : pystr) (m : nat) :
  earliest_match text m -> earliest_marker text = m.
Proof.
  intros [(p & Hp & Hm) Hmin].
  destruct (earliest_marker_spec text) as (Hle & Hor & Hnone).
  destruct (lt_eq_lt_dec (earliest_marker text) m) as [[Hlt|Heq]|Hgt].
  - exfalso. destruct Hor as [Heq|(q & Hq & Hqm)].
    + destruct Hm as [Hlen _]. lia.
    + exact (Hmin q _ Hq Hlt Hqm).
  - exact Heq.
  - exfalso. exact (Hnone p m Hp Hgt Hm).
Qed.

Lemma no_marker_earliest (text : pystr) :
  no_marker text -> earliest_marker text = length text.
Proof.
  intros Hno. destruct (earliest_marker_spec text) as (_ & [Heq|(p & Hp & Hm)] & _).
  - exact Heq.
  - exfalso. exact (Hno p _ Hp Hm).
Qed.

Lemma no_marker_b_sound (text : pystr) :
  no_marker_b text = true -> no_marker text.
Proof.
  unfold no_marker_b. rewrite forallb_forall. intros Hall p i Hp.
  specialize (Hall p Hp). destruct (re_search p text) eqn:E; [discriminate|].
  now apply re_search_none.
Qed.

(** When some marker is found, the loop's result is the earliest match. *)
Lemma earliest_marker_is_match (text : pystr) :
  no_marker_b text = false -> earliest_match text (earliest_marker text).
Proof.
  intros Hb. destruct (earliest_marker_spec text) as (Hle & Hor & Hnone).
  split; [|exact Hnone].
  destruct Hor as [Heq|Hex]; [|exact Hex].
  exfalso. unfold no_marker_b in Hb.
  apply not_true_iff_false in Hb. apply Hb. apply forallb_forall.
  intros p Hp. destruct (re_search p text) as [st|] eqn:E; [|reflexivity].
  exfalso. destruct (re_search_some _ _ _ E) as [Hm Hmin].
  destruct (fold_earliest text _NOISE_MARKERS (length text)) as (_ & _ & Hlow).
  fold (earliest_marker text) in Hlow. specialize (Hlow _ _ Hp E).
  destruct Hm as [Hlen Hm].
  assert (st = length text) by lia. subst st.
  (* a marker cannot match at the very end: each one starts with a letter *)
  rewrite skipn_all in Hm.
  destruct Hp as [<-|[<-|[<-|[<-|[]]]]]; simpl in Hm;
    rewrite andb_false_r in Hm; discriminate.
Qed.

Lemma strip_noise_at_earliest (text : pystr) (m : nat) :
  earliest_match text m -> strip_linkedin_noise text = strip (firstn m text).
Proof.
  intros Hm. unfold strip_linkedin_noise. now rewrite (earliest_match_marker _ _ Hm).
Qed.

Lemma strip_noise_no_marker (text : pystr) :
  no_marker text -> strip_linkedin_noise text = strip text.
Proof.
  intros Hno. unfold strip_linkedin_noise.
  rewrite (no_marker_earliest _ Hno). now rewrite firstn_all.
Qed.

(** The output of [strip_linkedin_noise] has no blank at either end, so
    stripping it again changes nothing. *)
Lemma strip_noise_stripped (text : pystr) :
  strip (strip_linkedin_noise text) = strip_linkedin_noise text.
Proof. unfold strip_linkedin_noise. apply strip_idem. Qed.

(** ** Runs of coroutines *)

Section IOLemmas.
Context {B : Type}.

Lemma bind_ok {A C} (m : IO B A) (f : A -> IO B C) b a b1 t1 :
  m b = (Ok a, b1, t1) ->
  bind m f b = (outcome (f a b1), final (f a b1), t1 ++ trace (f a b1)).
Proof.
  intros E. unfold bind. rewrite E. now destruct (f a b1) as [[r b2] t2].
Qed.

Lemma bind_raise {A C} (m : IO B A) (f : A -> IO B C) b e b1 t1 :
  m b = (Raise e, b1, t1) -> bind m f b = (Raise e, b1, t1).
Proof. intros E. unfold bind. now rewrite E. Qed.

Lemma try_ok {A} (m : IO B A) (h : exn -> IO B A) b a b1 t1 :
  m b = (Ok a, b1, t1) -> try_except m h b = (Ok a, b1, t1).
Proof. intros E. unfold try_except. now rewrite E. Qed.

Lemma try_raise {A} (m : IO B A) (h : exn -> IO B A) b e b1 t1 :
  m b = (Raise e, b1, t1) ->
  try_except m h b
  = (outcome (h e b1), final (h e b1), t1 ++ trace (h e b1)).
Proof.
  intros E. unfold try_except. rewrite E. now destruct (h e b1) as [[r b2] t2].
Qed.

Lemma sleep_then {A} (d : Q) (m : IO B A) b :
  bind (sleep d) (fun _ => m) b
  = (outcome (m b), final (m b), EvSleep d :: trace (m b)).
Proof. unfold bind, sleep. now destruct (m b) as [[r b2] t2]. Qed.

Lemma bind_ext {A C} (m : IO B A) (f g : A -> IO B C) b :
  (forall a b1, f a b1 = g a b1) -> bind m f b = bind m g b.
Proof.
  intros Hfg. unfold bind. destruct (m b) as [[[a|e] b1] t1]; [|reflexivity].
  now rewrite Hfg.
Qed.

Lemma run_eta {A} (run : result A * B * list Event) :
  run = (outcome run, final run, trace run).
Proof. now destruct run as [[r b] t]. Qed.

(** *** What a coroutine emits, by its structure *)

Lemma emits_ret {A} P (a : A) : emits P (@ret B A a).
Proof. intros b. constructor. Qed.

Lemma emits_raise {A} P e : emits P (@raise B A e).
Proof. intros b. constructor. Qed.

Lemma emits_sleep P d : P (EvSleep d) -> emits P (@sleep B d).
Proof. intros HP b. simpl. now repeat constructor. Qed.

Lemma emits_call {A} P ev (f : B -> result A * B) :
  P ev -> emits P (call ev f).
Proof.
  intros HP b. unfold call. destruct (f b) as [r b1]. simpl.
  now repeat constructor.
Qed.

Lemma emits_bind {A C} P (m : IO B A) (f : A -> IO B C) :
  emits P m -> (forall a, emits P (f a)) -> emits P (bind m f).
Proof.
  intros Hm Hf b. unfold bind. specialize (Hm b).
  destruct (m b) as [[[a|e] b1] t1]; simpl in *.
  - specialize (Hf a b1). destruct (f a b1) as [[r b2] t2]. simpl in *.
    apply Forall_app. now split.
  - exact Hm.
Qed.

Lemma emits_try {A} P (m : IO B A) (h : exn -> IO B A) :
  emits P m -> (forall e, emits P (h e)) -> emits P (try_except m h).
Proof.
  intros Hm Hh b. unfold try_except. specialize (Hm b).
  destruct (m b) as [[[a|e] b1] t1]; simpl in *.
  - exact Hm.
  - specialize (Hh e b1). destruct (h e b1) as [[r b2] t2]. simpl in *.
    apply Forall_app. now split.
Qed.

Lemma quiet_attempts (t : list Event) : Forall quiet t -> attempts t = 0.
Proof.
  unfold attempts. induction 1 as [|ev t Hev _ IH]; [reflexivity|].
  simpl. destruct ev; simpl in *; try exact IH; contradiction.
Qed.

Lemma quiet_backoffs (t : list Event) : Forall quiet t -> backoffs t = [].
Proof.
  induction 1 as [|ev t Hev _ IH]; [reflexivity|].
  destruct ev; simpl in *; try exact IH; contradiction.
Qed.

Lemma attempts_app (t1 t2 : list Event) :
  attempts (t1 ++ t2) = attempts t1 + attempts t2.
Proof. unfold attempts. now rewrite filter_app, length_app. Qed.

Lemma backoffs_app (t1 t2 : list Event) :
  backoffs (t1 ++ t2) = backoffs t1 ++ backoffs t2.
Proof.
  induction t1 as [|ev t1 IH]; [reflexivity|].
  destruct ev; simpl; try exact IH. now f_equal.
Qed.

End IOLemmas.


(** ** One extraction attempt *)

Section AttemptFacts.
Context {B : Type} `{Page B}.

Ltac io_unfold :=
  unfold _extract_page_once, _extract_overlay_once, goto, detect_rate_limit,
    wait_for_selector, handle_modal_close, scroll_to_bottom, evaluate_str,
    ignore_timeout, bind, try_except, call, ret, raise in *.

(** An attempt that reads [raw] returns what [classify_raw] makes of it. *)
Lemma once_reads (url : pystr) (b : B) (raw : pystr) (b' : B) :
  reads_raw url b raw b' ->
  exists t, _extract_page_once url b = (Ok (classify_raw raw), b', t).
Proof.
  intros (b1 & b2 & b3 & b4 & b5 & r & Hg & Hd & Hw & Hr & Hm & Hs & He).
  io_unfold. rewrite Hg, Hd, Hw.
  destruct Hr as [->|[m ->]]; simpl; rewrite Hm, Hs, He; eexists; reflexivity.
Qed.

(** An attempt that returns has read some [raw] and returns what
    [classify_raw] makes of it. *)
Lemma once_returns (url : pystr) (b : B) (v : pystr) (b' : B) t :
  _extract_page_once url b = (Ok v, b', t) ->
  exists raw, reads_raw url b raw b' /\ v = classify_raw raw.
Proof.
  io_unfold. intros E.
  destruct (page_goto url b) as [[[]|e1] b1] eqn:Hg;
    cbv beta iota in E; [|discriminate].
  destruct (util_detect_rate_limit b1) as [[[]|e2] b2] eqn:Hd;
    cbv beta iota in E; [|discriminate].
  destruct (page_wait_for_selector (py "main") b2) as [r b3] eqn:Hw.
  assert (Hr : (r = Ok tt \/ exists m, r = Raise (PlaywrightTimeoutError m))
               \/ exists e, r = Raise e /\ is_timeout e = false).
  { destruct r as [[]|[c m|m|c m]]; eauto. }
  destruct Hr as [Hr|(e & -> & He)].
  - assert (E' :
      match util_handle_modal_close b3 with
      | (Ok _, b4) =>
          match util_scroll_to_bottom b4 with
          | (Ok _, b5) =>
              match page_evaluate_str JsMainInnerText b5 with
              | (Ok raw, b6) => Some (classify_raw raw, b6)
              | _ => None
              end
          | _ => None
          end
      | _ => None
      end = Some (v, b')).
    { destruct Hr as [->|[m ->]]; cbv beta iota delta [is_timeout] in E;
        destruct (util_handle_modal_close b3) as [[[]|e4] b4];
        cbv beta iota in E; try discriminate;
        destruct (util_scroll_to_bottom b4) as [[[]|e5] b5];
        cbv beta iota in E; try discriminate;
        destruct (page_evaluate_str JsMainInnerText b5) as [[raw|e6] b6];
        cbv beta iota in E; try discriminate; now inversion E. }
    destruct (util_handle_modal_close b3) as [[[]|e4] b4] eqn:Hm;
      [|discriminate].
    destruct (util_scroll_to_bottom b4) as [[[]|e5] b5] eqn:Hs;
      [|discriminate].
    destruct (page_evaluate_str JsMainInnerText b5) as [[raw|e6] b6] eqn:Hv;
      [|discriminate].
    inversion E'; subst. exists raw. split; [|reflexivity].
    exists b1, b2, b3, b4, b5, r. repeat split; assumption.
  - cbv beta iota in E. rewrite He in E. cbv beta iota in E. discriminate.
Qed.

(** An attempt navigates exactly once, first thing, and never sleeps. *)
Lemma once_trace (url : pystr) (b : B) :
  exists t, trace (_extract_page_once url b) = EvGoto url :: t /\
            Forall quiet t.
Proof.
  unfold _extract_page_once.
  set (rest := (detect_rate_limit;; _)%io).
  assert (Hrest : emits quiet rest).
  { subst rest. unfold detect_rate_limit, wait_for_selector,
      handle_modal_close, scroll_to_bottom, evaluate_str.
    repeat (first [ apply emits_bind; [|intros ?]
                  | apply emits_try; [|intros ?]
                  | apply emits_call; exact I
                  | apply emits_ret
                  | unfold ignore_timeout; destruct (is_timeout _);
                    [apply emits_ret|apply emits_raise] ]). }
  unfold bind at 1, goto, call.
  destruct (page_goto url b) as [[[]|e] b1].
  - specialize (Hrest b1). destruct (rest b1) as [[r b2] t2].
    exists t2. now split.
  - exists []. now split.
Qed.

Lemma overlay_once_trace (url : pystr) (b : B) :
  exists t, trace (_extract_overlay_once url b) = EvGoto url :: t /\
            Forall quiet t.
Proof.
  unfold _extract_overlay_once.
  set (rest := (detect_rate_limit;; _)%io).
  assert (Hrest : emits quiet rest).
  { subst rest. unfold detect_rate_limit, wait_for_selector, evaluate_str.
    repeat (first [ apply emits_bind; [|intros ?]
                  | apply emits_try; [|intros ?]
                  | apply emits_call; exact I
                  | apply emits_ret
                  | unfold ignore_timeout; destruct (is_timeout _);
                    [apply emits_ret|apply emits_raise] ]). }
  unfold bind at 1, goto, call.
  destruct (page_goto url b) as [[[]|e] b1].
  - specialize (Hrest b1). destruct (rest b1) as [[r b2] t2].
    exists t2. now split.
  - exists []. now split.
Qed.

Lemma once_attempts (url : pystr) (b : B) :
  attempts (trace (_extract_page_once url b)) = 1 /\
  backoffs (trace (_extract_page_once url b)) = [].
Proof.
  destruct (once_trace url b) as (t & -> & Hq).
  change (EvGoto url :: t) with ([EvGoto url] ++ t).
  rewrite attempts_app, backoffs_app, (quiet_attempts _ Hq),
    (quiet_backoffs _ Hq). now split.
Qed.

End AttemptFacts.

(** ** [extract_page]: the retry policy and the error boundary *)

Section ExtractPageFacts.
Context {B : Type} `{Page B}.

Lemma isolate_errors_run (e : exn) (b : B) :
  isolate_errors e b = (isolated (Raise e), b, []).
Proof.
  unfold isolate_errors, isolated. now destruct (is_scraper_exception e).
Qed.

(** First attempt returns something else than the sentinel. *)
Lemma extract_page_clean (url : pystr) (b : B) v b1 t1 :
  _extract_page_once url b = (Ok v, b1, t1) -> v <> _RATE_LIMITED_MSG ->
  extract_page url b = (Ok v, b1, t1).
Proof.
  intros E Hv. unfold extract_page. apply try_ok.
  rewrite (bind_ok _ _ _ _ _ _ E).
  destruct (decide (v <> _RATE_LIMITED_MSG)) as [_|Hn]; [|contradiction].
  unfold ret. simpl. now rewrite app_nil_r.
Qed.

(** First attempt returns the sentinel: backoff, then the second
    attempt decides. *)
Lemma extract_page_retry (url : pystr) (b : B) b1 t1 r2 b2 t2 :
  _extract_page_once url b = (Ok _RATE_LIMITED_MSG, b1, t1) ->
  _extract_page_once url b1 = (r2, b2, t2) ->
  extract_page url b
  = (isolated r2, b2, t1 ++ EvSleep _RATE_LIMIT_RETRY_DELAY :: t2).
Proof.
  intros E1 E2. unfold extract_page.
  assert (Hbody :
    (result <- _extract_page_once url;;
     if decide (result <> _RATE_LIMITED_MSG) then ret result
     else (sleep _RATE_LIMIT_RETRY_DELAY;; _extract_page_once url))%io b
    = (r2, b2, t1 ++ EvSleep _RATE_LIMIT_RETRY_DELAY :: t2)).
  { rewrite (bind_ok _ _ _ _ _ _ E1).
    destruct (decide (_RATE_LIMITED_MSG <> _RATE_LIMITED_MSG)) as [Hn|_];
      [now contradiction Hn|].
    unfold bind, sleep. rewrite E2. reflexivity. }
  destruct r2 as [v2|e2].
  - now apply try_ok.
  - rewrite (try_raise _ _ _ _ _ _ Hbody), isolate_errors_run.
    simpl. now rewrite app_nil_r.
Qed.

(** First attempt raises. *)
Lemma extract_page_raises (url : pystr) (b : B) e b1 t1 :
  _extract_page_once url b = (Raise e, b1, t1) ->
  extract_page url b = (isolated (Raise e), b1, t1).
Proof.
  intros E. unfold extract_page.
  rewrite (try_raise _ _ _ _ _ _ (bind_raise _ _ _ _ _ _ E)).
  rewrite isolate_errors_run. simpl. now rewrite app_nil_r.
Qed.

(** One or two attempts; a backoff exactly when there are two. *)
Lemma extract_page_attempts (url : pystr) (b : B) :
  (attempts (trace (extract_page url b)) = 1 /\
   backoffs (trace (extract_page url b)) = []) \/
  (attempts (trace (extract_page url b)) = 2 /\
   backoffs (trace (extract_page url b)) = [_RATE_LIMIT_RETRY_DELAY]).
Proof.
  destruct (once_attempts url b) as [Ha1 Hb1].
  destruct (_extract_page_once url b) as [[[v|e] b1] t1] eqn:E1;
    simpl in Ha1, Hb1.
  - destruct (decide (v = _RATE_LIMITED_MSG)) as [->|Hv].
    + right. destruct (once_attempts url b1) as [Ha2 Hb2].
      destruct (_extract_page_once url b1) as [[r2 b2] t2] eqn:E2.
      simpl in Ha2, Hb2. rewrite (extract_page_retry _ _ _ _ _ _ _ E1 E2).
      simpl. change (EvSleep _RATE_LIMIT_RETRY_DELAY :: t2)
        with ([EvSleep _RATE_LIMIT_RETRY_DELAY] ++ t2).
      rewrite !attempts_app, !backoffs_app, Ha1, Hb1, Ha2, Hb2. now split.
    + left. rewrite (extract_page_clean _ _ _ _ _ E1 Hv). now split.
  - left. rewrite (extract_page_raises _ _ _ _ _ E1). now split.
Qed.

(** The first thing [extract_page] does is navigate to the URL. *)
Lemma extract_page_starts (url : pystr) (b : B) :
  exists t, trace (extract_page url b) = EvGoto url :: t.
Proof.
  destruct (once_trace url b) as (t & Ht & _).
  destruct (_extract_page_once url b) as [[[v|e] b1] t1] eqn:E1;
    simpl in Ht; subst t1.
  - destruct (decide (v = _RATE_LIMITED_MSG)) as [->|Hv].
    + destruct (_extract_page_once url b1) as [[r2 b2] t2] eqn:E2.
      rewrite (extract_page_retry _ _ _ _ _ _ _ E1 E2). simpl. eauto.
    + rewrite (extract_page_clean _ _ _ _ _ E1 Hv). simpl. eauto.
  - rewrite (extract_page_raises _ _ _ _ _ E1). simpl. eauto.
Qed.

Lemma extract_overlay_starts (url : pystr) (b : B) :
  exists t, trace (_extract_overlay url b) = EvGoto url :: t.
Proof.
  destruct (overlay_once_trace url b) as (t & Ht & _).
  unfold _extract_overlay, try_except, bind.
  destruct (_extract_overlay_once url b) as [[[v|e] b1] t1]; simpl in Ht;
    subst t1.
  - destruct (decide (v <> _RATE_LIMITED_MSG)).
    + simpl. eauto.
    + unfold sleep at 1.
      destruct (_extract_overlay_once url b1) as [[[v2|e2] b2] t2].
      * simpl. eauto.
      * rewrite isolate_errors_run. simpl. eauto.
  - rewrite isolate_errors_run. simpl. eauto.
Qed.

End ExtractPageFacts.

(** ** The page loops of the scrapers *)

Section ScraperFacts.
Context {B : Type} `{Page B}.

Lemma land_lor_forced (fields flag : N) :
  N.land flag (N.lor fields flag) = flag.
Proof.
  apply N.bits_inj. intros n.
  rewrite N.land_spec, N.lor_spec.
  destruct (N.testbit flag n), (N.testbit fields n); reflexivity.
Qed.

Lemma forced_flag_truthy (fields flag : N) :
  flag <> 0%N -> flag_truthy (N.land flag (N.lor fields flag)) = true.
Proof.
  intros Hf. rewrite land_lor_forced. unfold flag_truthy.
  now apply negb_true_iff, N.eqb_neq.
Qed.

(** One visited section: what the [try] block leaves. *)
Lemma section_step (is_overlay : bool) (url name : pystr)
    (sections : gmap pystr pystr) (pages_visited : list pystr) (b : B) :
  let step :=
    try_except
      (text <- (if is_overlay then _extract_overlay url
                else extract_page url);;
       ret (if truthy text then <[name := text]> sections else sections,
            pages_visited ++ [url]))%io
      (section_failed sections pages_visited url) in
  match extract_section is_overlay url b with
  | (Ok text, b1, t1) =>
      step b = (Ok (keep_section sections (name, text),
                    pages_visited ++ [url]), b1, t1)
  | (Raise e, b1, t1) =>
      step b = (if is_scraper_exception e then Raise e
                else Ok (sections, pages_visited ++ [url]), b1, t1)
  end.
Proof.
  intros step. subst step. unfold extract_section, try_except, bind.
  destruct ((if is_overlay then _extract_overlay url else extract_page url) b)
    as [[[text|e] b1] t1].
  - unfold ret, keep_section. simpl. now rewrite app_nil_r.
  - unfold section_failed. destruct (is_scraper_exception e);
      unfold raise, ret; simpl; now rewrite app_nil_r.
Qed.

(** A loop that returns leaves the sections the replayed extractions
    give, and has visited every requested page. *)
Lemma person_pages_run (fields : N) (base_url : pystr)
    (page_map : list (N * pystr * pystr * bool)) :
  forall sections pages_visited (b : B) sections' pages_visited' b' t,
  person_pages fields base_url page_map sections pages_visited b
  = (Ok (sections', pages_visited'), b', t) ->
  sections' = fold_left keep_section
                (extractions fields base_url page_map b) sections /\
  pages_visited' = pages_visited ++ requested_urls fields base_url page_map.
Proof.
  induction page_map as [|[[[flag name] suffix] ov] rest IH];
    intros sections pv b sections' pv' b' t E.
  - inversion E; subst. simpl. now rewrite app_nil_r.
  - simpl in E |- *.
    destruct (negb (flag_truthy (N.land flag fields))).
    + now apply IH in E.
    + pose proof (section_step ov (base_url ++ suffix) name sections pv b)
        as Hstep. simpl in Hstep.
      destruct (extract_section ov (base_url ++ suffix) b)
        as [[[text|e] b1] t1].
      * rewrite (bind_ok _ _ _ _ _ _ Hstep) in E.
        rewrite sleep_then in E. simpl fst in E. simpl snd in E.
        destruct (person_pages _ _ _ _ _ _)
          as [[[[s2 pv2]|e2] b2] t2] eqn:E2;
          unfold outcome, final, trace in E; simpl in E; [|discriminate].
        inversion E; subst. apply IH in E2 as [-> ->].
        split; [reflexivity|]. now rewrite <- app_assoc.
      * destruct (is_scraper_exception e).
        -- rewrite (bind_raise _ _ _ _ _ _ Hstep) in E. discriminate.
        -- rewrite (bind_ok _ _ _ _ _ _ Hstep) in E.
           rewrite sleep_then in E. simpl fst in E. simpl snd in E.
           destruct (person_pages _ _ _ _ _ _)
             as [[[[s2 pv2]|e2] b2] t2] eqn:E2;
             unfold outcome, final, trace in E; simpl in E; [|discriminate].
           inversion E; subst. apply IH in E2 as [-> ->].
           split; [reflexivity|]. now rewrite <- app_assoc.
Qed.

(** The loop starts by navigating to the first requested page. *)
Lemma person_pages_starts (fields : N) (base_url : pystr)
    flag name suffix ov rest sections pages_visited (b : B) :
  flag_truthy (N.land flag fields) = true ->
  exists t,
    trace (person_pages fields base_url ((flag, name, suffix, ov) :: rest)
             sections pages_visited b)
    = EvGoto (base_url ++ suffix) :: t.
Proof.
  intros Hf. simpl. rewrite Hf. simpl.
  pose proof (section_step ov (base_url ++ suffix) name sections
                pages_visited b) as Hstep. simpl in Hstep.
  assert (Hstart : exists t,
    trace (extract_section ov (base_url ++ suffix) b)
    = EvGoto (base_url ++ suffix) :: t).
  { destruct ov; [apply extract_overlay_starts|apply extract_page_starts]. }
  destruct Hstart as [t0 Ht0].
  destruct (extract_section ov (base_url ++ suffix) b)
    as [[[text|e] b1] t1]; simpl in Ht0; subst t1.
  - rewrite (bind_ok _ _ _ _ _ _ Hstep). simpl. eauto.
  - destruct (is_scraper_exception e).
    + rewrite (bind_raise _ _ _ _ _ _ Hstep). simpl. eauto.
    + rewrite (bind_ok _ _ _ _ _ _ Hstep). simpl. eauto.
Qed.

(** The company loop is the person loop without overlays. *)
Lemma company_pages_person (fields : N) (base_url : pystr)
    (page_map : list (N * pystr * pystr)) :
  forall sections pages_visited (b : B),
  company_pages fields base_url page_map sections pages_visited b
  = person_pages fields base_url (List.map no_overlay page_map)
      sections pages_visited b.
Proof.
  induction page_map as [|[[flag name] suffix] rest IH];
    intros sections pv b; [reflexivity|].
  simpl. destruct (negb (flag_truthy (N.land flag fields))); [apply IH|].
  apply bind_ext. intros st b1. rewrite !sleep_then. now rewrite IH.
Qed.

Lemma requested_sections_head (first : pystr) (members : list N)
    (section_map : list (pystr * N)) (fields : N) :
  exists rest,
    requested_sections first members section_map fields = first :: rest.
Proof.
  unfold requested_sections.
  generalize (reverse_map section_map) as rm. intros rm.
  assert (Hgen : forall acc, exists rest,
    fold_left
      (fun requested flag =>
         match rm !! flag with
         | Some name => if flag_in flag fields then requested ++ [name]
                        else requested
         | None => requested
         end) members (first :: acc) = first :: rest).
  { induction members as [|flag members IH]; intros acc; simpl; [eauto|].
    destruct (rm !! flag) as [name|]; [|apply IH].
    destruct (flag_in flag fields); [apply (IH (acc ++ [name]))|apply IH]. }
  apply (Hgen []).
Qed.

End ScraperFacts.

(** ** What ends up in [sections] *)

Section SectionsFacts.
Context {B : Type} `{Page B}.

Lemma extractions_requested (fields : N) (base_url : pystr)
    (page_map : list (N * pystr * pystr * bool)) :
  forall (b : B) name text,
  In (name, text) (extractions fields base_url page_map b) ->
  exists flag suffix ov,
    In (flag, name, suffix, ov) page_map /\
    flag_truthy (N.land flag fields) = true.
Proof.
  induction page_map as [|[[[flag n] suffix] ov] rest IH];
    intros b name text Hin; simpl in Hin; [contradiction|].
  assert (Hrest : forall b1,
    In (name, text) (extractions fields base_url rest b1) ->
    exists flag0 suffix0 ov0,
      In (flag0, name, suffix0, ov0) ((flag, n, suffix, ov) :: rest) /\
      flag_truthy (N.land flag0 fields) = true).
  { intros b1 Hb1. destruct (IH _ _ _ Hb1) as (f0 & s0 & o0 & Hi & Hf).
    exists f0, s0, o0. split; [now right|exact Hf]. }
  destruct (flag_truthy (N.land flag fields)) eqn:Hflag; simpl in Hin;
    [|now apply Hrest in Hin].
  destruct (extract_section ov (base_url ++ suffix) b) as [[[v|e] b1] t1].
  - destruct Hin as [Heq|Hin]; [|now apply Hrest in Hin].
    inversion Heq; subst. exists flag, suffix, ov. split; [now left|exact Hflag].
  - destruct (is_scraper_exception e); [contradiction|now apply Hrest in Hin].
Qed.

Lemma extractions_nodup (fields : N) (base_url : pystr)
    (page_map : list (N * pystr * pystr * bool)) :
  List.NoDup (List.map entry_name page_map) ->
  forall b : B,
    List.NoDup (List.map fst (extractions fields base_url page_map b)).
Proof.
  induction page_map as [|[[[flag n] suffix] ov] rest IH];
    intros Hnd b; simpl; [constructor|].
  inversion Hnd as [|x l Hnotin Hnd']; subst.
  destruct (negb (flag_truthy (N.land flag fields))); [now apply IH|].
  destruct (extract_section ov (base_url ++ suffix) b) as [[[v|e] b1] t1].
  - simpl. constructor; [|now apply IH].
    intros Hin. apply Hnotin. apply in_map_iff in Hin as ([n' v'] & <- & Hin).
    destruct (extractions_requested _ _ _ _ _ _ Hin) as (f0 & s0 & o0 & Hi & _).
    apply in_map_iff. now exists (f0, n', s0, o0).
  - destruct (is_scraper_exception e); [constructor|now apply IH].
Qed.

(** With distinct names, [sections] holds exactly the non-empty texts. *)
Lemma fold_keep_lookup (entries : list (pystr * pystr)) :
  List.NoDup (List.map fst entries) ->
  forall (m : gmap pystr pystr) name text,
  (forall v, In (name, v) entries -> m !! name = None) ->
  (fold_left keep_section entries m !! name = Some text <->
   m !! name = Some text \/ (In (name, text) entries /\ text <> [])).
Proof.
  induction entries as [|[n v] entries IH]; intros Hnd m name text Hfresh.
  - simpl. split; [now left|]. now intros [Hm|[[] _]].
  - inversion Hnd as [|x l Hnotin Hnd']; subst. simpl fold_left.
    assert (Hother : forall v', In (name, v') entries -> n <> name).
    { intros v' Hin ->. apply Hnotin. apply in_map_iff. now exists (name, v'). }
    rewrite (IH Hnd' (keep_section m (n, v)) name text).
    + unfold keep_section. simpl fst. simpl snd.
      destruct (decide (n = name)) as [->|Hne].
      * assert (Hm : m !! name = None) by (apply (Hfresh v); now left).
        assert (Hnone : forall v', ~ In (name, v') entries).
        { intros v' Hin. now apply (Hother v' Hin). }
        destruct v as [|c v]; cbv beta iota delta [truthy].
        -- rewrite Hm. split.
           ++ intros [Hd|[Hin _]]; [discriminate|now apply Hnone in Hin].
           ++ intros [Hd|[[Heq|Hin] Hv]]; [discriminate| |now apply Hnone in Hin].
              inversion Heq; subst. now contradiction Hv.
        -- rewrite lookup_insert_eq, Hm. split.
           ++ intros [Heq|[Hin _]]; [|now apply Hnone in Hin].
              inversion Heq; subst. right. split; [now left|discriminate].
           ++ intros [Hd|[[Heq|Hin] Hv]]; [discriminate| |now apply Hnone in Hin].
              inversion Heq; subst. now left.
      * assert (Hsame : (if truthy v then <[n:=v]> m else m) !! name
                        = m !! name).
        { destruct (truthy v); [now rewrite lookup_insert_ne|reflexivity]. }
        rewrite Hsame. split.
        -- intros [Hm|[Hin Hv]]; [now left|right]. split; [now right|exact Hv].
        -- intros [Hm|[[Heq|Hin] Hv]]; [now left| |right; now split].
           inversion Heq; subst. now contradiction Hne.
    + intros v' Hin. unfold keep_section. simpl fst. simpl snd.
      assert (Hne : n <> name) by exact (Hother v' Hin).
      destruct (truthy v); [rewrite lookup_insert_ne by exact Hne|];
        apply (Hfresh v'); now right.
Qed.

Lemma sections_of_run (fields : N) (base_url : pystr)
    (page_map : list (N * pystr * pystr * bool)) (b : B) name text :
  List.NoDup (List.map entry_name page_map) ->
  (fold_left keep_section (extractions fields base_url page_map b) ∅
     !! name = Some text <->
   In (name, text) (extractions fields base_url page_map b) /\ text <> []).
Proof.
  intros Hnd.
  rewrite (fold_keep_lookup _ (extractions_nodup _ _ _ Hnd b) ∅ name text).
  - rewrite lookup_empty. split; [now intros [Hd|Hin]|now right].
  - intros v _. apply lookup_empty.
Qed.

(** A section whose extraction returned the empty string is absent. *)
Lemma empty_section_absent (fields : N) (base_url : pystr)
    (page_map : list (N * pystr * pystr * bool)) (b : B) name :
  List.NoDup (List.map entry_name page_map) ->
  In (name, []) (extractions fields base_url page_map b) ->
  fold_left keep_section (extractions fields base_url page_map b) ∅
    !! name = None.
Proof.
  intros Hnd Hin.
  destruct (fold_left keep_section _ ∅ !! name) as [text|] eqn:E;
    [|reflexivity].
  exfalso. apply (sections_of_run _ _ _ _ _ _ Hnd) in E as [Hin' Hne].
  pose proof (extractions_nodup fields base_url page_map Hnd b) as Hnd'.
  assert (Heq : text = []).
  { clear -Hin Hin' Hnd'.
    induction (extractions fields base_url page_map b) as [|[n v] l IH];
      [contradiction|].
    simpl in Hnd'. inversion Hnd' as [|x l' Hnotin Hnd'']; subst.
    destruct Hin as [Heq|Hin], Hin' as [Heq'|Hin'].
    - congruence.
    - inversion Heq; subst. exfalso. apply Hnotin, in_map_iff.
      now exists (name, text).
    - inversion Heq'; subst. exfalso. apply Hnotin, in_map_iff.
      now exists (name, []).
    - now apply IH. }
  now apply Hne.
Qed.

End SectionsFacts.

(** ** The action methods *)

Section ActionFacts.
Context {B : Type} `{Page B}.







Ltac emits_step :=
  first [ apply emits_bind; [|intros ?]
        | apply emits_try; [|intros ?]
        | apply emits_ret
        | apply emits_raise
        | apply emits_sleep; exact I
        | apply emits_call; exact I
        | match goal with
          | |- emits _ (if ?c then _ else _) => destruct c
          | |- emits _ (match ?x with Some _ => _ | None => _ end) =>
              destruct x
          end ].

(** The only text [connect_with_person] types is [note[:200]]. *)
Lemma connect_fills (u : pystr) (note : option pystr) :
  emits (B := B) (note_fill_only note) (connect_with_person u note).
Proof.
  unfold connect_with_person, connect_with_person_body.
  unfold goto, detect_rate_limit, evaluate_dialog, evaluate_bool.
  destruct note as [n|]; unfold note_truthy.
  - repeat emits_step.
    unfold send_with_note, evaluate_bool, wait_for, fill.
    repeat emits_step.
    apply emits_call. simpl. now exists n.
  - repeat emits_step.
Qed.

End ActionFacts.

(** * The specified properties *)

(** ** Noise stripping *)

Lemma re_strip_prefix (text : pystr) :
  exists t,
    strip_linkedin_noise text
    = strip_linkedin_noise (strip_linkedin_noise text) ++ t.
Proof.
  unfold strip_linkedin_noise at 2.
  apply strip_firstn_prefix. unfold strip_linkedin_noise. apply lstrip_strip.
Qed.

Lemma re_strip_no_marker (text : pystr) :
  no_marker (strip_linkedin_noise text) ->
  strip_linkedin_noise (strip_linkedin_noise text) = strip_linkedin_noise text.
Proof.
  intros Hno. rewrite (strip_noise_no_marker _ Hno). apply strip_noise_stripped.
Qed.

(** C1, as the code has it: when some noise marker matches, with [m] the
    earliest position at which one does, [strip_linkedin_noise] returns
    the prefix [text[:m]] trimmed of leading and trailing whitespace. *)
Theorem C1_strip_returns_trimmed_prefix (text : pystr) (m : nat) :
  earliest_match text m ->
  strip_linkedin_noise text = strip (firstn m text).
Proof. apply strip_noise_at_earliest. Qed.

(** C1 at ["Hello\nMore profiles for you"]: the marker starts at 6. *)
Lemma C1_witness :
  earliest_match (py "Hello" ++ [NL] ++ py "More profiles for you") 6 /\
  strip_linkedin_noise (py "Hello" ++ [NL] ++ py "More profiles for you")
  = strip (firstn 6 (py "Hello" ++ [NL] ++ py "More profiles for you")).
Proof.
  assert (Hm : earliest_match
                 (py "Hello" ++ [NL] ++ py "More profiles for you") 6).
  { apply (earliest_marker_is_match
             (py "Hello" ++ [NL] ++ py "More profiles for you")).
    vm_compute. reflexivity. }
  split; [exact Hm|].
  exact (C1_strip_returns_trimmed_prefix _ 6 Hm).
Defined.

(** C1 as stated fails: for ["Hello\nMore profiles for you"] the earliest
    match starts at 6, the prefix before it is ["Hello\n"], and the
    function returns ["Hello"]. *)
Lemma C1_counterexample :
  earliest_match (py "Hello" ++ [NL] ++ py "More profiles for you") 6 /\
  firstn 6 (py "Hello" ++ [NL] ++ py "More profiles for you")
  = py "Hello" ++ [NL] /\
  strip_linkedin_noise (py "Hello" ++ [NL] ++ py "More profiles for you")
  = py "Hello" /\
  strip_linkedin_noise (py "Hello" ++ [NL] ++ py "More profiles for you")
  <> firstn 6 (py "Hello" ++ [NL] ++ py "More profiles for you").
Proof.
  split.
  { apply (earliest_marker_is_match
             (py "Hello" ++ [NL] ++ py "More profiles for you")).
    vm_compute. reflexivity. }
  split; [vm_compute; reflexivity|].
  split; [vm_compute; reflexivity|].
  vm_compute. discriminate.
Qed.

(** C5: when no noise marker matches anywhere in the text,
    [strip_linkedin_noise] returns the text trimmed of leading and
    trailing whitespace. *)
Theorem C5_no_marker_returns_trimmed (text : pystr) :
  no_marker text -> strip_linkedin_noise text = strip text.
Proof. apply strip_noise_no_marker. Qed.

(** C5 at ["  Hello world \n"]. *)
Lemma C5_witness :
  no_marker (py "  Hello world " ++ [NL]) /\
  strip_linkedin_noise (py "  Hello world " ++ [NL]) = py "Hello world".
Proof.
  assert (Hno : no_marker (py "  Hello world " ++ [NL])).
  { apply no_marker_b_sound. vm_compute. reflexivity. }
  split; [exact Hno|].
  rewrite (C5_no_marker_returns_trimmed _ Hno). vm_compute. reflexivity.
Defined.

(** C9, as the code has it: applying [strip_linkedin_noise] to its own
    output returns a prefix of that output, and returns the output
    unchanged whenever no noise marker matches in it. *)
Theorem C9_restrip_prefix_or_same (text : pystr) :
  (exists t,
     strip_linkedin_noise text
     = strip_linkedin_noise (strip_linkedin_noise text) ++ t) /\
  (no_marker (strip_linkedin_noise text) ->
   strip_linkedin_noise (strip_linkedin_noise text)
   = strip_linkedin_noise text).
Proof. split; [apply re_strip_prefix|apply re_strip_no_marker]. Qed.

(** C9 at ["  Hello "]: the output ["Hello"] holds no marker. *)
Lemma C9_witness :
  no_marker (strip_linkedin_noise (py "  Hello ")) /\
  strip_linkedin_noise (strip_linkedin_noise (py "  Hello "))
  = strip_linkedin_noise (py "  Hello ").
Proof.
  assert (Hno : no_marker (strip_linkedin_noise (py "  Hello "))).
  { apply no_marker_b_sound. vm_compute. reflexivity. }
  split; [exact Hno|].
  exact (proj2 (C9_restrip_prefix_or_same (py "  Hello ")) Hno).
Defined.

(** C9 as stated fails: ["More profiles for you "] (trailing blank) holds
    no marker, so it is only trimmed; the trimmed text is a marker line,
    and the second application returns the empty string. *)
Lemma C9_counterexample :
  strip_linkedin_noise (py "More profiles for you ")
  = py "More profiles for you" /\
  strip_linkedin_noise (strip_linkedin_noise (py "More profiles for you "))
  = [] /\
  strip_linkedin_noise (strip_linkedin_noise (py "More profiles for you "))
  <> strip_linkedin_noise (py "More profiles for you ").
Proof.
  split; [vm_compute; reflexivity|].
  split; [vm_compute; reflexivity|].
  vm_compute. discriminate.
Qed.

(** ** One extraction attempt *)

Lemma rate_limited_msg_nonempty : _RATE_LIMITED_MSG <> [].
Proof. vm_compute. discriminate. Qed.

Lemma strip_noise_nil : strip_linkedin_noise [] = [].
Proof. reflexivity. Qed.

Lemma classify_raw_cases (raw : pystr) :
  (classify_raw raw = _RATE_LIMITED_MSG /\
   strip raw <> [] /\ strip_linkedin_noise raw = []) \/
  (classify_raw raw = strip_linkedin_noise raw /\
   ~ (strip raw <> [] /\ strip_linkedin_noise raw = [])).
Proof.
  unfold classify_raw. destruct raw as [|c raw].
  - right. split; [reflexivity|]. intros [Hs _]. now apply Hs.
  - cbv beta iota delta [truthy negb] .
    destruct (strip_linkedin_noise (c :: raw)) as [|d cleaned];
      destruct (strip (c :: raw)) as [|d' stripped]; cbv beta iota delta [andb].
    + right. split; [reflexivity|]. intros [Hs _]. now apply Hs.
    + left. repeat split. discriminate.
    + right. split; [reflexivity|]. intros [_ Hd]. discriminate.
    + right. split; [reflexivity|]. intros [_ Hd]. discriminate.
Qed.

(** The three-way outcome of an attempt, from the raw innerText. *)
Lemma classify_raw_spec (raw : pystr) :
  (raw = [] -> classify_raw raw = []) /\
  (strip raw <> [] -> strip_linkedin_noise raw = [] ->
   classify_raw raw = _RATE_LIMITED_MSG) /\
  (~ (strip raw <> [] /\ strip_linkedin_noise raw = []) ->
   classify_raw raw = strip_linkedin_noise raw) /\
  (classify_raw raw = _RATE_LIMITED_MSG <->
   (strip raw <> [] /\ strip_linkedin_noise raw = []) \/
   strip_linkedin_noise raw = _RATE_LIMITED_MSG).
Proof.
  pose proof rate_limited_msg_nonempty as Hmsg.
  split; [now intros ->|].
  destruct (classify_raw_cases raw) as [(Hc & Hs & Hn)|(Hc & Hnot)].
  - split; [intros _ _; exact Hc|].
    split; [intros Hx; exfalso; apply Hx; now split|].
    split; [intros _; left; now split|intros _; exact Hc].
  - split; [intros Hs Hn; exfalso; apply Hnot; now split|].
    split; [intros _; exact Hc|].
    rewrite Hc. split; [intros E; now right|].
    intros [Hb|E]; [now contradiction Hnot|exact E].
Qed.

(** C3, as the code has it: an attempt that reads the raw innerText
    returns the empty string when the raw text is empty, the sentinel when
    the raw text is non-blank and strips to the empty string, and the
    stripped text otherwise; so the sentinel is returned exactly when the
    page is noise only or the stripped text is itself the sentinel
    string. *)
Theorem C3_single_attempt_result (B : Type) (P : Page B)
    (url : pystr) (b : B) (raw : pystr) (b' : B) :
  reads_raw url b raw b' ->
  exists v t,
    _extract_page_once url b = (Ok v, b', t) /\
    (raw = [] -> v = []) /\
    (strip raw <> [] -> strip_linkedin_noise raw = [] ->
     v = _RATE_LIMITED_MSG) /\
    (~ (strip raw <> [] /\ strip_linkedin_noise raw = []) ->
     v = strip_linkedin_noise raw) /\
    (v = _RATE_LIMITED_MSG <->
     (strip raw <> [] /\ strip_linkedin_noise raw = []) \/
     strip_linkedin_noise raw = _RATE_LIMITED_MSG).
Proof.
  intros Hr. destruct (once_reads url b raw b' Hr) as [t Ht].
  exists (classify_raw raw), t. split; [exact Ht|]. apply classify_raw_spec.
Qed.

Lemma page_with_reads (url raw : pystr) (rest : Scripted) :
  reads_raw url (page_with raw ++ rest) raw rest.
Proof.
  exists ([RpDone; RpDone; RpDone; RpDone; RpStr raw] ++ rest),
         ([RpDone; RpDone; RpDone; RpStr raw] ++ rest),
         ([RpDone; RpDone; RpStr raw] ++ rest),
         ([RpDone; RpStr raw] ++ rest),
         ([RpStr raw] ++ rest), (Ok tt).
  repeat split; try reflexivity. now left.
Qed.

(** C3 on a chrome-only page: the attempt returns the sentinel. *)
Lemma C3_witness :
  reads_raw (py "https://www.linkedin.com/in/bob/")
            (page_with chrome_only ++ []) chrome_only [] /\
  exists t,
    _extract_page_once (py "https://www.linkedin.com/in/bob/")
                       (page_with chrome_only ++ [])
    = (Ok _RATE_LIMITED_MSG, [], t).
Proof.
  split; [apply page_with_reads|].
  destruct (C3_single_attempt_result Scripted scripted_page
              (py "https://www.linkedin.com/in/bob/")
              (page_with chrome_only ++ []) chrome_only []
              (page_with_reads _ _ _))
    as (v & t & Hrun & _ & Hblocked & _).
  exists t.
  assert (Hv : v = _RATE_LIMITED_MSG).
  { apply Hblocked; [vm_compute; discriminate|vm_compute; reflexivity]. }
  rewrite Hv in Hrun. exact Hrun.
Defined.

(** C3 as stated fails in one direction: a page whose text is the
    sentinel string itself is not blank and does not strip to the empty
    string, yet the attempt returns the sentinel. *)
Lemma C3_counterexample :
  _extract_page_once (py "https://www.linkedin.com/in/bob/")
                     (page_with _RATE_LIMITED_MSG)
  = (Ok _RATE_LIMITED_MSG, [],
     [EvGoto (py "https://www.linkedin.com/in/bob/"); EvDetectRateLimit;
      EvWaitForSelector (py "main"); EvHandleModalClose; EvScrollToBottom;
      EvEvaluate JsMainInnerText]) /\
  strip _RATE_LIMITED_MSG <> [] /\
  strip_linkedin_noise _RATE_LIMITED_MSG <> [].
Proof.
  split; [vm_compute; reflexivity|].
  split; vm_compute; discriminate.
Qed.

(** ** [extract_page] *)

(** C2: [extract_page] makes at most two attempts.  A first attempt that
    returns something else than the sentinel is returned as it is, with
    no retry and no backoff; after a first attempt that returns the
    sentinel it sleeps [_RATE_LIMIT_RETRY_DELAY] once, makes one more
    attempt and returns that attempt's result. *)
Theorem C2_extract_page_retries_once (B : Type) (P : Page B)
    (url : pystr) (b : B) :
  attempts (trace (extract_page url b)) <= 2 /\
  (forall v b1 t1,
     _extract_page_once url b = (Ok v, b1, t1) -> v <> _RATE_LIMITED_MSG ->
     extract_page url b = (Ok v, b1, t1) /\
     attempts t1 = 1 /\ backoffs t1 = []) /\
  (forall b1 t1 v2 b2 t2,
     _extract_page_once url b = (Ok _RATE_LIMITED_MSG, b1, t1) ->
     _extract_page_once url b1 = (Ok v2, b2, t2) ->
     extract_page url b
     = (Ok v2, b2, t1 ++ EvSleep _RATE_LIMIT_RETRY_DELAY :: t2) /\
     attempts (t1 ++ EvSleep _RATE_LIMIT_RETRY_DELAY :: t2) = 2 /\
     backoffs (t1 ++ EvSleep _RATE_LIMIT_RETRY_DELAY :: t2)
     = [_RATE_LIMIT_RETRY_DELAY]).
Proof.
  split; [|split].
  - destruct (extract_page_attempts url b) as [[-> _]|[-> _]]; lia.
  - intros v b1 t1 E Hv. split; [now apply extract_page_clean|].
    pose proof (once_attempts url b) as Ha. rewrite E in Ha. exact Ha.
  - intros b1 t1 v2 b2 t2 E1 E2.
    pose proof (extract_page_retry url b b1 t1 (Ok v2) b2 t2 E1 E2) as Hrun.
    split; [exact Hrun|].
    destruct (extract_page_attempts url b) as [[Ha Hb]|[Ha Hb]];
      rewrite Hrun in Ha, Hb; simpl in Ha, Hb.
    + exfalso. pose proof (once_attempts url b) as [Ha1 _].
      rewrite E1 in Ha1. simpl in Ha1.
      rewrite attempts_app, Ha1 in Ha.
      pose proof (once_attempts url b1) as [Ha2 _].
      rewrite E2 in Ha2. simpl in Ha2.
      change (EvSleep _RATE_LIMIT_RETRY_DELAY :: t2)
        with ([EvSleep _RATE_LIMIT_RETRY_DELAY] ++ t2) in Ha.
      rewrite attempts_app, Ha2 in Ha. simpl in Ha. lia.
    + now split.
Qed.

(** C2 on a browser that shows a chrome-only page first and the profile
    on the second load. *)
Lemma C2_witness :
  extract_page (py "https://www.linkedin.com/in/bob/")
               (page_with chrome_only ++ page_with (py "Bob" ++ [NL]))
  = (Ok (py "Bob"), [],
     [EvGoto (py "https://www.linkedin.com/in/bob/"); EvDetectRateLimit;
      EvWaitForSelector (py "main"); EvHandleModalClose; EvScrollToBottom;
      EvEvaluate JsMainInnerText]
     ++ EvSleep _RATE_LIMIT_RETRY_DELAY
     :: [EvGoto (py "https://www.linkedin.com/in/bob/"); EvDetectRateLimit;
         EvWaitForSelector (py "main"); EvHandleModalClose; EvScrollToBottom;
         EvEvaluate JsMainInnerText]).
Proof.
  apply (proj2 (proj2 (C2_extract_page_retries_once Scripted scripted_page
                         (py "https://www.linkedin.com/in/bob/")
                         (page_with chrome_only
                          ++ page_with (py "Bob" ++ [NL]))))
           (page_with (py "Bob" ++ [NL]))).
  - vm_compute. reflexivity.
  - vm_compute. reflexivity.
Defined.

(** C4: when an attempt inside [extract_page] raises (the first one, or
    the second one after a sentinel), a classified scraper exception
    propagates unchanged and any other exception becomes the empty
    string. *)
Theorem C4_extract_page_error_boundary (B : Type) (P : Page B)
    (url : pystr) (b : B) :
  (forall e b1 t1,
     _extract_page_once url b = (Raise e, b1, t1) ->
     (is_scraper_exception e = true ->
      extract_page url b = (Raise e, b1, t1)) /\
     (is_scraper_exception e = false ->
      extract_page url b = (Ok [], b1, t1))) /\
  (forall b1 t1 e b2 t2,
     _extract_page_once url b = (Ok _RATE_LIMITED_MSG, b1, t1) ->
     _extract_page_once url b1 = (Raise e, b2, t2) ->
     (is_scraper_exception e = true ->
      extract_page url b
      = (Raise e, b2, t1 ++ EvSleep _RATE_LIMIT_RETRY_DELAY :: t2)) /\
     (is_scraper_exception e = false ->
      extract_page url b
      = (Ok [], b2, t1 ++ EvSleep _RATE_LIMIT_RETRY_DELAY :: t2))).
Proof.
  split.
  - intros e b1 t1 E. rewrite (extract_page_raises _ _ _ _ _ E).
    unfold isolated. split; intros ->; reflexivity.
  - intros b1 t1 e b2 t2 E1 E2.
    rewrite (extract_page_retry _ _ _ _ _ _ _ E1 E2).
    unfold isolated. split; intros ->; reflexivity.
Qed.

(** C4 on a browser whose rate-limit check raises the classified
    exception, and on one whose navigation fails with another error. *)
Lemma C4_witness :
  extract_page (py "https://www.linkedin.com/in/bob/")
    [RpDone; RpRaise (LinkedInScraperException (py "RateLimitError")
                                               (py "Rate limit detected"))]
  = (Raise (LinkedInScraperException (py "RateLimitError")
                                     (py "Rate limit detected")),
     [],
     [EvGoto (py "https://www.linkedin.com/in/bob/"); EvDetectRateLimit]) /\
  extract_page (py "https://www.linkedin.com/in/bob/")
    [RpRaise (OtherException (py "Error") (py "net::ERR_ABORTED"))]
  = (Ok [], [], [EvGoto (py "https://www.linkedin.com/in/bob/")]).
Proof.
  split.
  - apply (proj1 (C4_extract_page_error_boundary Scripted scripted_page
                    (py "https://www.linkedin.com/in/bob/") _)).
    + vm_compute. reflexivity.
    + reflexivity.
  - apply (proj1 (C4_extract_page_error_boundary Scripted scripted_page
                    (py "https://www.linkedin.com/in/bob/") _)
             (OtherException (py "Error") (py "net::ERR_ABORTED"))).
    + vm_compute. reflexivity.
    + reflexivity.
Defined.

(** ** The scrapers *)

Lemma person_names_nodup (F : FieldsModule) :
  List.NoDup (List.map entry_name (person_page_map F)).
Proof.
  apply NoDup_ListNoDup. apply (bool_decide_unpack _). vm_compute. reflexivity.
Qed.

Lemma company_names_nodup (F : FieldsModule) :
  List.NoDup (List.map entry_name (List.map no_overlay (company_page_map F))).
Proof.
  apply NoDup_ListNoDup. apply (bool_decide_unpack _). vm_compute. reflexivity.
Qed.

Section ScrapeRuns.
Context {B : Type} `{Page B}.
Variable F : FieldsModule.

(** A [scrape_person] that returns: its loop returned, and the result is
    built from what the loop left. *)
Lemma scrape_person_returns (username : pystr) (fields : N) (b : B) res b' t :
  scrape_person F username fields b = (Ok res, b', t) ->
  exists sections' pages_visited',
    person_pages (N.lor fields (BASIC_INFO F))
      (py "https://www.linkedin.com/in/" ++ username) (person_page_map F)
      ∅ [] b = (Ok (sections', pages_visited'), b', t) /\
    sections res = sections' /\ pages_visited res = pages_visited' /\
    sections_requested res
    = requested_sections (py "main_profile") (PersonScrapingFields F)
        (PERSON_SECTION_MAP F) (N.lor fields (BASIC_INFO F)).
Proof.
  unfold scrape_person, bind. intros E.
  destruct (person_pages _ _ _ _ _ _) as [[[[s' pv']|e] b1] t1];
    [|discriminate].
  unfold ret in E. inversion E; subst. exists s', pv'.
  rewrite app_nil_r. repeat split.
Qed.

Lemma scrape_company_returns (company_name : pystr) (fields : N) (b : B)
    res b' t :
  scrape_company F company_name fields b = (Ok res, b', t) ->
  exists sections' pages_visited',
    person_pages (N.lor fields (ABOUT F))
      (py "https://www.linkedin.com/company/" ++ company_name)
      (List.map no_overlay (company_page_map F))
      ∅ [] b = (Ok (sections', pages_visited'), b', t) /\
    sections res = sections' /\ pages_visited res = pages_visited' /\
    sections_requested res
    = requested_sections (py "about") (CompanyScrapingFields F)
        (COMPANY_SECTION_MAP F) (N.lor fields (ABOUT F)).
Proof.
  unfold scrape_company, bind. intros E.
  rewrite company_pages_person in E.
  destruct (person_pages _ _ _ _ _ _) as [[[[s' pv']|e] b1] t1];
    [|discriminate].
  unfold ret in E. inversion E; subst. exists s', pv'.
  rewrite app_nil_r. repeat split.
Qed.

Lemma scrape_person_starts (username : pystr) (fields : N) (b : B) :
  BASIC_INFO F <> 0%N ->
  exists t,
    trace (scrape_person F username fields b)
    = EvGoto ((py "https://www.linkedin.com/in/" ++ username) ++ py "/") :: t.
Proof.
  intros Hb. unfold scrape_person, bind.
  destruct (person_pages_starts (N.lor fields (BASIC_INFO F))
              (py "https://www.linkedin.com/in/" ++ username)
              (BASIC_INFO F) (py "main_profile") (py "/") false
              (List.tl (person_page_map F)) ∅ [] b
              (forced_flag_truthy _ _ Hb)) as [t0 Ht0].
  change ((BASIC_INFO F, py "main_profile", py "/", false)
          :: List.tl (person_page_map F)) with (person_page_map F) in Ht0.
  destruct (person_pages _ _ _ _ _ _) as [[[st|e] b1] t1];
    simpl in Ht0; subst t1; simpl; eauto.
Qed.

Lemma scrape_company_starts (company_name : pystr) (fields : N) (b : B) :
  ABOUT F <> 0%N ->
  exists t,
    trace (scrape_company F company_name fields b)
    = EvGoto ((py "https://www.linkedin.com/company/" ++ company_name)
              ++ py "/about/") :: t.
Proof.
  intros Hb. unfold scrape_company, bind. rewrite company_pages_person.
  destruct (person_pages_starts (N.lor fields (ABOUT F))
              (py "https://www.linkedin.com/company/" ++ company_name)
              (ABOUT F) (py "about") (py "/about/") false
              (List.tl (List.map no_overlay (company_page_map F))) ∅ [] b
              (forced_flag_truthy _ _ Hb)) as [t0 Ht0].
  change ((ABOUT F, py "about", py "/about/", false)
          :: List.tl (List.map no_overlay (company_page_map F)))
    with (List.map no_overlay (company_page_map F)) in Ht0.
  destruct (person_pages _ _ _ _ _ _) as [[[st|e] b1] t1];
    simpl in Ht0; subst t1; simpl; eauto.
Qed.

End ScrapeRuns.

(** C6: in the result of [scrape_person] and of [scrape_company], a
    section name is a key of [sections] exactly when the extraction of
    that section's page, during this run, returned a non-empty text, and
    the value is that text; a section whose extraction returned the empty
    string is absent. *)
Theorem C6_sections_hold_nonempty_text (B : Type) (P : Page B)
    (F : FieldsModule) :
  (forall username fields (b : B) res b' t,
     scrape_person F username fields b = (Ok res, b', t) ->
     forall name,
       (forall text,
          sections res !! name = Some text <->
          In (name, text)
             (extractions (N.lor fields (BASIC_INFO F))
                (py "https://www.linkedin.com/in/" ++ username)
                (person_page_map F) b) /\ text <> []) /\
       (In (name, [])
           (extractions (N.lor fields (BASIC_INFO F))
              (py "https://www.linkedin.com/in/" ++ username)
              (person_page_map F) b) ->
        sections res !! name = None)) /\
  (forall company_name fields (b : B) res b' t,
     scrape_company F company_name fields b = (Ok res, b', t) ->
     forall name,
       (forall text,
          sections res !! name = Some text <->
          In (name, text)
             (extractions (N.lor fields (ABOUT F))
                (py "https://www.linkedin.com/company/" ++ company_name)
                (List.map no_overlay (company_page_map F)) b) /\
          text <> []) /\
       (In (name, [])
           (extractions (N.lor fields (ABOUT F))
              (py "https://www.linkedin.com/company/" ++ company_name)
              (List.map no_overlay (company_page_map F)) b) ->
        sections res !! name = None)).
Proof.
  split.
  - intros username fields b res b' t E name.
    destruct (scrape_person_returns F _ _ _ _ _ _ E)
      as (s' & pv' & Hloop & -> & _ & _).
    apply person_pages_run in Hloop as [-> _].
    split.
    + intros text. apply sections_of_run, person_names_nodup.
    + apply empty_section_absent, person_names_nodup.
  - intros company_name fields b res b' t E name.
    destruct (scrape_company_returns F _ _ _ _ _ _ E)
      as (s' & pv' & Hloop & -> & _ & _).
    apply person_pages_run in Hloop as [-> _].
    split.
    + intros text. apply sections_of_run, company_names_nodup.
    + apply empty_section_absent, company_names_nodup.
Qed.

(** C6 on a profile whose main page reads ["Bob"] and whose experience
    page is empty: [main_profile] is kept, [experience] is absent. *)
Lemma C6_witness :
  exists res b' t,
    scrape_person sample_fields (py "bob") 2%N
      (page_with (py "Bob") ++ page_with []) = (Ok res, b', t) /\
    sections res !! py "main_profile" = Some (py "Bob") /\
    sections res !! py "experience" = None.
Proof.
  destruct (scrape_person sample_fields (py "bob") 2%N
              (page_with (py "Bob") ++ page_with []))
    as [[[res|e] b'] t] eqn:E; [|vm_compute in E; discriminate].
  exists res, b', t. split; [reflexivity|].
  pose proof (proj1 (C6_sections_hold_nonempty_text Scripted scripted_page
                       sample_fields) _ _ _ _ _ _ E) as Hsec.
  split.
  - apply (proj1 (Hsec (py "main_profile"))).
    split; [vm_compute; left; reflexivity|discriminate].
  - apply (proj2 (Hsec (py "experience"))).
    vm_compute. right. left. reflexivity.
Defined.

(** C7: [scrape_person] forces [BASIC_INFO] on, navigates to the main
    profile page first, lists that page first in [pages_visited] and
    ["main_profile"] first in [sections_requested]; [scrape_company] does
    the same with [ABOUT], the about page and ["about"].  The flag
    members are non-empty flags. *)
Theorem C7_base_section_always_included (B : Type) (P : Page B)
    (F : FieldsModule) :
  (BASIC_INFO F <> 0%N ->
   forall username fields (b : B),
     flag_in (BASIC_INFO F) (N.lor fields (BASIC_INFO F)) = true /\
     flag_truthy (N.land (BASIC_INFO F) (N.lor fields (BASIC_INFO F)))
     = true /\
     (exists t,
        trace (scrape_person F username fields b)
        = EvGoto ((py "https://www.linkedin.com/in/" ++ username) ++ py "/")
          :: t) /\
     (forall res b' t,
        scrape_person F username fields b = (Ok res, b', t) ->
        (exists rest,
           pages_visited res
           = ((py "https://www.linkedin.com/in/" ++ username) ++ py "/")
             :: rest) /\
        (exists rest,
           sections_requested res = py "main_profile" :: rest))) /\
  (ABOUT F <> 0%N ->
   forall company_name fields (b : B),
     flag_in (ABOUT F) (N.lor fields (ABOUT F)) = true /\
     flag_truthy (N.land (ABOUT F) (N.lor fields (ABOUT F))) = true /\
     (exists t,
        trace (scrape_company F company_name fields b)
        = EvGoto ((py "https://www.linkedin.com/company/" ++ company_name)
                  ++ py "/about/") :: t) /\
     (forall res b' t,
        scrape_company F company_name fields b = (Ok res, b', t) ->
        (exists rest,
           pages_visited res
           = ((py "https://www.linkedin.com/company/" ++ company_name)
              ++ py "/about/") :: rest) /\
        (exists rest, sections_requested res = py "about" :: rest))).
Proof.
  split.
  - intros Hb username fields b.
    pose proof (forced_flag_truthy fields _ Hb) as Hforced.
    split; [unfold flag_in; rewrite land_lor_forced; apply N.eqb_refl|].
    split; [exact Hforced|].
    split; [now apply scrape_person_starts|].
    intros res b' t E.
    destruct (scrape_person_returns F _ _ _ _ _ _ E)
      as (s' & pv' & Hloop & _ & -> & ->).
    apply person_pages_run in Hloop as [_ ->].
    split; [|apply requested_sections_head].
    unfold person_page_map. simpl requested_urls. rewrite Hforced.
    simpl. eauto.
  - intros Hb company_name fields b.
    pose proof (forced_flag_truthy fields _ Hb) as Hforced.
    split; [unfold flag_in; rewrite land_lor_forced; apply N.eqb_refl|].
    split; [exact Hforced|].
    split; [now apply scrape_company_starts|].
    intros res b' t E.
    destruct (scrape_company_returns F _ _ _ _ _ _ E)
      as (s' & pv' & Hloop & _ & -> & ->).
    apply person_pages_run in Hloop as [_ ->].
    split; [|apply requested_sections_head].
    unfold company_page_map. simpl requested_urls. rewrite Hforced.
    simpl. eauto.
Qed.

(** C7 with no flag passed in: the main profile page is still visited,
    and it is the only one. *)
Lemma C7_witness :
  BASIC_INFO sample_fields <> 0%N /\
  exists res b' t,
    scrape_person sample_fields (py "bob") 0%N (page_with (py "Bob"))
    = (Ok res, b', t) /\
    pages_visited res = [py "https://www.linkedin.com/in/bob/"] /\
    sections_requested res = [py "main_profile"] /\
    exists rest,
      pages_visited res
      = ((py "https://www.linkedin.com/in/" ++ py "bob") ++ py "/") :: rest.
Proof.
  split; [discriminate|].
  destruct (scrape_person sample_fields (py "bob") 0%N (page_with (py "Bob")))
    as [[[res|e] b'] t] eqn:E; [|vm_compute in E; discriminate].
  exists res, b', t. split; [reflexivity|].
  assert (Hb : BASIC_INFO sample_fields <> 0%N) by discriminate.
  pose proof (proj1 (C7_base_section_always_included Scripted scripted_page
                       sample_fields) Hb (py "bob") 0%N
                (page_with (py "Bob"))) as (_ & _ & _ & Hres).
  destruct (Hres _ _ _ E) as [Hpages Hreq].
  vm_compute in E. inversion E; subst.
  split; [reflexivity|]. split; [reflexivity|]. exact Hpages.
Defined.

(** ** The action methods *)




(** C10: whatever [connect_with_person] types into the page is the first
    200 characters of the note: it has at most 200 characters, and
    exactly 200 when the note is longer. *)
Theorem C10_note_cut_to_200 (B : Type) (P : Page B)
    (linkedin_username : pystr) (note : option pystr) (b : B)
    (selector text : pystr) :
  In (EvFill selector text)
     (trace (connect_with_person linkedin_username note b)) ->
  exists n,
    note = Some n /\ text = firstn 200 n /\ length text <= 200 /\
    (200 < length n -> length text = 200).
Proof.
  intros Hin.
  pose proof (connect_fills linkedin_username note b) as Hall.
  rewrite Forall_forall in Hall. apply list_elem_of_In in Hin.
  specialize (Hall _ Hin). simpl in Hall. destruct Hall as (n & -> & ->).
  exists n. split; [reflexivity|]. split; [reflexivity|].
  rewrite length_firstn. split; lia.
Qed.

(** C10 on an invite dialog, with a note of 201 characters: 200 are
    typed. *)
Lemma C10_witness :
  In (EvFill textarea_selector (repeat 97%N 200))
     (trace (connect_with_person (py "bob") (Some (repeat 97%N 201))
               invite_dialog_script)) /\
  exists n,
    Some (repeat 97%N 201) = Some n /\
    repeat 97%N 200 = firstn 200 n /\
    length (repeat 97%N 200) <= 200 /\
    (200 < length n -> length (repeat 97%N 200) = 200).
Proof.
  assert (Hin : In (EvFill textarea_selector (repeat 97%N 200))
                   (trace (connect_with_person (py "bob")
                             (Some (repeat 97%N 201))
                             invite_dialog_script))).
  { vm_compute. do 7 right. left. reflexivity. }
  split; [exact Hin|].
  exact (C10_note_cut_to_200 Scripted scripted_page (py "bob")
           (Some (repeat 97%N 201)) invite_dialog_script
           textarea_selector (repeat 97%N 200) Hin).
Defined.

(** * Further properties of the extraction engine *)

(** ** What [strip_linkedin_noise] keeps *)

Lemma lstrip_blank_prefix (s : pystr) :
  exists ws, s = ws ++ lstrip s /\ Forall (fun c => py_isspace c = true) ws.
Proof.
  induction s as [|c s (ws & Hs & Hws)]; simpl.
  - exists []. now split.
  - destruct (py_isspace c) eqn:E.
    + exists (c :: ws). split; [simpl; now f_equal|now constructor].
    + exists []. now split.
Qed.

Lemma rstrip_blank_suffix (s : pystr) :
  exists ws, s = rstrip s ++ ws /\ Forall (fun c => py_isspace c = true) ws.
Proof.
  unfold rstrip. destruct (lstrip_blank_prefix (rev s)) as (ws & Hs & Hws).
  exists (rev ws). split.
  - rewrite <- rev_app_distr, <- Hs. now rewrite rev_involutive.
  - apply Forall_forall. intros c Hc. rewrite Forall_forall in Hws.
    apply Hws. apply list_elem_of_In. apply list_elem_of_In in Hc.
    now apply in_rev.
Qed.

Lemma strip_blank_ends (s : pystr) :
  exists ws ws',
    s = ws ++ strip s ++ ws' /\
    Forall (fun c => py_isspace c = true) ws /\
    Forall (fun c => py_isspace c = true) ws'.
Proof.
  destruct (lstrip_blank_prefix s) as (ws & Hs & Hws).
  destruct (rstrip_blank_suffix (lstrip s)) as (ws' & Hs' & Hws').
  exists ws, ws'. unfold strip. split; [|now split].
  now rewrite <- Hs'.
Qed.

Lemma lstrip_blank (s : pystr) :
  lstrip s = [] <-> Forall (fun c => py_isspace c = true) s.
Proof.
  induction s as [|c s IH]; simpl.
  - split; [constructor|reflexivity].
  - destruct (py_isspace c) eqn:E.
    + rewrite IH. split; [now constructor|].
      intros Hall. now inversion Hall.
    + split; [discriminate|]. intros Hall. inversion Hall. congruence.
Qed.

Lemma strip_blank (s : pystr) :
  strip s = [] <-> Forall (fun c => py_isspace c = true) s.
Proof.
  rewrite <- lstrip_blank. unfold strip. split.
  - intros E. destruct (lstrip_shape s) as [El|(c & t & El & Hc)]; [exact El|].
    rewrite El in E. destruct (rstrip_keeps_head c t Hc) as [t' Ht'].
    exfalso. unfold char in *. congruence.
  - intros ->. reflexivity.
Qed.

Lemma rstrip_last (s pre : pystr) (c : char) :
  rstrip s = pre ++ [c] -> py_isspace c = false.
Proof.
  unfold rstrip. intros E.
  destruct (lstrip_shape (rev s)) as [El|(d & t & El & Hd)]; rewrite El in E.
  - destruct pre; discriminate.
  - simpl in E. apply app_inj_tail in E as [_ <-]. exact Hd.
Qed.

(** X1: the text [strip_linkedin_noise] returns has no whitespace at
    either end. *)
Theorem X1_strip_noise_output_trimmed (text : pystr) :
  (forall c rest,
     strip_linkedin_noise text = c :: rest -> py_isspace c = false) /\
  (forall pre c,
     strip_linkedin_noise text = pre ++ [c] -> py_isspace c = false).
Proof.
  split.
  - intros c rest E. unfold strip_linkedin_noise in E.
    destruct (strip_shape (firstn (earliest_marker text) text))
      as [En|(d & t & Ed & Hd)]; rewrite E in *; [discriminate|].
    now inversion Ed; subst.
  - intros pre c E. unfold strip_linkedin_noise, strip in E.
    exact (rstrip_last _ _ _ E).
Qed.

(** X1 at ["  Bio \n"]: the result ["Bio"] starts and ends with a
    letter. *)
Lemma X1_witness :
  strip_linkedin_noise (py "  Bio " ++ [NL]) = 66%N :: py "io" /\
  py_isspace 66%N = false.
Proof.
  assert (E : strip_linkedin_noise (py "  Bio " ++ [NL]) = 66%N :: py "io")
    by (vm_compute; reflexivity).
  split; [exact E|].
  exact (proj1 (X1_strip_noise_output_trimmed (py "  Bio " ++ [NL])) _ _ E).
Defined.

(** X2: the function only removes text: the input is blank characters,
    the output, blank characters, and the dropped tail, in this order; a
    non-empty dropped tail starts where a noise marker matches. *)
Theorem X2_strip_noise_only_removes (text : pystr) :
  exists ws ws' dropped,
    text = ws ++ strip_linkedin_noise text ++ ws' ++ dropped /\
    Forall (fun c => py_isspace c = true) ws /\
    Forall (fun c => py_isspace c = true) ws' /\
    (dropped = [] \/
     exists p, In p _NOISE_MARKERS /\
               matches_at p text (length text - length dropped)).
Proof.
  destruct (strip_blank_ends (firstn (earliest_marker text) text))
    as (ws & ws' & Hs & Hws & Hws').
  exists ws, ws', (skipn (earliest_marker text) text).
  unfold strip_linkedin_noise. split; [|split; [exact Hws|split; [exact Hws'|]]].
  - rewrite <- (firstn_skipn (earliest_marker text) text) at 1.
    rewrite Hs at 1. now rewrite <- !app_assoc.
  - destruct (earliest_marker_spec text) as (Hle & [Heq|(p & Hp & Hm)] & _).
    + left. rewrite Heq. apply skipn_all.
    + right. exists p. split; [exact Hp|].
      rewrite length_skipn.
      replace (length text - (length text - earliest_marker text))
        with (earliest_marker text) by lia.
      exact Hm.
Qed.

Lemma marker_at_line_start (p : regex) (text : pystr) (i : nat) :
  In p _NOISE_MARKERS -> matches_at p text i ->
  i = 0 \/ nth_error text (i - 1) = Some NL.
Proof.
  intros Hp [Hlen Hm].
  assert (Hbol : at_bol (prev_char text i) = true).
  { destruct Hp as [<-|[<-|[<-|[<-|[]]]]]; simpl in Hm;
      now apply andb_true_iff in Hm as [Hb _]. }
  destruct i as [|j]; [now left|right].
  simpl in Hbol |- *. rewrite Nat.sub_0_r.
  destruct (nth_error text j) as [c|] eqn:E.
  - simpl in Hbol. apply N.eqb_eq in Hbol. now subst.
  - apply nth_error_None in E. lia.
Qed.

(** X3: the cut is never inside a line: the position where
    [strip_linkedin_noise] truncates is the end of the text, its start,
    or right after a newline. *)
Theorem X3_cut_at_line_start (text : pystr) :
  earliest_marker text = length text \/
  earliest_marker text = 0 \/
  nth_error text (earliest_marker text - 1) = Some NL.
Proof.
  destruct (earliest_marker_spec text) as (_ & [Heq|(p & Hp & Hm)] & _).
  - now left.
  - right. exact (marker_at_line_start p text _ Hp Hm).
Qed.

(** ** [quote_plus] *)

Example quote_plus_ascii :
  quote_plus (py "a b&c=d+e~f/") = Ok (py "a+b%26c%3Dd%2Be~f%2F").
Proof. vm_compute. reflexivity. Qed.

Example quote_plus_accent :
  quote_plus (py "S" ++ [227%N] ++ py "o") = Ok (py "S%C3%A3o").
Proof. vm_compute. reflexivity. Qed.

Example quote_plus_surrogate :
  quote_plus [56448%N] = Raise (OtherException (py "UnicodeEncodeError") []).
Proof. vm_compute. reflexivity. Qed.

(** ** The retry wrapper *)

Section RetryFacts.
Context {B : Type} `{Page B}.

Lemma extract_page_retrying (url : pystr) :
  extract_page url = retrying (_extract_page_once url).
Proof. reflexivity. Qed.

Lemma extract_overlay_retrying (url : pystr) :
  _extract_overlay url = retrying (_extract_overlay_once url).
Proof. reflexivity. Qed.

(** The whole run of the wrapper, from the runs of the attempt. *)
Lemma retrying_run (once : IO B pystr) (b : B) :
  match once b with
  | (Ok v, b1, t1) =>
      if decide (v = _RATE_LIMITED_MSG) then
        retrying once b
        = (isolated (outcome (once b1)), final (once b1),
           t1 ++ EvSleep _RATE_LIMIT_RETRY_DELAY :: trace (once b1))
      else retrying once b = (Ok v, b1, t1)
  | (Raise e, b1, t1) => retrying once b = (isolated (Raise e), b1, t1)
  end.
Proof.
  unfold retrying.
  destruct (once b) as [[[v|e] b1] t1] eqn:E1.
  - destruct (decide (v = _RATE_LIMITED_MSG)) as [->|Hv].
    + assert (Hbody :
        (result <- once;;
         if decide (result <> _RATE_LIMITED_MSG) then ret result
         else (sleep _RATE_LIMIT_RETRY_DELAY;; once))%io b
        = (outcome (once b1), final (once b1),
           t1 ++ EvSleep _RATE_LIMIT_RETRY_DELAY :: trace (once b1))).
      { rewrite (bind_ok _ _ _ _ _ _ E1).
        destruct (decide (_RATE_LIMITED_MSG <> _RATE_LIMITED_MSG)) as [Hn|_];
          [now contradiction Hn|].
        now rewrite sleep_then. }
      destruct (outcome (once b1)) as [v2|e2] eqn:E2.
      * now apply try_ok.
      * rewrite (try_raise _ _ _ _ _ _ Hbody). unfold isolated.
        destruct (is_scraper_exception e2); unfold raise, ret; simpl;
          now rewrite app_nil_r.
    + apply try_ok. rewrite (bind_ok _ _ _ _ _ _ E1).
      destruct (decide (v <> _RATE_LIMITED_MSG)) as [_|Hn]; [|contradiction].
      unfold ret. simpl. now rewrite app_nil_r.
  - rewrite (try_raise _ _ _ _ _ _ (bind_raise _ _ _ _ _ _ E1)).
    unfold isolated. destruct (is_scraper_exception e); unfold raise, ret;
      simpl; now rewrite app_nil_r.
Qed.

Lemma isolated_raise (r : result pystr) (e : exn) :
  isolated r = Raise e -> r = Raise e /\ is_scraper_exception e = true.
Proof.
  destruct r as [v|e']; simpl; [discriminate|].
  destruct (is_scraper_exception e') eqn:E; [|discriminate].
  intros [= <-]. now split.
Qed.

Lemma isolated_sentinel (r : result pystr) :
  isolated r = Ok _RATE_LIMITED_MSG -> r = Ok _RATE_LIMITED_MSG.
Proof.
  destruct r as [v|e]; simpl; [trivial|].
  destruct (is_scraper_exception e); [discriminate|].
  intros E. exfalso. apply rate_limited_msg_nonempty. congruence.
Qed.

Lemma retrying_raises_classified (once : IO B pystr) (b : B) (e : exn) :
  outcome (retrying once b) = Raise e -> is_scraper_exception e = true.
Proof.
  pose proof (retrying_run once b) as Hrun.
  destruct (once b) as [[[v|e1] b1] t1].
  - destruct (decide (v = _RATE_LIMITED_MSG)); rewrite Hrun; simpl.
    + intros E. now apply isolated_raise in E.
    + discriminate.
  - rewrite Hrun. intros E. change (isolated (Raise e1) = Raise e) in E.
    now apply isolated_raise in E.
Qed.

(** One or two attempts, when each attempt navigates once and does not
    sleep; two exactly when the wrapper slept. *)
Lemma retrying_attempts (once : IO B pystr) :
  (forall b, attempts (trace (once b)) = 1 /\ backoffs (trace (once b)) = []) ->
  forall b,
    (attempts (trace (retrying once b)) = 1 /\
     backoffs (trace (retrying once b)) = [] /\
     outcome (retrying once b) <> Ok _RATE_LIMITED_MSG) \/
    (attempts (trace (retrying once b)) = 2 /\
     backoffs (trace (retrying once b)) = [_RATE_LIMIT_RETRY_DELAY]).
Proof.
  intros Hone b. pose proof (retrying_run once b) as Hrun.
  destruct (Hone b) as [Ha1 Hb1].
  destruct (once b) as [[[v|e1] b1] t1]; simpl in Ha1, Hb1.
  - destruct (decide (v = _RATE_LIMITED_MSG)) as [->|Hv]; rewrite Hrun.
    + right. destruct (Hone b1) as [Ha2 Hb2]. simpl.
      change (EvSleep _RATE_LIMIT_RETRY_DELAY :: trace (once b1))
        with ([EvSleep _RATE_LIMIT_RETRY_DELAY] ++ trace (once b1)).
      rewrite !attempts_app, !backoffs_app, Ha1, Hb1, Ha2, Hb2. now split.
    + left. simpl. repeat split; [exact Ha1|exact Hb1|].
      unfold outcome. simpl. intros [= E]. now apply Hv.
  - left. rewrite Hrun. simpl. repeat split; [exact Ha1|exact Hb1|].
    unfold outcome. simpl. destruct (is_scraper_exception e1); [discriminate|].
    intros E. apply rate_limited_msg_nonempty. congruence.
Qed.

Lemma overlay_once_attempts (url : pystr) (b : B) :
  attempts (trace (_extract_overlay_once url b)) = 1 /\
  backoffs (trace (_extract_overlay_once url b)) = [].
Proof.
  destruct (overlay_once_trace url b) as (t & -> & Hq).
  change (EvGoto url :: t) with ([EvGoto url] ++ t).
  rewrite attempts_app, backoffs_app, (quiet_attempts _ Hq),
    (quiet_backoffs _ Hq). now split.
Qed.

End RetryFacts.

(** X4: an attempt returns the empty string exactly when the page text
    is blank (empty, or whitespace only). *)
Theorem X4_attempt_empty_iff_blank (B : Type) (P : Page B)
    (url : pystr) (b : B) (raw : pystr) (b' : B) :
  reads_raw url b raw b' ->
  exists v t,
    _extract_page_once url b = (Ok v, b', t) /\
    (v = [] <-> Forall (fun c => py_isspace c = true) raw).
Proof.
  intros Hr. destruct (once_reads url b raw b' Hr) as [t Ht].
  exists (classify_raw raw), t. split; [exact Ht|].
  rewrite <- strip_blank.
  assert (Hblank : strip raw = [] -> strip_linkedin_noise raw = []).
  { intros Hs. unfold strip_linkedin_noise. apply strip_blank.
    apply strip_blank in Hs. now apply Forall_take. }
  destruct (classify_raw_cases raw) as [(Hc & Hs & Hn)|(Hc & Hnot)];
    rewrite Hc.
  - split; [intros E; exfalso; now apply rate_limited_msg_nonempty|].
    intros E. now contradiction Hs.
  - split; [|exact Hblank].
    intros E. destruct (strip raw) as [|c s] eqn:Es; [reflexivity|].
    exfalso. apply Hnot. split; [discriminate|exact E].
Qed.

(** X4 on a page of blanks and newlines. *)
Lemma X4_witness :
  reads_raw (py "https://www.linkedin.com/in/bob/")
            (page_with (py "  " ++ [NL]) ++ []) (py "  " ++ [NL]) [] /\
  exists t,
    _extract_page_once (py "https://www.linkedin.com/in/bob/")
                       (page_with (py "  " ++ [NL]) ++ [])
    = (Ok [], [], t).
Proof.
  split; [apply page_with_reads|].
  destruct (X4_attempt_empty_iff_blank Scripted scripted_page
              (py "https://www.linkedin.com/in/bob/")
              (page_with (py "  " ++ [NL]) ++ []) (py "  " ++ [NL]) []
              (page_with_reads _ _ _))
    as (v & t & Hrun & Hiff).
  exists t.
  assert (Hv : v = []).
  { apply Hiff. vm_compute. repeat constructor. }
  rewrite Hv in Hrun. exact Hrun.
Defined.

Lemma extraction_raises_classified (B : Type) (P : Page B)
    (url : pystr) (b : B) :
  (forall e, outcome (extract_page url b) = Raise e ->
             is_scraper_exception e = true) /\
  (forall e, outcome (_extract_overlay url b) = Raise e ->
             is_scraper_exception e = true).
Proof.
  split; intros e.
  - rewrite extract_page_retrying. apply retrying_raises_classified.
  - rewrite extract_overlay_retrying. apply retrying_raises_classified.
Qed.

(** X5: [extract_page] and [_extract_overlay] raise nothing but
    classified scraper exceptions. *)
Theorem X5_extraction_raises_only_classified (B : Type) (P : Page B)
    (url : pystr) (b : B) (e : exn) :
  (outcome (extract_page url b) = Raise e ->
   is_scraper_exception e = true) /\
  (outcome (_extract_overlay url b) = Raise e ->
   is_scraper_exception e = true).
Proof.
  split.
  - rewrite extract_page_retrying. apply retrying_raises_classified.
  - rewrite extract_overlay_retrying. apply retrying_raises_classified.
Qed.

(** X5 on a browser whose rate-limit check raises. *)
Lemma X5_witness :
  outcome (extract_page (py "https://www.linkedin.com/in/bob/")
             [RpDone;
              RpRaise (LinkedInScraperException (py "RateLimitError")
                                                (py "Rate limit detected"))])
  = Raise (LinkedInScraperException (py "RateLimitError")
                                    (py "Rate limit detected")) /\
  is_scraper_exception
    (LinkedInScraperException (py "RateLimitError")
                              (py "Rate limit detected")) = true.
Proof.
  assert (E : outcome (extract_page (py "https://www.linkedin.com/in/bob/")
                [RpDone;
                 RpRaise (LinkedInScraperException
                            (py "RateLimitError")
                            (py "Rate limit detected"))])
              = Raise (LinkedInScraperException (py "RateLimitError")
                                                (py "Rate limit detected")))
    by (vm_compute; reflexivity).
  split; [exact E|].
  exact (proj1 (X5_extraction_raises_only_classified Scripted scripted_page
                  _ _ _) E).
Defined.

(** X6: [extract_page] returns the sentinel only after the retry: two
    attempts were made, with one backoff between them. *)
Theorem X6_sentinel_only_after_retry (B : Type) (P : Page B)
    (url : pystr) (b : B) :
  outcome (extract_page url b) = Ok _RATE_LIMITED_MSG ->
  attempts (trace (extract_page url b)) = 2 /\
  backoffs (trace (extract_page url b)) = [_RATE_LIMIT_RETRY_DELAY].
Proof.
  rewrite extract_page_retrying. intros E.
  destruct (retrying_attempts (_extract_page_once url)
              (once_attempts url) b) as [(_ & _ & Hn)|Htwo].
  - now contradiction Hn.
  - exact Htwo.
Qed.

(** X6 on a browser that shows a chrome-only page twice. *)
Lemma X6_witness :
  outcome (extract_page (py "https://www.linkedin.com/in/bob/")
             (page_with chrome_only ++ page_with chrome_only))
  = Ok _RATE_LIMITED_MSG /\
  attempts (trace (extract_page (py "https://www.linkedin.com/in/bob/")
                     (page_with chrome_only ++ page_with chrome_only))) = 2.
Proof.
  assert (E : outcome (extract_page (py "https://www.linkedin.com/in/bob/")
                         (page_with chrome_only ++ page_with chrome_only))
              = Ok _RATE_LIMITED_MSG) by (vm_compute; reflexivity).
  split; [exact E|].
  exact (proj1 (X6_sentinel_only_after_retry Scripted scripted_page _ _ E)).
Defined.

(** X7: [_extract_overlay] follows the retry policy of [extract_page]:
    at most two attempts; a first result other than the sentinel is
    returned at once; after a sentinel it sleeps
    [_RATE_LIMIT_RETRY_DELAY] and the second attempt decides; an
    unclassified exception of either attempt becomes the empty string. *)
Theorem X7_overlay_retry_policy (B : Type) (P : Page B)
    (url : pystr) (b : B) :
  attempts (trace (_extract_overlay url b)) <= 2 /\
  (forall v b1 t1,
     _extract_overlay_once url b = (Ok v, b1, t1) ->
     v <> _RATE_LIMITED_MSG ->
     _extract_overlay url b = (Ok v, b1, t1)) /\
  (forall b1 t1 r2 b2 t2,
     _extract_overlay_once url b = (Ok _RATE_LIMITED_MSG, b1, t1) ->
     _extract_overlay_once url b1 = (r2, b2, t2) ->
     _extract_overlay url b
     = (isolated r2, b2, t1 ++ EvSleep _RATE_LIMIT_RETRY_DELAY :: t2)) /\
  (forall e b1 t1,
     _extract_overlay_once url b = (Raise e, b1, t1) ->
     _extract_overlay url b = (isolated (Raise e), b1, t1)).
Proof.
  rewrite extract_overlay_retrying.
  pose proof (retrying_run (_extract_overlay_once url) b) as Hrun.
  split; [|split; [|split]].
  - destruct (retrying_attempts (_extract_overlay_once url)
                (overlay_once_attempts url) b) as [(-> & _)|(-> & _)]; lia.
  - intros v b1 t1 E Hv. rewrite E in Hrun.
    destruct (decide (v = _RATE_LIMITED_MSG)); [contradiction|exact Hrun].
  - intros b1 t1 r2 b2 t2 E1 E2. rewrite E1 in Hrun.
    destruct (decide (_RATE_LIMITED_MSG = _RATE_LIMITED_MSG)) as [_|Hn];
      [|now contradiction Hn].
    rewrite Hrun, E2. reflexivity.
  - intros e b1 t1 E. rewrite E in Hrun. exact Hrun.
Qed.

(** X7 on an overlay that is chrome only at first and shows the contact
    details on the second load. *)
Lemma X7_witness :
  _extract_overlay (py "https://www.linkedin.com/in/bob/overlay/contact-info/")
    ([RpDone; RpDone; RpDone; RpStr chrome_only]
     ++ [RpDone; RpDone; RpDone; RpStr (py "bob@example.com")])
  = (Ok (py "bob@example.com"), [],
     [EvGoto (py "https://www.linkedin.com/in/bob/overlay/contact-info/");
      EvDetectRateLimit;
      EvWaitForSelector (py "dialog[open], .artdeco-modal__content");
      EvEvaluate JsOverlayInnerText]
     ++ EvSleep _RATE_LIMIT_RETRY_DELAY
     :: [EvGoto (py "https://www.linkedin.com/in/bob/overlay/contact-info/");
         EvDetectRateLimit;
         EvWaitForSelector (py "dialog[open], .artdeco-modal__content");
         EvEvaluate JsOverlayInnerText]).
Proof.
  apply (proj1 (proj2 (proj2 (X7_overlay_retry_policy Scripted scripted_page
            (py "https://www.linkedin.com/in/bob/overlay/contact-info/")
            ([RpDone; RpDone; RpDone; RpStr chrome_only]
             ++ [RpDone; RpDone; RpDone; RpStr (py "bob@example.com")]))))
           [RpDone; RpDone; RpDone; RpStr (py "bob@example.com")] _
           (Ok (py "bob@example.com"))).
  - vm_compute. reflexivity.
  - vm_compute. reflexivity.
Defined.

(** No event of the overlay extraction closes a modal or scrolls. *)
Lemma overlay_keeps_dialog (B : Type) (P : Page B) (url : pystr) :
  emits (B := B)
    (fun ev => ev <> EvHandleModalClose /\ ev <> EvScrollToBottom)
    (_extract_overlay url).
Proof.
  unfold _extract_overlay, _extract_overlay_once, goto, detect_rate_limit,
    wait_for_selector, evaluate_str, isolate_errors, ignore_timeout.
  repeat (first [ apply emits_bind; [|intros ?]
                | apply emits_try; [|intros ?]
                | apply emits_ret
                | apply emits_raise
                | apply emits_sleep; split; discriminate
                | apply emits_call; split; discriminate
                | match goal with
                  | |- emits _ (if ?c then _ else _) => destruct c
                  end ]).
Qed.

(** X8: [_extract_overlay] never dismisses a modal and never scrolls:
    the overlay it reads is itself a dialog. *)
Theorem X8_overlay_never_closes_modal (B : Type) (P : Page B)
    (url : pystr) (b : B) :
  ~ In EvHandleModalClose (trace (_extract_overlay url b)) /\
  ~ In EvScrollToBottom (trace (_extract_overlay url b)).
Proof.
  pose proof (overlay_keeps_dialog B P url b) as Hall.
  rewrite Forall_forall in Hall.
  split; intros Hin; apply list_elem_of_In in Hin;
    destruct (Hall _ Hin) as [H1 H2]; congruence.
Qed.

(** ** More on the scrapers *)

Section ScraperBounds.
Context {B : Type} `{Page B}.

Lemma outcome_run {A} (r : result A) (b : B) (t : list Event) :
  outcome (r, b, t) = r.
Proof. reflexivity. Qed.

Lemma trace_run {A} (r : result A) (b : B) (t : list Event) :
  trace (r, b, t) = t.
Proof. reflexivity. Qed.

Lemma extract_section_attempts (ov : bool) (url : pystr) (b : B) :
  attempts (trace (extract_section ov url b)) <= 2.
Proof.
  unfold extract_section. destruct ov.
  - rewrite extract_overlay_retrying.
    destruct (retrying_attempts (_extract_overlay_once url)
                (overlay_once_attempts url) b) as [(-> & _)|(-> & _)]; lia.
  - rewrite extract_page_retrying.
    destruct (retrying_attempts (_extract_page_once url)
                (once_attempts url) b) as [(-> & _)|(-> & _)]; lia.
Qed.

Lemma extract_section_raises (ov : bool) (url : pystr) (b : B) e :
  outcome (extract_section ov url b) = Raise e ->
  is_scraper_exception e = true.
Proof.
  unfold extract_section. destruct ov.
  - rewrite extract_overlay_retrying. apply retrying_raises_classified.
  - rewrite extract_page_retrying. apply retrying_raises_classified.
Qed.

(** The page loop raises nothing but classified exceptions, and loads at
    most two pages per requested section. *)
Lemma person_pages_bounds (fields : N) (base_url : pystr)
    (page_map : list (N * pystr * pystr * bool)) :
  forall sections pages_visited (b : B),
    (forall e,
       outcome (person_pages fields base_url page_map sections
                  pages_visited b) = Raise e ->
       is_scraper_exception e = true) /\
    attempts (trace (person_pages fields base_url page_map sections
                       pages_visited b))
    <= 2 * length (requested_urls fields base_url page_map).
Proof.
  induction page_map as [|[[[flag name] suffix] ov] rest IH];
    intros sections pv b.
  - unfold person_pages, ret, outcome, trace, attempts. simpl.
    split; [discriminate|lia].
  - simpl person_pages. simpl requested_urls.
    destruct (negb (flag_truthy (N.land flag fields))); [apply IH|].
    pose proof (section_step ov (base_url ++ suffix) name sections pv b)
      as Hstep. simpl in Hstep.
    pose proof (extract_section_attempts ov (base_url ++ suffix) b) as Hatt.
    pose proof (extract_section_raises ov (base_url ++ suffix) b) as Hcls.
    destruct (extract_section ov (base_url ++ suffix) b)
      as [[[text|e1] b1] t1]; simpl in Hatt.
    + rewrite (bind_ok _ _ _ _ _ _ Hstep), sleep_then.
      rewrite !outcome_run, !trace_run. simpl fst. simpl snd.
      destruct (IH (keep_section sections (name, text))
                   (pv ++ [base_url ++ suffix]) b1) as [IHr IHa].
      split; [exact IHr|].
      rewrite attempts_app. simpl length.
      change (attempts (EvSleep _NAV_DELAY :: ?t)) with (attempts t).
      pose proof (Nat.add_le_mono _ _ _ _ Hatt IHa) as Hsum.
      etransitivity; [exact Hsum|]. simpl. lia.
    + specialize (Hcls e1 eq_refl).
      rewrite Hcls in Hstep. rewrite (bind_raise _ _ _ _ _ _ Hstep).
      rewrite outcome_run, trace_run. split; [|simpl; lia].
      intros e [= <-]. exact Hcls.
Qed.

Lemma requested_urls_length (fields : N) (base_url : pystr)
    (page_map : list (N * pystr * pystr * bool)) :
  length (requested_urls fields base_url page_map) <= length page_map.
Proof.
  induction page_map as [|[[[flag name] suffix] ov] rest IH]; simpl; [lia|].
  destruct (negb (flag_truthy (N.land flag fields))); simpl; lia.
Qed.

End ScraperBounds.

Section ScraperRunsMore.
Context {B : Type} `{Page B}.
Variable F : FieldsModule.

Lemma bind_ret_run {A C} (m : IO B A) (f : A -> C) (b : B) :
  bind m (fun a => ret (f a)) b
  = (match outcome (m b) with Ok a => Ok (f a) | Raise e => Raise e end,
     final (m b), trace (m b)).
Proof.
  unfold bind, ret. destruct (m b) as [[[a|e] b1] t1]; simpl;
    [now rewrite app_nil_r|reflexivity].
Qed.

Lemma scrape_person_run (username : pystr) (fields : N) (b : B) :
  (forall e, outcome (scrape_person F username fields b) = Raise e ->
             is_scraper_exception e = true) /\
  attempts (trace (scrape_person F username fields b))
  <= 2 * length (requested_urls (N.lor fields (BASIC_INFO F))
                   (py "https://www.linkedin.com/in/" ++ username)
                   (person_page_map F)).
Proof.
  unfold scrape_person. rewrite bind_ret_run, outcome_run, trace_run.
  destruct (person_pages_bounds (N.lor fields (BASIC_INFO F))
              (py "https://www.linkedin.com/in/" ++ username)
              (person_page_map F) ∅ [] b) as [Hr Ha].
  split; [|exact Ha].
  intros e E. apply Hr.
  destruct (outcome (person_pages _ _ _ _ _ _)); [discriminate|].
  now inversion E.
Qed.

Lemma scrape_company_run (company_name : pystr) (fields : N) (b : B) :
  (forall e, outcome (scrape_company F company_name fields b) = Raise e ->
             is_scraper_exception e = true) /\
  attempts (trace (scrape_company F company_name fields b))
  <= 2 * length (requested_urls (N.lor fields (ABOUT F))
                   (py "https://www.linkedin.com/company/" ++ company_name)
                   (List.map no_overlay (company_page_map F))).
Proof.
  unfold scrape_company.
  assert (Heq : forall k : gmap pystr pystr * list pystr -> IO B ScrapeResult,
    bind (company_pages (N.lor fields (ABOUT F))
            (py "https://www.linkedin.com/company/" ++ company_name)
            (company_page_map F) ∅ []) k b
    = bind (person_pages (N.lor fields (ABOUT F))
              (py "https://www.linkedin.com/company/" ++ company_name)
              (List.map no_overlay (company_page_map F)) ∅ []) k b).
  { intros k. unfold bind. now rewrite company_pages_person. }
  rewrite Heq, bind_ret_run, outcome_run, trace_run.
  destruct (person_pages_bounds (N.lor fields (ABOUT F))
              (py "https://www.linkedin.com/company/" ++ company_name)
              (List.map no_overlay (company_page_map F)) ∅ [] b) as [Hr Ha].
  split; [|exact Ha].
  intros e E. apply Hr.
  destruct (outcome (person_pages _ _ _ _ _ _)); [discriminate|].
  now inversion E.
Qed.

End ScraperRunsMore.

(** X9: [scrape_person] and [scrape_company] raise nothing but
    classified scraper exceptions. *)
Theorem X9_scrapers_raise_only_classified (B : Type) (P : Page B)
    (F : FieldsModule) (name : pystr) (fields : N) (b : B) (e : exn) :
  (outcome (scrape_person F name fields b) = Raise e ->
   is_scraper_exception e = true) /\
  (outcome (scrape_company F name fields b) = Raise e ->
   is_scraper_exception e = true).
Proof.
  split.
  - apply (proj1 (scrape_person_run F name fields b)).
  - apply (proj1 (scrape_company_run F name fields b)).
Qed.

(** X9 on a browser that reports a rate limit on the second page. *)
Lemma X9_witness :
  outcome (scrape_person sample_fields (py "bob") 2%N
             (page_with (py "Bob")
              ++ [RpDone;
                  RpRaise (LinkedInScraperException
                             (py "RateLimitError")
                             (py "Rate limit detected"))]))
  = Raise (LinkedInScraperException (py "RateLimitError")
                                    (py "Rate limit detected")) /\
  is_scraper_exception
    (LinkedInScraperException (py "RateLimitError")
                              (py "Rate limit detected")) = true.
Proof.
  assert (E : outcome (scrape_person sample_fields (py "bob") 2%N
                (page_with (py "Bob")
                 ++ [RpDone;
                     RpRaise (LinkedInScraperException
                                (py "RateLimitError")
                                (py "Rate limit detected"))]))
              = Raise (LinkedInScraperException (py "RateLimitError")
                                                (py "Rate limit detected")))
    by (vm_compute; reflexivity).
  split; [exact E|].
  exact (proj1 (X9_scrapers_raise_only_classified Scripted scripted_page
                  sample_fields _ _ _ _) E).
Defined.

(** X10: when a scraper returns, [pages_visited] lists the page of every
    requested section once, in page-map order, whether or not text was
    extracted from it. *)
Theorem X10_pages_visited_are_the_requested (B : Type) (P : Page B)
    (F : FieldsModule) :
  (forall username fields (b : B) res b' t,
     scrape_person F username fields b = (Ok res, b', t) ->
     pages_visited res
     = requested_urls (N.lor fields (BASIC_INFO F))
         (py "https://www.linkedin.com/in/" ++ username)
         (person_page_map F)) /\
  (forall company_name fields (b : B) res b' t,
     scrape_company F company_name fields b = (Ok res, b', t) ->
     pages_visited res
     = requested_urls (N.lor fields (ABOUT F))
         (py "https://www.linkedin.com/company/" ++ company_name)
         (List.map no_overlay (company_page_map F))).
Proof.
  split.
  - intros username fields b res b' t E.
    destruct (scrape_person_returns F _ _ _ _ _ _ E)
      as (s' & pv' & Hloop & _ & -> & _).
    now apply person_pages_run in Hloop as [_ ->].
  - intros company_name fields b res b' t E.
    destruct (scrape_company_returns F _ _ _ _ _ _ E)
      as (s' & pv' & Hloop & _ & -> & _).
    now apply person_pages_run in Hloop as [_ ->].
Qed.

(** X10 on a profile whose experience page is empty: the page is still
    listed. *)
Lemma X10_witness :
  exists res b' t,
    scrape_person sample_fields (py "bob") 2%N
      (page_with (py "Bob") ++ page_with []) = (Ok res, b', t) /\
    pages_visited res
    = [py "https://www.linkedin.com/in/bob/";
       py "https://www.linkedin.com/in/bob/details/experience/"].
Proof.
  destruct (scrape_person sample_fields (py "bob") 2%N
              (page_with (py "Bob") ++ page_with []))
    as [[[res|e] b'] t] eqn:E; [|vm_compute in E; discriminate].
  exists res, b', t. split; [reflexivity|].
  rewrite (proj1 (X10_pages_visited_are_the_requested Scripted scripted_page
                    sample_fields) _ _ _ _ _ _ E).
  vm_compute. reflexivity.
Defined.

(** X11: a scraper loads at most two pages per requested section: at
    most 14 page loads for a person, at most 6 for a company. *)
Theorem X11_scrapers_bound_page_loads (B : Type) (P : Page B)
    (F : FieldsModule) (name : pystr) (fields : N) (b : B) :
  attempts (trace (scrape_person F name fields b))
  <= 2 * length (requested_urls (N.lor fields (BASIC_INFO F))
                   (py "https://www.linkedin.com/in/" ++ name)
                   (person_page_map F)) /\
  attempts (trace (scrape_person F name fields b)) <= 14 /\
  attempts (trace (scrape_company F name fields b))
  <= 2 * length (requested_urls (N.lor fields (ABOUT F))
                   (py "https://www.linkedin.com/company/" ++ name)
                   (List.map no_overlay (company_page_map F))) /\
  attempts (trace (scrape_company F name fields b)) <= 6.
Proof.
  pose proof (proj2 (scrape_person_run F name fields b)) as Hp.
  pose proof (proj2 (scrape_company_run F name fields b)) as Hc.
  pose proof (requested_urls_length (N.lor fields (BASIC_INFO F))
                (py "https://www.linkedin.com/in/" ++ name)
                (person_page_map F)) as Lp.
  pose proof (requested_urls_length (N.lor fields (ABOUT F))
                (py "https://www.linkedin.com/company/" ++ name)
                (List.map no_overlay (company_page_map F))) as Lc.
  simpl length in Lp, Lc.
  repeat split; [exact Hp| |exact Hc|].
  - etransitivity; [exact Hp|]. apply (Nat.mul_le_mono_l _ 7 2). exact Lp.
  - etransitivity; [exact Hc|]. apply (Nat.mul_le_mono_l _ 3 2). exact Lc.
Qed.

(** X12: a scraper never returns a section that was not requested: every
    key of [sections] is the name of a page-map entry whose flag is in
    the fields. *)
Theorem X12_sections_were_requested (B : Type) (P : Page B)
    (F : FieldsModule) :
  (forall username fields (b : B) res b' t name text,
     scrape_person F username fields b = (Ok res, b', t) ->
     sections res !! name = Some text ->
     exists flag suffix is_overlay,
       In (flag, name, suffix, is_overlay) (person_page_map F) /\
       flag_truthy (N.land flag (N.lor fields (BASIC_INFO F))) = true) /\
  (forall company_name fields (b : B) res b' t name text,
     scrape_company F company_name fields b = (Ok res, b', t) ->
     sections res !! name = Some text ->
     exists flag suffix,
       In (flag, name, suffix) (company_page_map F) /\
       flag_truthy (N.land flag (N.lor fields (ABOUT F))) = true).
Proof.
  split.
  - intros username fields b res b' t name text E Hs.
    destruct (scrape_person_returns F _ _ _ _ _ _ E)
      as (s' & pv' & Hloop & Hsec & _ & _).
    apply person_pages_run in Hloop as [-> _]. rewrite Hsec in Hs.
    apply (sections_of_run _ _ _ _ _ _ (person_names_nodup F)) in Hs
      as [Hin _].
    exact (extractions_requested _ _ _ _ _ _ Hin).
  - intros company_name fields b res b' t name text E Hs.
    destruct (scrape_company_returns F _ _ _ _ _ _ E)
      as (s' & pv' & Hloop & Hsec & _ & _).
    apply person_pages_run in Hloop as [-> _]. rewrite Hsec in Hs.
    apply (sections_of_run _ _ _ _ _ _ (company_names_nodup F)) in Hs
      as [Hin _].
    destruct (extractions_requested _ _ _ _ _ _ Hin)
      as (flag & suffix & ov & Hi & Hf).
    apply in_map_iff in Hi as ([[f0 n0] s0] & Heq & Hi).
    inversion Heq; subst. now exists flag, suffix.
Qed.

(** X12 on a profile scraped with no extra flag. *)
Lemma X12_witness :
  exists res b' t,
    scrape_person sample_fields (py "bob") 0%N (page_with (py "Bob"))
    = (Ok res, b', t) /\
    sections res !! py "main_profile" = Some (py "Bob") /\
    exists flag suffix is_overlay,
      In (flag, py "main_profile", suffix, is_overlay)
         (person_page_map sample_fields) /\
      flag_truthy
        (N.land flag (N.lor 0 (BASIC_INFO sample_fields))) = true.
Proof.
  destruct (scrape_person sample_fields (py "bob") 0%N (page_with (py "Bob")))
    as [[[res|e] b'] t] eqn:E; [|vm_compute in E; discriminate].
  exists res, b', t. split; [reflexivity|].
  assert (Hs : sections res !! py "main_profile" = Some (py "Bob")).
  { vm_compute in E. inversion E; subst. vm_compute. reflexivity. }
  split; [exact Hs|].
  exact (proj1 (X12_sections_were_requested Scripted scripted_page
                  sample_fields) _ _ _ _ _ _ _ _ E Hs).
Defined.

(** ** [sections_requested] *)

Lemma fold_reverse_lookup (section_map : list (pystr * N)) :
  forall (acc : gmap N pystr) flag name,
  fold_left (fun m kv => <[snd kv := fst kv]> m) section_map acc !! flag
  = Some name ->
  acc !! flag = Some name \/ In (name, flag) section_map.
Proof.
  induction section_map as [|[k v] rest IH]; intros acc flag name Hl;
    simpl in Hl; [now left|].
  destruct (IH _ _ _ Hl) as [Hacc|Hin]; [|right; now right].
  simpl in Hacc. destruct (decide (v = flag)) as [->|Hne].
  - rewrite lookup_insert_eq in Hacc. inversion Hacc; subst.
    right. now left.
  - rewrite lookup_insert_ne in Hacc by exact Hne. now left.
Qed.

Lemma reverse_map_in (section_map : list (pystr * N)) flag name :
  reverse_map section_map !! flag = Some name -> In (name, flag) section_map.
Proof.
  intros Hl. destruct (fold_reverse_lookup section_map ∅ flag name Hl)
    as [He|Hin]; [|exact Hin].
  rewrite lookup_empty in He. discriminate.
Qed.

Lemma requested_sections_in (first : pystr) (members : list N)
    (section_map : list (pystr * N)) (fields : N) (name : pystr) :
  In name (requested_sections first members section_map fields) <->
  name = first \/
  exists flag,
    In flag members /\ flag_in flag fields = true /\
    reverse_map section_map !! flag = Some name.
Proof.
  unfold requested_sections.
  generalize (reverse_map section_map) as rm. intros rm.
  assert (Hgen : forall acc,
    In name
      (fold_left
         (fun requested flag =>
            match rm !! flag with
            | Some n => if flag_in flag fields then requested ++ [n]
                        else requested
            | None => requested
            end) members acc) <->
    In name acc \/
    exists flag,
      In flag members /\ flag_in flag fields = true /\
      rm !! flag = Some name).
  { induction members as [|flag members IH]; intros acc; simpl.
    - split; [now left|]. now intros [Hin|(f & [] & _)].
    - rewrite IH. split.
      + intros [Hin|(f & Hf & Hfl & Hrm)].
        * destruct (rm !! flag) as [n|] eqn:En; [|now left].
          destruct (flag_in flag fields) eqn:Efl; [|now left].
          apply in_app_iff in Hin as [Hin|[<-|[]]]; [now left|].
          right. exists flag. repeat split; [now left|exact Efl|exact En].
        * right. exists f. repeat split; [now right|exact Hfl|exact Hrm].
      + intros [Hin|(f & [<-|Hf] & Hfl & Hrm)].
        * left. destruct (rm !! flag) as [n|]; [|exact Hin].
          destruct (flag_in flag fields); [|exact Hin].
          apply in_app_iff. now left.
        * left. rewrite Hrm, Hfl. apply in_app_iff. right. now left.
        * right. now exists f. }
  rewrite Hgen. simpl. split.
  - intros [[<-|[]]|Hex]; [now left|now right].
  - intros [->|Hex]; [left; now left|now right].
Qed.

(** X13: [sections_requested] holds the base name and, besides it,
    exactly the names that the section map gives to the member flags
    contained in the fields; each of them is a key of the section map. *)
Theorem X13_sections_requested_follow_flags (B : Type) (P : Page B)
    (F : FieldsModule) :
  (forall username fields (b : B) res b' t name,
     scrape_person F username fields b = (Ok res, b', t) ->
     (In name (sections_requested res) <->
      name = py "main_profile" \/
      exists flag,
        In flag (PersonScrapingFields F) /\
        flag_in flag (N.lor fields (BASIC_INFO F)) = true /\
        reverse_map (PERSON_SECTION_MAP F) !! flag = Some name) /\
     (forall flag,
        reverse_map (PERSON_SECTION_MAP F) !! flag = Some name ->
        In (name, flag) (PERSON_SECTION_MAP F))) /\
  (forall company_name fields (b : B) res b' t name,
     scrape_company F company_name fields b = (Ok res, b', t) ->
     (In name (sections_requested res) <->
      name = py "about" \/
      exists flag,
        In flag (CompanyScrapingFields F) /\
        flag_in flag (N.lor fields (ABOUT F)) = true /\
        reverse_map (COMPANY_SECTION_MAP F) !! flag = Some name) /\
     (forall flag,
        reverse_map (COMPANY_SECTION_MAP F) !! flag = Some name ->
        In (name, flag) (COMPANY_SECTION_MAP F))).
Proof.
  split.
  - intros username fields b res b' t name E.
    destruct (scrape_person_returns F _ _ _ _ _ _ E)
      as (s' & pv' & _ & _ & _ & ->).
    split; [apply requested_sections_in|].
    intros flag. apply reverse_map_in.
  - intros company_name fields b res b' t name E.
    destruct (scrape_company_returns F _ _ _ _ _ _ E)
      as (s' & pv' & _ & _ & _ & ->).
    split; [apply requested_sections_in|].
    intros flag. apply reverse_map_in.
Qed.

(** X13 on a profile scraped with the experience flag. *)
Lemma X13_witness :
  exists res b' t,
    scrape_person sample_fields (py "bob") 2%N
      (page_with (py "Bob") ++ page_with (py "Acme")) = (Ok res, b', t) /\
    sections_requested res = [py "main_profile"; py "experience"] /\
    In (py "experience") (sections_requested res).
Proof.
  destruct (scrape_person sample_fields (py "bob") 2%N
              (page_with (py "Bob") ++ page_with (py "Acme")))
    as [[[res|e] b'] t] eqn:E; [|vm_compute in E; discriminate].
  exists res, b', t. split; [reflexivity|].
  split; [vm_compute in E; inversion E; subst; reflexivity|].
  apply (proj1 (proj1 (X13_sections_requested_follow_flags
                         Scripted scripted_page sample_fields)
                  _ _ _ _ _ _ (py "experience") E)).
  right. exists 2%N. vm_compute. repeat split. right. now left.
Defined.

(** ** [quote_plus] yields parameter characters only *)

Lemma utf8_char_bytes (c : char) (bs : list N) :
  utf8_encode_char c = Some bs -> Forall (fun b => (b < 256)%N) bs.
Proof.
  unfold utf8_encode_char. intros E.
  destruct (N.ltb_spec c 128).
  { inversion E; subst. repeat constructor. lia. }
  destruct (N.ltb_spec c 2048).
  { inversion E; subst.
    pose proof (N.Div0.div_lt_upper_bound c 64 32 ltac:(lia)).
    pose proof (N.mod_lt c 64 ltac:(lia)). repeat constructor; lia. }
  destruct (N.ltb_spec c 65536).
  { destruct ((55296 <=? c) && (c <=? 57343))%N; [discriminate|].
    inversion E; subst.
    pose proof (N.Div0.div_lt_upper_bound c 4096 16 ltac:(lia)).
    pose proof (N.mod_lt (c / 64) 64 ltac:(lia)).
    pose proof (N.mod_lt c 64 ltac:(lia)). repeat constructor; lia. }
  destruct (N.ltb_spec c 1114112); [|discriminate].
  inversion E; subst.
  pose proof (N.Div0.div_lt_upper_bound c 262144 5 ltac:(lia)).
  pose proof (N.mod_lt (c / 4096) 64 ltac:(lia)).
  pose proof (N.mod_lt (c / 64) 64 ltac:(lia)).
  pose proof (N.mod_lt c 64 ltac:(lia)). repeat constructor; lia.
Qed.

Lemma utf8_bytes (s : pystr) (bs : list N) :
  utf8_encode s = Some bs -> Forall (fun b => (b < 256)%N) bs.
Proof.
  revert bs. induction s as [|c s IH]; intros bs E; simpl in E.
  - inversion E. constructor.
  - destruct (utf8_encode_char c) as [cb|] eqn:Ec; [|discriminate].
    destruct (utf8_encode s) as [rest|]; [|discriminate].
    inversion E; subst. apply Forall_app. split.
    + exact (utf8_char_bytes _ _ Ec).
    + now apply IH.
Qed.

Lemma quote_byte_chars (b : N) :
  (b < 256)%N -> forallb param_char (quote_byte b) = true.
Proof.
  intros Hb.
  assert (Hall : forallb (fun n => forallb param_char (quote_byte (N.of_nat n)))
                         (List.seq 0 256) = true)
    by (vm_compute; reflexivity).
  rewrite forallb_forall in Hall.
  specialize (Hall (N.to_nat b)). rewrite N2Nat.id in Hall.
  apply Hall. apply in_seq. lia.
Qed.

Lemma quote_bytes_chars (bs : list N) :
  Forall (fun b => (b < 256)%N) bs ->
  forallb param_char (concat (List.map quote_byte bs)) = true.
Proof.
  induction 1 as [|b bs Hb _ IH]; [reflexivity|].
  change (concat (List.map quote_byte (b :: bs)))
    with (quote_byte b ++ concat (List.map quote_byte bs)).
  rewrite forallb_app. apply andb_true_iff.
  split; [exact (quote_byte_chars b Hb)|exact IH].
Qed.

Lemma quote_plus_chars (s q : pystr) :
  quote_plus s = Ok q -> forallb param_char q = true.
Proof.
  unfold quote_plus. destruct (utf8_encode s) as [bs|] eqn:E; [|discriminate].
  intros [= <-]. apply quote_bytes_chars. exact (utf8_bytes _ _ E).
Qed.

(** ** [scrape_job] and [search_jobs] *)

Section JobFacts.
Context {B : Type} `{Page B}.

Lemma extract_page_goes_to (url : pystr) :
  emits (B := B) (goes_to url) (extract_page url).
Proof.
  unfold extract_page, _extract_page_once, goto, detect_rate_limit,
    wait_for_selector, handle_modal_close, scroll_to_bottom, evaluate_str,
    isolate_errors, ignore_timeout.
  repeat (first [ apply emits_bind; [|intros ?]
                | apply emits_try; [|intros ?]
                | apply emits_ret
                | apply emits_raise
                | apply emits_sleep; exact I
                | apply emits_call; first [exact I|reflexivity]
                | match goal with
                  | |- emits _ (if ?c then _ else _) => destruct c
                  end ]).
Qed.

Lemma single_section_lookup (key text name v : pystr) :
  single_section key text !! name = Some v <->
  name = key /\ v = text /\ text <> [].
Proof.
  unfold single_section. destruct text as [|c text]; simpl.
  - rewrite lookup_empty. split; [discriminate|]. now intros (_ & _ & Hn).
  - destruct (decide (key = name)) as [->|Hne].
    + rewrite lookup_insert_eq. split.
      * intros [= <-]. repeat split. discriminate.
      * now intros (_ & -> & _).
    + rewrite lookup_insert_ne by exact Hne. rewrite lookup_empty.
      split; [discriminate|]. intros (-> & _). now contradiction Hne.
Qed.

(** The tail shared by [scrape_job] and [search_jobs]: extract one page
    and build the result. *)
Lemma one_page_scrape (target key : pystr) (b : B)
    (run : result ScrapeResult * B * list Event) :
  run = (text <- extract_page target ;;
         ret {| url := target;
                sections := single_section key text;
                pages_visited := [target];
                sections_requested := [key] |})%io b ->
  Forall (goes_to target) (trace run) /\
  attempts (trace run) <= 2 /\
  (forall e, outcome run = Raise e -> is_scraper_exception e = true) /\
  (forall res,
     outcome run = Ok res ->
     url res = target /\ pages_visited res = [target] /\
     sections_requested res = [key] /\
     forall name text,
       sections res !! name = Some text <->
       name = key /\ text <> [] /\ outcome (extract_page target b) = Ok text).
Proof.
  intros ->. rewrite bind_ret_run, outcome_run, trace_run.
  split; [apply extract_page_goes_to|].
  split.
  { destruct (extract_page_attempts target b) as [[-> _]|[-> _]]; lia. }
  pose proof (proj1 (extraction_raises_classified B _ target b)) as Hcls.
  split.
  - intros e E. apply Hcls.
    destruct (outcome (extract_page target b)); [discriminate|].
    now inversion E.
  - intros res E.
    destruct (outcome (extract_page target b)) as [text|e0]; [|discriminate].
    inversion E; subst. simpl. split; [reflexivity|].
    split; [reflexivity|]. split; [reflexivity|].
    intros name v. rewrite single_section_lookup. split.
    + intros (-> & -> & Hn). now repeat split.
    + intros (-> & Hn & [= ->]). now repeat split.
Qed.

End JobFacts.

Section JobRuns.
Context {B : Type} `{Page B}.

Lemma ret_bind {A C} (a : A) (f : A -> IO B C) (b : B) :
  bind (ret a) f b = f a b.
Proof. unfold bind, ret. now destruct (f a b) as [[r b1] t1]. Qed.

Lemma pure_bind {A C} (r : result A) (f : A -> IO B C) (b : B) :
  bind (pure_step r) f b
  = match r with Ok a => f a b | Raise e => (Raise e, b, []) end.
Proof.
  destruct r as [a|e]; [apply ret_bind|reflexivity].
Qed.

Lemma bind_assoc {A C D} (m : IO B A) (f : A -> IO B C) (g : C -> IO B D)
    (b : B) :
  bind (bind m f) g b = bind m (fun a => bind (f a) g) b.
Proof.
  unfold bind. destruct (m b) as [[[a|e] b1] t1]; [|reflexivity].
  destruct (f a b1) as [[[c|e] b2] t2]; [|reflexivity].
  destruct (g c b2) as [[r b3] t3]. now rewrite app_assoc.
Qed.

(** The page [search_jobs] loads, when its arguments can be encoded. *)
Lemma search_jobs_run (keywords : pystr) (location : option pystr) (b : B) :
  match quote_plus keywords with
  | Raise e => search_jobs keywords location b = (Raise e, b, [])
  | Ok qk =>
      let go (tail : pystr) :=
        (text <- extract_page
                   (py "https://www.linkedin.com/jobs/search/?"
                    ++ (py "keywords=" ++ qk) ++ tail) ;;
         ret {| url := py "https://www.linkedin.com/jobs/search/?"
                       ++ (py "keywords=" ++ qk) ++ tail;
                sections := single_section (py "search_results") text;
                pages_visited := [py "https://www.linkedin.com/jobs/search/?"
                                  ++ (py "keywords=" ++ qk) ++ tail];
                sections_requested := [py "search_results"] |})%io b in
      match location with
      | Some place =>
          if truthy place then
            match quote_plus place with
            | Raise e => search_jobs keywords location b = (Raise e, b, [])
            | Ok ql =>
                search_jobs keywords location b
                = go (py "&location=" ++ ql)
            end
          else search_jobs keywords location b = go []
      | None => search_jobs keywords location b = go []
      end
  end.
Proof.
  unfold search_jobs. rewrite pure_bind.
  destruct (quote_plus keywords) as [qk|e]; [|reflexivity].
  destruct location as [place|]; simpl.
  - destruct (truthy place).
    + rewrite bind_assoc, pure_bind.
      destruct (quote_plus place) as [ql|e]; [|reflexivity].
      now rewrite ret_bind.
    + rewrite ret_bind. now rewrite app_nil_r.
  - rewrite ret_bind. now rewrite app_nil_r.
Qed.

End JobRuns.

(** X14: [scrape_job] loads only the posting's page, at most twice, and
    raises nothing but classified exceptions; when it returns, that page
    is the only one visited and [sections] holds the key ["job_posting"]
    exactly when the extraction returned a non-empty text, which is the
    value. *)
Theorem X14_scrape_job_single_page (B : Type) (P : Page B)
    (job_id : pystr) (b : B) :
  Forall (goes_to (py "https://www.linkedin.com/jobs/view/" ++ job_id
                   ++ py "/"))
         (trace (scrape_job job_id b)) /\
  attempts (trace (scrape_job job_id b)) <= 2 /\
  (forall e, outcome (scrape_job job_id b) = Raise e ->
             is_scraper_exception e = true) /\
  (forall res,
     outcome (scrape_job job_id b) = Ok res ->
     url res = py "https://www.linkedin.com/jobs/view/" ++ job_id ++ py "/" /\
     pages_visited res
     = [py "https://www.linkedin.com/jobs/view/" ++ job_id ++ py "/"] /\
     sections_requested res = [py "job_posting"] /\
     forall name text,
       sections res !! name = Some text <->
       name = py "job_posting" /\ text <> [] /\
       outcome (extract_page
                  (py "https://www.linkedin.com/jobs/view/" ++ job_id
                   ++ py "/") b) = Ok text).
Proof.
  exact (one_page_scrape
           (py "https://www.linkedin.com/jobs/view/" ++ job_id ++ py "/")
           (py "job_posting") b (scrape_job job_id b) eq_refl).
Qed.

(** X14 on a posting page that reads ["Engineer"]. *)
Lemma X14_witness :
  exists res,
    outcome (scrape_job (py "42") (page_with (py "Engineer"))) = Ok res /\
    sections res !! py "job_posting" = Some (py "Engineer") /\
    pages_visited res = [py "https://www.linkedin.com/jobs/view/42/"].
Proof.
  destruct (outcome (scrape_job (py "42") (page_with (py "Engineer"))))
    as [res|e] eqn:E; [|vm_compute in E; discriminate].
  exists res. split; [reflexivity|].
  destruct (proj2 (proj2 (proj2 (X14_scrape_job_single_page
              Scripted scripted_page (py "42")
              (page_with (py "Engineer"))))) res E)
    as (_ & Hpv & _ & Hsec).
  split; [|rewrite Hpv; vm_compute; reflexivity].
  apply Hsec. split; [reflexivity|]. split; [discriminate|].
  vm_compute. reflexivity.
Defined.

(** X15: in the URL [search_jobs] reports and loads, the keywords and the
    location occur only quoted: after ["keywords="] come parameter
    characters (letters, digits, [_.-~+%]) and, when a non-empty location
    is given, the separator ["&location="] and parameter characters again.
    No other page is loaded. *)
Theorem X15_search_jobs_url_is_quoted (B : Type) (P : Page B)
    (keywords : pystr) (location : option pystr) (b : B)
    (res : ScrapeResult) (b' : B) (t : list Event) :
  search_jobs keywords location b = (Ok res, b', t) ->
  exists qk tail,
    quote_plus keywords = Ok qk /\
    url res = py "https://www.linkedin.com/jobs/search/?"
              ++ (py "keywords=" ++ qk) ++ tail /\
    forallb param_char qk = true /\
    match location with
    | Some place =>
        if truthy place then
          exists ql,
            quote_plus place = Ok ql /\ tail = py "&location=" ++ ql /\
            forallb param_char ql = true
        else tail = []
    | None => tail = []
    end /\
    pages_visited res = [url res] /\
    Forall (goes_to (url res)) t.
Proof.
  intros E. pose proof (search_jobs_run keywords location b) as Hrun.
  destruct (quote_plus keywords) as [qk|e] eqn:Ek;
    [|rewrite Hrun in E; discriminate].
  pose proof (quote_plus_chars _ _ Ek) as Hqk.
  assert (Hgo : forall tail,
    search_jobs keywords location b
    = (text <- extract_page
                 (py "https://www.linkedin.com/jobs/search/?"
                  ++ (py "keywords=" ++ qk) ++ tail) ;;
       ret {| url := py "https://www.linkedin.com/jobs/search/?"
                     ++ (py "keywords=" ++ qk) ++ tail;
              sections := single_section (py "search_results") text;
              pages_visited := [py "https://www.linkedin.com/jobs/search/?"
                                ++ (py "keywords=" ++ qk) ++ tail];
              sections_requested := [py "search_results"] |})%io b ->
    url res = py "https://www.linkedin.com/jobs/search/?"
              ++ (py "keywords=" ++ qk) ++ tail /\
    pages_visited res = [url res] /\ Forall (goes_to (url res)) t).
  { intros tail Heq.
    pose proof (one_page_scrape _ _ b _ Heq) as Hone.
    rewrite E in Hone.
    destruct Hone as (Hgoes & _ & _ & Hres).
    destruct (Hres res eq_refl) as (Hu & Hpv & _).
    rewrite Hu. split; [reflexivity|]. split; [exact Hpv|exact Hgoes]. }
  exists qk.
  destruct location as [place|]; simpl in Hrun.
  - destruct (truthy place).
    + destruct (quote_plus place) as [ql|e] eqn:El;
        [|rewrite Hrun in E; discriminate].
      exists (py "&location=" ++ ql).
      destruct (Hgo _ Hrun) as (Hu & Hpv & Hg).
      repeat split; try assumption.
      exists ql. repeat split. exact (quote_plus_chars _ _ El).
    + exists []. destruct (Hgo _ Hrun) as (Hu & Hpv & Hg).
      repeat split; assumption.
  - exists []. destruct (Hgo _ Hrun) as (Hu & Hpv & Hg).
    repeat split; assumption.
Qed.

(** X15 on keywords with a blank and an ampersand. *)
Lemma X15_witness :
  exists res b' t,
    search_jobs (py "R&D lead") (Some (py "Sao Paulo"))
      (page_with (py "3 results")) = (Ok res, b', t) /\
    url res
    = py "https://www.linkedin.com/jobs/search/?keywords=R%26D+lead&location=Sao+Paulo".
Proof.
  destruct (search_jobs (py "R&D lead") (Some (py "Sao Paulo"))
              (page_with (py "3 results")))
    as [[[res|e] b'] t] eqn:E; [|vm_compute in E; discriminate].
  exists res, b', t. split; [reflexivity|].
  destruct (X15_search_jobs_url_is_quoted Scripted scripted_page _ _ _ _ _ _ E)
    as (qk & tail & Hk & Hu & _ & Hloc & _).
  simpl in Hloc. destruct Hloc as (ql & Hl & -> & _).
  rewrite Hu.
  vm_compute in Hk. inversion Hk; subst.
  vm_compute in Hl. inversion Hl; subst.
  vm_compute. reflexivity.
Defined.

(** X16: [search_jobs] raises either a classified scraper exception or
    the encoding error of one of its arguments, and in the second case it
    has not touched the browser. *)
Theorem X16_search_jobs_raises (B : Type) (P : Page B)
    (keywords : pystr) (location : option pystr) (b : B) (e : exn) :
  outcome (search_jobs keywords location b) = Raise e ->
  is_scraper_exception e = true \/
  ((quote_plus keywords = Raise e \/
    exists place, location = Some place /\ quote_plus place = Raise e) /\
   search_jobs keywords location b = (Raise e, b, [])).
Proof.
  intros E. pose proof (search_jobs_run keywords location b) as Hrun.
  destruct (quote_plus keywords) as [qk|e0] eqn:Ek.
  - assert (Hgo : forall tail,
      search_jobs keywords location b
      = (text <- extract_page
                   (py "https://www.linkedin.com/jobs/search/?"
                    ++ (py "keywords=" ++ qk) ++ tail) ;;
         ret {| url := py "https://www.linkedin.com/jobs/search/?"
                       ++ (py "keywords=" ++ qk) ++ tail;
                sections := single_section (py "search_results") text;
                pages_visited := [py "https://www.linkedin.com/jobs/search/?"
                                  ++ (py "keywords=" ++ qk) ++ tail];
                sections_requested := [py "search_results"] |})%io b ->
      is_scraper_exception e = true).
    { intros tail Heq.
      destruct (one_page_scrape _ _ b _ Heq) as (_ & _ & Hcls & _).
      now apply Hcls. }
    destruct location as [place|]; simpl in Hrun.
    + destruct (truthy place).
      * destruct (quote_plus place) as [ql|e1] eqn:El.
        -- left. exact (Hgo _ Hrun).
        -- right. rewrite Hrun in E. inversion E; subst.
           split; [|exact Hrun]. right. now exists place.
      * left. exact (Hgo _ Hrun).
    + left. exact (Hgo _ Hrun).
  - right. rewrite Hrun in E. inversion E; subst.
    split; [now left|exact Hrun].
Qed.

(** X16 on keywords holding a lone surrogate. *)
Lemma X16_witness :
  outcome (search_jobs [56448%N] None (page_with (py "x")))
  = Raise (OtherException (py "UnicodeEncodeError") []) /\
  search_jobs [56448%N] None (page_with (py "x"))
  = (Raise (OtherException (py "UnicodeEncodeError") []),
     page_with (py "x"), []).
Proof.
  assert (E : outcome (search_jobs [56448%N] None (page_with (py "x")))
              = Raise (OtherException (py "UnicodeEncodeError") []))
    by (vm_compute; reflexivity).
  split; [exact E|].
  destruct (X16_search_jobs_raises Scripted scripted_page _ _ _ _ E)
    as [Hc|[_ Hrun]]; [discriminate|exact Hrun].
Defined.

(** ** More on the action methods *)

Section ActionRuns.
Context {B : Type} `{Page B}.

(** Case analysis on the next call of the page interface in the goal or
    in the hypothesis [E]. *)
Ltac next_call E :=
  match type of E with
  | context [page_goto ?u ?b] =>
      destruct (page_goto u b) as [[[]|?] ?]
  | context [util_detect_rate_limit ?b] =>
      destruct (util_detect_rate_limit b) as [[[]|?] ?]
  | context [page_evaluate_dialog ?s ?b] =>
      destruct (page_evaluate_dialog s b) as [[[[] ?]|?] ?]
  | context [page_evaluate_bool ?s ?b] =>
      destruct (page_evaluate_bool s b) as [[[]|?] ?]
  | context [locator_wait_for ?s ?b] =>
      destruct (locator_wait_for s b) as [[[]|?] ?]
  | context [locator_click ?s ?b] =>
      destruct (locator_click s b) as [[[]|?] ?]
  | context [locator_fill ?s ?x ?b] =>
      destruct (locator_fill s x b) as [[[]|?] ?]
  end; cbv beta iota in E.

Ltac unfold_actions E :=
  unfold send_message, send_message_body, connect_with_person,
    connect_with_person_body, send_with_note, goto, detect_rate_limit,
    evaluate_dialog, evaluate_bool, wait_for, click, fill,
    bind, try_except, call, ret, raise, sleep in E;
  cbv beta iota in E.

(** A [send_message] that reports success has done exactly this. *)
Lemma send_message_success (u message : pystr) (b : B) r b' t :
  send_message u message b = (Ok r, b', t) ->
  status r = py "success" ->
  t = [EvGoto (py "https://www.linkedin.com/messaging/compose/?recipients="
               ++ u);
       EvDetectRateLimit; EvSleep (2 # 1);
       EvLocatorWaitFor msg_box_selector; EvLocatorClick msg_box_selector;
       EvSleep (3 # 10); EvFill msg_box_selector message; EvSleep (1 # 2);
       EvEvaluate JsClickSendMessage; EvSleep (2 # 1)].
Proof.
  intros E Hs. unfold_actions E.
  repeat (first
    [ next_call E
    | match type of E with
      | context [is_timeout ?e] => destruct (is_timeout e); cbv beta iota in E
      end ]);
    simpl in E; inversion E; subst;
    try (vm_compute in Hs; discriminate); reflexivity.
Qed.

(** A [connect_with_person] that reports success has done one of three
    things. *)
Lemma connect_success (u : pystr) (note : option pystr) (b : B) r b' t :
  connect_with_person u note b = (Ok r, b', t) ->
  status r = py "success" ->
  message r = py "Connection request sent to " ++ u
              ++ (if note_truthy note then py " with note" else []) /\
  exists sent,
    t = [EvGoto
           (py "https://www.linkedin.com/preload/custom-invite/?vanityName="
            ++ u);
         EvDetectRateLimit; EvSleep (2 # 1); EvEvaluate JsDialogState]
        ++ sent ++ [EvSleep (2 # 1); EvEvaluate JsModalClosed] /\
    ((note_truthy note = true /\
      sent = [EvEvaluate JsClickAddNote; EvSleep (2 # 1);
              EvLocatorWaitFor textarea_selector;
              EvFill textarea_selector (note_slice note); EvSleep (1 # 2);
              EvEvaluate JsClickSendInvitation]) \/
     (note_truthy note = true /\
      sent = [EvEvaluate JsClickAddNote; EvEvaluate JsClickSendWithout]) \/
     (note_truthy note = false /\
      sent = [EvEvaluate JsClickSendWithout])).
Proof.
  intros E Hs. unfold_actions E.
  destruct note as [[|c n]|]; cbv beta iota delta [note_truthy truthy] in E |- *;
    repeat (next_call E; cbn [dialog_type_eqb ds_type orb] in E;
            cbv beta iota in E);
    inversion E; subst;
    try (vm_compute in Hs; discriminate);
    (split; [reflexivity|]);
    first
      [ exists [EvEvaluate JsClickAddNote; EvSleep (2 # 1);
                EvLocatorWaitFor textarea_selector;
                EvFill textarea_selector (c :: firstn 199 n);
                EvSleep (1 # 2); EvEvaluate JsClickSendInvitation];
        split; [reflexivity|left; split; reflexivity]
      | exists [EvEvaluate JsClickAddNote; EvEvaluate JsClickSendWithout];
        split; [reflexivity|right; left; split; reflexivity]
      | exists [EvEvaluate JsClickSendWithout];
        split; [reflexivity|right; right; split; reflexivity] ].
Qed.

(** Success is what the last script, the check that the modal closed,
    answered; the answers of the scripts that click are not looked at. *)
Lemma connect_success_closed (u : pystr) (note : option pystr) (b : B)
    r b' t :
  connect_with_person u note b = (Ok r, b', t) ->
  status r = py "success" ->
  exists b2, page_evaluate_bool JsModalClosed b2 = (Ok true, b').
Proof.
  intros E Hs. unfold_actions E.
  destruct note as [[|c n]|]; cbv beta iota delta [note_truthy truthy] in E;
    repeat (first
      [ match type of E with
        | context [page_evaluate_bool ?s ?b0] =>
            destruct (page_evaluate_bool s b0) as [[[]|?] ?] eqn:?;
            cbv beta iota in E
        end
      | next_call E ];
      cbn [dialog_type_eqb ds_type orb] in E; cbv beta iota in E);
    inversion E; subst;
    try (vm_compute in Hs; discriminate);
    eexists; eassumption.
Qed.

(** Nothing is sent when the dialog shows a connection or a pending
    request: the method stops after reading the dialog state. *)
Lemma connect_stops (u : pystr) (note : option pystr) (b : B)
    b1 b2 ds b3 :
  page_goto (py "https://www.linkedin.com/preload/custom-invite/?vanityName="
             ++ u) b = (Ok tt, b1) ->
  util_detect_rate_limit b1 = (Ok tt, b2) ->
  page_evaluate_dialog JsDialogState b2 = (Ok ds, b3) ->
  ds_type ds = already_connected \/ ds_type ds = pending \/
  ds_type ds = pending_on_page ->
  connect_with_person u note b
  = (Ok {| status := if dialog_type_eqb (ds_type ds) already_connected
                     then py "already_connected" else py "pending";
           message := if dialog_type_eqb (ds_type ds) already_connected
                      then py "Already connected with " ++ u
                      else py "Connection request already pending for " ++ u;
           profile_url := py "https://www.linkedin.com/in/" ++ u ++ py "/" |},
     b3,
     [EvGoto (py "https://www.linkedin.com/preload/custom-invite/?vanityName="
              ++ u);
      EvDetectRateLimit; EvSleep (2 # 1); EvEvaluate JsDialogState]).
Proof.
  intros Hg Hd He Hty.
  unfold connect_with_person, connect_with_person_body, goto,
    detect_rate_limit, evaluate_dialog, bind, try_except, call, sleep.
  rewrite Hg, Hd. cbv beta iota. rewrite He. cbv beta iota.
  destruct Hty as [Hty|[Hty|Hty]]; rewrite Hty; reflexivity.
Qed.

(** The compose box does not show up in time: nothing is clicked or
    typed. *)
Lemma send_message_no_box (u message : pystr) (b : B) b1 b2 m b3 :
  page_goto (py "https://www.linkedin.com/messaging/compose/?recipients="
             ++ u) b = (Ok tt, b1) ->
  util_detect_rate_limit b1 = (Ok tt, b2) ->
  locator_wait_for msg_box_selector b2
  = (Raise (PlaywrightTimeoutError m), b3) ->
  send_message u message b
  = (Ok {| status := py "error";
           message := py "Message compose area not found for " ++ u
                      ++ py ". They may have messaging disabled.";
           profile_url := py "https://www.linkedin.com/in/" ++ u ++ py "/" |},
     b3,
     [EvGoto (py "https://www.linkedin.com/messaging/compose/?recipients="
              ++ u);
      EvDetectRateLimit; EvSleep (2 # 1);
      EvLocatorWaitFor msg_box_selector]).
Proof.
  intros Hg Hd Hw.
  unfold send_message, send_message_body, goto, detect_rate_limit, wait_for,
    bind, try_except, call, sleep.
  rewrite Hg, Hd. cbv beta iota. rewrite Hw. reflexivity.
Qed.

End ActionRuns.

(** X17: when the dialog shows an existing connection or a pending
    request, [connect_with_person] reports it and does nothing more: no
    button is clicked, nothing is typed. *)
Theorem X17_connect_stops_when_connected_or_pending (B : Type) (P : Page B)
    (u : pystr) (note : option pystr) (b b1 b2 b3 : B) (ds : DialogState) :
  page_goto (py "https://www.linkedin.com/preload/custom-invite/?vanityName="
             ++ u) b = (Ok tt, b1) ->
  util_detect_rate_limit b1 = (Ok tt, b2) ->
  page_evaluate_dialog JsDialogState b2 = (Ok ds, b3) ->
  ds_type ds = already_connected \/ ds_type ds = pending \/
  ds_type ds = pending_on_page ->
  connect_with_person u note b
  = (Ok {| status := if dialog_type_eqb (ds_type ds) already_connected
                     then py "already_connected" else py "pending";
           message := if dialog_type_eqb (ds_type ds) already_connected
                      then py "Already connected with " ++ u
                      else py "Connection request already pending for " ++ u;
           profile_url := py "https://www.linkedin.com/in/" ++ u ++ py "/" |},
     b3,
     [EvGoto (py "https://www.linkedin.com/preload/custom-invite/?vanityName="
              ++ u);
      EvDetectRateLimit; EvSleep (2 # 1); EvEvaluate JsDialogState]).
Proof. apply connect_stops. Qed.

(** X17 on a dialog that shows a pending request. *)
Lemma X17_witness :
  connect_with_person (py "bob") (Some (py "Hi"))
    [RpDone; RpDone;
     RpDialog {| ds_type := pending; ds_repr := py "{...}" |};
     RpBool true]
  = (Ok {| status := py "pending";
           message := py "Connection request already pending for bob";
           profile_url := py "https://www.linkedin.com/in/bob/" |},
     [RpBool true],
     [EvGoto (py "https://www.linkedin.com/preload/custom-invite/?vanityName=bob");
      EvDetectRateLimit; EvSleep (2 # 1); EvEvaluate JsDialogState]).
Proof.
  apply (X17_connect_stops_when_connected_or_pending Scripted scripted_page
           (py "bob") (Some (py "Hi"))
           [RpDone; RpDone;
            RpDialog {| ds_type := pending; ds_repr := py "{...}" |};
            RpBool true]
           [RpDone;
            RpDialog {| ds_type := pending; ds_repr := py "{...}" |};
            RpBool true]
           [RpDialog {| ds_type := pending; ds_repr := py "{...}" |};
            RpBool true]
           [RpBool true]
           {| ds_type := pending; ds_repr := py "{...}" |}).
  - reflexivity.
  - reflexivity.
  - reflexivity.
  - right. left. reflexivity.
Defined.

(** X18: a success of [connect_with_person] comes from one of three
    runs, each ending with the check that the modal closed, which answered
    true: the note typed and the send-invitation script run; the
    add-a-note button missing and the send-without-note script run; no
    note and the send-without-note script run.  What the script that
    clicks the send button answered is not looked at: success says that
    the modal closed, not that a button was clicked.  The message says
    "with note" whenever a note was given, in the second run too. *)
Theorem X18_connect_success_runs (B : Type) (P : Page B)
    (u : pystr) (note : option pystr) (b : B)
    (r : ActionResult) (b' : B) (t : list Event) :
  connect_with_person u note b = (Ok r, b', t) ->
  status r = py "success" ->
  message r = py "Connection request sent to " ++ u
              ++ (if note_truthy note then py " with note" else []) /\
  (exists sent,
    t = [EvGoto
           (py "https://www.linkedin.com/preload/custom-invite/?vanityName="
            ++ u);
         EvDetectRateLimit; EvSleep (2 # 1); EvEvaluate JsDialogState]
        ++ sent ++ [EvSleep (2 # 1); EvEvaluate JsModalClosed] /\
    ((note_truthy note = true /\
      sent = [EvEvaluate JsClickAddNote; EvSleep (2 # 1);
              EvLocatorWaitFor textarea_selector;
              EvFill textarea_selector (note_slice note); EvSleep (1 # 2);
              EvEvaluate JsClickSendInvitation]) \/
     (note_truthy note = true /\
      sent = [EvEvaluate JsClickAddNote; EvEvaluate JsClickSendWithout]) \/
     (note_truthy note = false /\
      sent = [EvEvaluate JsClickSendWithout]))) /\
  exists b2, page_evaluate_bool JsModalClosed b2 = (Ok true, b').
Proof.
  intros E Hs. destruct (connect_success u note b r b' t E Hs) as [Hm Ht].
  split; [exact Hm|]. split; [exact Ht|].
  exact (connect_success_closed u note b r b' t E Hs).
Qed.

(** X18 on an invite dialog without the add-a-note button, where the
    send-without-note script finds no button either and answers false,
    and the modal is gone afterwards: the result is a success, and the
    message says "with note" although nothing was typed. *)
Lemma X18_witness :
  exists r b' t,
    connect_with_person (py "bob") (Some (py "Hi"))
      [RpDone; RpDone;
       RpDialog {| ds_type := invite_modal; ds_repr := py "{...}" |};
       RpBool false; RpBool false; RpBool true] = (Ok r, b', t) /\
    status r = py "success" /\
    message r = py "Connection request sent to bob with note" /\
    filled_texts t = [].
Proof.
  destruct (connect_with_person (py "bob") (Some (py "Hi"))
              [RpDone; RpDone;
               RpDialog {| ds_type := invite_modal; ds_repr := py "{...}" |};
               RpBool false; RpBool false; RpBool true])
    as [[[r|e] b'] t] eqn:E; [|vm_compute in E; discriminate].
  exists r, b', t. split; [reflexivity|].
  assert (Hs : status r = py "success")
    by (vm_compute in E; inversion E; subst; reflexivity).
  split; [exact Hs|].
  destruct (X18_connect_success_runs Scripted scripted_page _ _ _ _ _ _ E Hs)
    as (Hm & _).
  split; [rewrite Hm; vm_compute; reflexivity|].
  vm_compute in E. inversion E; subst. reflexivity.
Defined.

(** X19: a success of [send_message] comes from one run only: the
    compose box appeared, was clicked, the whole message was typed into
    it once, and the send script ran. *)
Theorem X19_send_message_success_run (B : Type) (P : Page B)
    (u message : pystr) (b : B) (r : ActionResult) (b' : B)
    (t : list Event) :
  send_message u message b = (Ok r, b', t) ->
  status r = py "success" ->
  t = [EvGoto (py "https://www.linkedin.com/messaging/compose/?recipients="
               ++ u);
       EvDetectRateLimit; EvSleep (2 # 1);
       EvLocatorWaitFor msg_box_selector; EvLocatorClick msg_box_selector;
       EvSleep (3 # 10); EvFill msg_box_selector message; EvSleep (1 # 2);
       EvEvaluate JsClickSendMessage; EvSleep (2 # 1)].
Proof. apply send_message_success. Qed.

(** X19 on a compose page where everything works. *)
Lemma X19_witness :
  exists r b' t,
    send_message (py "bob") (py "Hello Bob")
      [RpDone; RpDone; RpDone; RpDone; RpDone; RpBool true]
    = (Ok r, b', t) /\
    status r = py "success" /\
    filled_texts t = [py "Hello Bob"].
Proof.
  destruct (send_message (py "bob") (py "Hello Bob")
              [RpDone; RpDone; RpDone; RpDone; RpDone; RpBool true])
    as [[[r|e] b'] t] eqn:E; [|vm_compute in E; discriminate].
  exists r, b', t. split; [reflexivity|].
  assert (Hs : status r = py "success")
    by (vm_compute in E; inversion E; subst; reflexivity).
  split; [exact Hs|].
  rewrite (X19_send_message_success_run Scripted scripted_page _ _ _ _ _ _
             E Hs).
  reflexivity.
Defined.

(** X20: when the compose box does not appear in time, [send_message]
    reports that the compose area was not found, and nothing was clicked
    or typed. *)
Theorem X20_send_message_without_compose_box (B : Type) (P : Page B)
    (u message : pystr) (b b1 b2 : B) (m : pystr) (b3 : B) :
  page_goto (py "https://www.linkedin.com/messaging/compose/?recipients="
             ++ u) b = (Ok tt, b1) ->
  util_detect_rate_limit b1 = (Ok tt, b2) ->
  locator_wait_for msg_box_selector b2
  = (Raise (PlaywrightTimeoutError m), b3) ->
  send_message u message b
  = (Ok {| status := py "error";
           message := py "Message compose area not found for " ++ u
                      ++ py ". They may have messaging disabled.";
           profile_url := py "https://www.linkedin.com/in/" ++ u ++ py "/" |},
     b3,
     [EvGoto (py "https://www.linkedin.com/messaging/compose/?recipients="
              ++ u);
      EvDetectRateLimit; EvSleep (2 # 1);
      EvLocatorWaitFor msg_box_selector]).
Proof. apply send_message_no_box. Qed.

(** X20 on a compose page whose box never shows. *)
Lemma X20_witness :
  send_message (py "bob") (py "Hello Bob")
    [RpDone; RpDone; RpRaise (PlaywrightTimeoutError (py "Timeout 10000ms"))]
  = (Ok {| status := py "error";
           message := py "Message compose area not found for bob. They may have messaging disabled.";
           profile_url := py "https://www.linkedin.com/in/bob/" |},
     [],
     [EvGoto (py "https://www.linkedin.com/messaging/compose/?recipients=bob");
      EvDetectRateLimit; EvSleep (2 # 1);
      EvLocatorWaitFor msg_box_selector]).
Proof.
  apply (X20_send_message_without_compose_box Scripted scripted_page
           (py "bob") (py "Hello Bob")
           [RpDone; RpDone;
            RpRaise (PlaywrightTimeoutError (py "Timeout 10000ms"))]
           [RpDone; RpRaise (PlaywrightTimeoutError (py "Timeout 10000ms"))]
           [RpRaise (PlaywrightTimeoutError (py "Timeout 10000ms"))]
           (py "Timeout 10000ms") []); reflexivity.
Defined.

(** * The search pages and the network methods *)

Section WIOLemmas.
Context {B : Type}.

Lemma wbind_ok {A C} (m : WIO B A) (f : A -> WIO B C) b a b1 t1 :
  m b = (Ok a, b1, t1) ->
  wbind m f b
  = (wresult_outcome (f a b1), snd (fst (f a b1)), t1 ++ wtrace (f a b1)).
Proof.
  intros E. unfold wbind. rewrite E. now destruct (f a b1) as [[r b2] t2].
Qed.

Lemma wbind_raise {A C} (m : WIO B A) (f : A -> WIO B C) b e b1 t1 :
  m b = (Raise e, b1, t1) -> wbind m f b = (Raise e, b1, t1).
Proof. intros E. unfold wbind. now rewrite E. Qed.

Lemma wret_bind {A C} (a : A) (f : A -> WIO B C) (b : B) :
  wbind (wret a) f b = f a b.
Proof. unfold wbind, wret. now destruct (f a b) as [[r b1] t1]. Qed.

Lemma wpure_bind {A C} (r : result A) (f : A -> WIO B C) (b : B) :
  wbind (lift (pure_step r)) f b
  = match r with Ok a => f a b | Raise e => (Raise e, b, []) end.
Proof.
  destruct r as [a|e]; [|reflexivity].
  unfold wbind, lift, pure_step. simpl. now destruct (f a b) as [[r b1] t1].
Qed.

Lemma wbind_assoc {A C D} (m : WIO B A) (f : A -> WIO B C)
    (g : C -> WIO B D) (b : B) :
  wbind (wbind m f) g b = wbind m (fun a => wbind (f a) g) b.
Proof.
  unfold wbind. destruct (m b) as [[[a|e] b1] t1]; [|reflexivity].
  destruct (f a b1) as [[[c|e] b2] t2]; [|reflexivity].
  destruct (g c b2) as [[r b3] t3]. now rewrite app_assoc.
Qed.

Lemma wbind_ret_run {A C} (m : WIO B A) (f : A -> C) (b : B) :
  wbind m (fun a => wret (f a)) b
  = (match wresult_outcome (m b) with
     | Ok a => Ok (f a)
     | Raise e => Raise e
     end, snd (fst (m b)), wtrace (m b)).
Proof.
  unfold wbind, wret. destruct (m b) as [[[a|e] b1] t1]; simpl;
    [now rewrite app_nil_r|reflexivity].
Qed.

Lemma wemits_ret {A} P (a : A) : wemits P (@wret B A a).
Proof. intros b. constructor. Qed.

Lemma wemits_raise {A} P e : wemits P (@wraise B A e).
Proof. intros b. constructor. Qed.

Lemma wemits_call {A} (P : WEvent -> Prop) ev (f : B -> result A * B) :
  P ev -> wemits P (wcall ev f).
Proof.
  intros HP b. unfold wcall. destruct (f b) as [r b1]. simpl.
  now repeat constructor.
Qed.

Lemma wemits_lift {A} (P : WEvent -> Prop) (m : IO B A) :
  emits (fun ev => P (Core ev)) m -> wemits P (lift m).
Proof.
  intros Hm b. specialize (Hm b). unfold lift.
  destruct (m b) as [[r b1] t]. simpl in *.
  induction Hm; simpl; now constructor.
Qed.

Lemma wemits_bind {A C} P (m : WIO B A) (f : A -> WIO B C) :
  wemits P m -> (forall a, wemits P (f a)) -> wemits P (wbind m f).
Proof.
  intros Hm Hf b. unfold wbind. specialize (Hm b).
  destruct (m b) as [[[a|e] b1] t1]; simpl in *.
  - specialize (Hf a b1). destruct (f a b1) as [[r b2] t2]. simpl in *.
    apply Forall_app. now split.
  - exact Hm.
Qed.

Lemma wemits_try {A} P (m : WIO B A) (h : exn -> WIO B A) :
  wemits P m -> (forall e, wemits P (h e)) -> wemits P (wtry m h).
Proof.
  intros Hm Hh b. unfold wtry. specialize (Hm b).
  destruct (m b) as [[[a|e] b1] t1]; simpl in *.
  - exact Hm.
  - specialize (Hh e b1). destruct (h e b1) as [[r b2] t2]. simpl in *.
    apply Forall_app. now split.
Qed.

Lemma wquiet_navigations (t : list WEvent) :
  Forall wquiet t -> wnavigations t = [] /\ wsleeps t = [].
Proof.
  induction 1 as [|ev t Hev _ [IH1 IH2]]; [now split|].
  destruct ev as [[]| | |]; simpl in *; try contradiction; now split.
Qed.

Lemma window_scrolls_app (t1 t2 : list WEvent) :
  window_scrolls (t1 ++ t2) = window_scrolls t1 + window_scrolls t2.
Proof.
  induction t1 as [|ev t1 IH]; [reflexivity|].
  destruct ev as [ev|[]|s z|q n]; simpl; rewrite ?IH; reflexivity.
Qed.

End WIOLemmas.

(** ** Removing duplicate invitations *)

Lemma unique_loop_spec (invitations : list Invitation) :
  forall (seen : gset pystr) (unique processed : list Invitation),
  (forall j, In j processed -> invitation_key j <> [] ->
             invitation_key j ∈ seen) ->
  exists added,
    unique_loop invitations seen unique = unique ++ added /\
    sublist added invitations /\
    List.NoDup (List.map invitation_key added) /\
    (forall i, In i added -> invitation_key i <> [] /\
                             invitation_key i ∉ seen) /\
    (forall i, In i invitations -> invitation_key i <> [] ->
               invitation_key i ∈ seen \/
               In (invitation_key i) (List.map invitation_key added)) /\
    (forall i, In i added ->
       exists pre post,
         invitations = pre ++ i :: post /\
         Forall (fun j => invitation_key j <> invitation_key i)
                (processed ++ pre)).
Proof.
  induction invitations as [|inv rest IH]; intros seen unique processed Hseen.
  - exists []. simpl. rewrite app_nil_r.
    split; [reflexivity|]. split; [constructor|]. split; [constructor|].
    split; [now intros i Hi|]. split; [now intros i Hi|now intros i Hi].
  - simpl unique_loop.
    destruct (truthy (invitation_key inv)) eqn:Ht; simpl andb.
    + destruct (bool_decide (invitation_key inv ∈ seen)) eqn:Hd; simpl negb.
      * apply bool_decide_eq_true in Hd.
        destruct (IH seen unique (processed ++ [inv])) as
          (added & Heq & Hsub & Hnd & Hfresh & Hcov & Hfirst).
        { intros j Hj Hk. apply in_app_iff in Hj as [Hj|[<-|[]]];
            [now apply Hseen|exact Hd]. }
        exists added. split; [exact Heq|].
        split; [now apply sublist_cons|].
        split; [exact Hnd|]. split; [exact Hfresh|]. split.
        -- intros i [<-|Hi] Hk; [now left|now apply Hcov].
        -- intros i Hi. destruct (Hfirst i Hi) as (pre & post & -> & Hall).
           exists (inv :: pre), post. split; [reflexivity|].
           now rewrite <- app_assoc in Hall.
      * apply bool_decide_eq_false in Hd.
        destruct (IH ({[invitation_key inv]} ∪ seen) (unique ++ [inv])
                     (processed ++ [inv])) as
          (added & Heq & Hsub & Hnd & Hfresh & Hcov & Hfirst).
        { intros j Hj Hk. apply in_app_iff in Hj as [Hj|[<-|[]]].
          - apply elem_of_union. right. now apply Hseen.
          - apply elem_of_union. left. now apply elem_of_singleton. }
        assert (Hkey : invitation_key inv <> [])
          by (destruct (invitation_key inv); [discriminate|discriminate]).
        exists (inv :: added). split; [now rewrite Heq, <- app_assoc|].
        split; [now apply sublist_skip|]. split.
        { simpl. constructor; [|exact Hnd].
          intros Hin. apply in_map_iff in Hin as (j & Hjk & Hj).
          destruct (Hfresh j Hj) as [_ Hnot]. apply Hnot.
          apply elem_of_union. left. apply elem_of_singleton. exact Hjk. }
        split.
        { intros i [<-|Hi]; [now split|].
          destruct (Hfresh i Hi) as [Hk Hnot]. split; [exact Hk|].
          intros Hin. apply Hnot. apply elem_of_union. now right. }
        split.
        { intros i [<-|Hi] Hk; [right; now left|].
          destruct (Hcov i Hi Hk) as [Hin|Hin]; [|right; now right].
          apply elem_of_union in Hin as [Hin|Hin]; [|now left].
          apply elem_of_singleton in Hin. right. left. now symmetry. }
        intros i [<-|Hi].
        -- exists [], rest. split; [reflexivity|]. rewrite app_nil_r.
           apply Forall_forall. intros j Hj Hjk.
           apply list_elem_of_In in Hj. apply Hd. rewrite <- Hjk.
           apply Hseen; [exact Hj|]. now rewrite Hjk.
        -- destruct (Hfirst i Hi) as (pre & post & -> & Hall).
           exists (inv :: pre), post. split; [reflexivity|].
           now rewrite <- app_assoc in Hall.
    + destruct (IH seen unique (processed ++ [inv])) as
        (added & Heq & Hsub & Hnd & Hfresh & Hcov & Hfirst).
      { intros j Hj Hk. apply in_app_iff in Hj as [Hj|[<-|[]]];
          [now apply Hseen|].
        destruct (invitation_key inv); [now contradiction Hk|discriminate]. }
      exists added. split; [exact Heq|].
      split; [now apply sublist_cons|].
      split; [exact Hnd|]. split; [exact Hfresh|]. split.
      * intros i [<-|Hi] Hk; [|now apply Hcov].
        destruct (invitation_key inv); [now contradiction Hk|discriminate].
      * intros i Hi. destruct (Hfirst i Hi) as (pre & post & -> & Hall).
        exists (inv :: pre), post. split; [reflexivity|].
        now rewrite <- app_assoc in Hall.
Qed.

Section NetworkFacts.
Context {B : Type} `{Page B} `{SearchPage B}.

Lemma pending_invitations_returns (b : B) count invitations b' t :
  get_pending_invitations b
  = (Ok (InvitationsSuccess count invitations), b', t) ->
  exists items b2,
    page_evaluate_invitations b2 = (Ok items, b') /\
    invitations = unique_loop items ∅ [] /\
    count = length invitations.
Proof.
  unfold get_pending_invitations, wtry, wbind, wcall, lift, wsleep, lift,
    goto, detect_rate_limit, call, sleep, wret.
  intros E.
  destruct (page_goto _ b) as [[[]|e1] b1]; cbv beta iota in E;
    [|inversion E].
  destruct (util_detect_rate_limit b1) as [[[]|e2] b2]; cbv beta iota in E;
    [|inversion E].
  destruct (page_evaluate_invitations b2) as [[items|e3] b3] eqn:Ev;
    cbv beta iota in E; [|inversion E].
  inversion E; subst. exists items, b2. repeat split. exact Ev.
Qed.

Lemma pending_invitations_total (b : B) :
  exists r, wresult_outcome (get_pending_invitations b) = Ok r.
Proof.
  unfold get_pending_invitations, wtry.
  destruct (wbind _ _ b) as [[[r|e] b1] t1]; simpl; eauto.
Qed.

Lemma scroll_rounds_step (n : nat) (b : B) :
  scroll_rounds (S n) b
  = match page_evaluate_scroll b with
    | (Ok _, b1) =>
        (wresult_outcome (scroll_rounds n b1), snd (fst (scroll_rounds n b1)),
         WEvaluate JsScrollWindow :: Core (EvSleep (1 # 1))
         :: wtrace (scroll_rounds n b1))
    | (Raise e, b1) => (Raise e, b1, [WEvaluate JsScrollWindow])
    end.
Proof.
  simpl scroll_rounds. unfold wbind, wcall, wsleep, lift, sleep.
  destruct (page_evaluate_scroll b) as [[[]|e] b1]; [|reflexivity].
  now destruct (scroll_rounds n b1) as [[r b2] t2].
Qed.

Lemma scroll_rounds_scrolls (n : nat) (b : B) :
  window_scrolls (wtrace (scroll_rounds n b)) <= n /\
  (forall b' t, scroll_rounds n b = (Ok tt, b', t) ->
                window_scrolls t = n /\
                wsleeps t = repeat (1 # 1) n).
Proof.
  revert b. induction n as [|n IH]; intros b.
  - split; [simpl; lia|].
    intros b' t E. inversion E; subst. now split.
  - rewrite scroll_rounds_step.
    destruct (page_evaluate_scroll b) as [[[]|e] b1].
    + destruct (IH b1) as [IHle IHeq].
      destruct (scroll_rounds n b1) as [[r b2] t2] eqn:E.
      unfold wtrace, wresult_outcome in *. simpl fst in *. simpl snd in *.
      split; [simpl; lia|]. intros b' t E'. inversion E'; subst.
      destruct (IHeq _ _ eq_refl) as [Hw Hs]. simpl.
      now rewrite Hw, Hs.
    + split; [simpl; lia|]. intros b' t E'. inversion E'.
Qed.

Lemma scroll_count_bound (limit : Z) :
  scroll_count limit <= 10 /\ ((limit < 10)%Z -> scroll_count limit = 0).
Proof.
  unfold scroll_count. split; [lia|].
  intros Hlt.
  pose proof (Z.div_lt_upper_bound limit 10 1 ltac:(lia) ltac:(lia)). lia.
Qed.

End NetworkFacts.

Section ConnectionsFacts.
Context {B : Type} `{Page B} `{SearchPage B}.

Lemma wsleeps_app (t1 t2 : list WEvent) :
  wsleeps (t1 ++ t2) = wsleeps t1 ++ wsleeps t2.
Proof.
  induction t1 as [|ev t1 IH]; [reflexivity|].
  destruct ev as [[]| | |]; simpl; rewrite ?IH; reflexivity.
Qed.

Lemma lift_scrolls {A} (m : IO B A) (b : B) :
  window_scrolls (wtrace (lift m b)) = 0.
Proof.
  unfold lift, wtrace. destruct (m b) as [[r b1] t]. simpl.
  induction t as [|ev t IH]; [reflexivity|exact IH].
Qed.

Lemma wbind_scrolls_le {A C} (m : WIO B A) (f : A -> WIO B C) (b : B) n k :
  window_scrolls (wtrace (m b)) <= n ->
  (forall a b1, window_scrolls (wtrace (f a b1)) <= k) ->
  window_scrolls (wtrace (wbind m f b)) <= n + k.
Proof.
  intros Hm Hf. unfold wbind, wtrace in *.
  destruct (m b) as [[[a|e] b1] t1]; simpl in *; [|lia].
  specialize (Hf a b1). destruct (f a b1) as [[r b2] t2]. simpl in *.
  rewrite window_scrolls_app. lia.
Qed.

Lemma wtry_scrolls_le {A} (body : WIO B A) (handler : exn -> WIO B A)
    (b : B) n :
  window_scrolls (wtrace (body b)) <= n ->
  (forall e b1, window_scrolls (wtrace (handler e b1)) = 0) ->
  window_scrolls (wtrace (wtry body handler b)) <= n.
Proof.
  intros Hm Hh. unfold wtry, wtrace in *.
  destruct (body b) as [[[a|e] b1] t1]; simpl in *; [lia|].
  specialize (Hh e b1). destruct (handler e b1) as [[r b2] t2]. simpl in *.
  rewrite window_scrolls_app. lia.
Qed.

Lemma get_connections_scrolls (limit : Z) (b : B) :
  window_scrolls (wtrace (get_connections limit b)) <= scroll_count limit.
Proof.
  unfold get_connections.
  apply wtry_scrolls_le; [|reflexivity].
  apply Nat.le_trans with (0 + (0 + (0 + (scroll_count limit + 0))));
    [|lia].
  apply wbind_scrolls_le; [now rewrite lift_scrolls|]. intros _ b1.
  apply wbind_scrolls_le; [now rewrite lift_scrolls|]. intros _ b2.
  apply wbind_scrolls_le;
    [unfold wsleep; now rewrite lift_scrolls|]. intros _ b3.
  apply wbind_scrolls_le; [apply scroll_rounds_scrolls|]. intros _ b4.
  unfold wbind, wcall, wret, wtrace.
  destruct (page_evaluate_connections limit b4) as [[conns|e] b5];
    [|simpl; lia].
  destruct (page_evaluate_count b5) as [[total|e] b6]; simpl; lia.
Qed.

Lemma get_connections_total (limit : Z) (b : B) :
  exists r, wresult_outcome (get_connections limit b) = Ok r.
Proof.
  unfold get_connections, wtry.
  destruct (wbind _ _ b) as [[[r|e] b1] t1]; simpl; eauto.
Qed.

Lemma get_connections_returns (limit : Z) (b : B)
    total retrieved connections b' t :
  get_connections limit b
  = (Ok (ConnectionsSuccess total retrieved connections), b', t) ->
  window_scrolls t = scroll_count limit /\
  retrieved = length connections /\
  wsleeps t = (2 # 1) :: repeat (1 # 1) (scroll_count limit).
Proof.
  unfold get_connections, wtry, wbind, wcall, lift, wsleep, lift,
    goto, detect_rate_limit, call, sleep, wret.
  intros E.
  destruct (page_goto _ b) as [[[]|e1] b1]; cbv beta iota in E;
    [|inversion E].
  destruct (util_detect_rate_limit b1) as [[[]|e2] b2]; cbv beta iota in E;
    [|inversion E].
  destruct (scroll_rounds_scrolls (scroll_count limit) b2) as [_ Heq].
  destruct (scroll_rounds (scroll_count limit) b2) as [[[[]|e3] b3] t3];
    cbv beta iota in E; [|inversion E].
  destruct (Heq _ _ eq_refl) as [Hw Hs].
  destruct (page_evaluate_connections limit b3) as [[conns|e4] b4];
    cbv beta iota in E; [|inversion E].
  destruct (page_evaluate_count b4) as [[tc|e5] b5];
    cbv beta iota in E; [|inversion E].
  inversion E; subst. clear E.
  cbn [List.map app window_scrolls wsleeps].
  rewrite window_scrolls_app, wsleeps_app, Hs, Hw.
  cbn [window_scrolls wsleeps app].
  rewrite app_nil_r. repeat split; lia.
Qed.

End ConnectionsFacts.

(** ** The search pages *)

Section SearchFacts.
Context {B : Type} `{Page B} `{SearchPage B}.

Lemma goto_then_run {C} (target : pystr) (f : unit -> WIO B C) (b : B) :
  wbind (lift (goto target)) f b
  = match page_goto target b with
    | (Ok _, b1) =>
        (wresult_outcome (f tt b1), snd (fst (f tt b1)),
         Core (EvGoto target) :: wtrace (f tt b1))
    | (Raise e, b1) => (Raise e, b1, [Core (EvGoto target)])
    end.
Proof.
  unfold wbind, lift, goto, call.
  destruct (page_goto target b) as [[[]|e] b1]; [|reflexivity].
  now destruct (f tt b1) as [[r b2] t2].
Qed.

Lemma wbind_returns {A C} (Q : C -> Prop) (m : WIO B A) (f : A -> WIO B C) :
  (forall a b c b' t, f a b = (Ok c, b', t) -> Q c) ->
  forall b c b' t, wbind m f b = (Ok c, b', t) -> Q c.
Proof.
  intros Hf b c b' t. unfold wbind.
  destruct (m b) as [[[a|e] b1] t1]; [|discriminate].
  destruct (f a b1) as [[r b2] t2] eqn:E. intros [= -> -> <-].
  exact (Hf _ _ _ _ _ E).
Qed.

Ltac wquiet_run :=
  match goal with
  | |- Forall wquiet (wtrace (?m ?b)) =>
      generalize b; change (wemits wquiet m)
  end;
  repeat first
    [ apply wemits_ret
    | apply wemits_raise
    | apply wemits_call; exact I
    | apply wemits_lift; apply emits_call; exact I
    | apply wemits_bind; [|intros ?]
    | apply wemits_try; [|intros ?]
    | unfold wignore_timeout; destruct (is_timeout _) ].

Ltac returns_classified :=
  repeat (apply wbind_returns; intros ?);
  unfold wret; intros ? ? ? ? [= <- _ _]; eauto.

Lemma posts_page_run (target : pystr) (b : B) :
  exists r b' t,
    _extract_posts_page target b = (r, b', Core (EvGoto target) :: t) /\
    Forall wquiet t /\
    (forall text, r = Ok text -> exists raw, text = classify_raw raw) /\
    (forall e b1, page_goto target b = (Raise e, b1) ->
                  r = Raise e /\ b' = b1 /\ t = []).
Proof.
  assert (Hret : forall text b' t,
            _extract_posts_page target b = (Ok text, b', t) ->
            exists raw, text = classify_raw raw).
  { intros text b' t. unfold _extract_posts_page. revert b text b' t.
    returns_classified. }
  revert Hret. unfold _extract_posts_page. rewrite goto_then_run.
  destruct (page_goto target b) as [[[]|e] b1]; intros Hret.
  - eexists _, _, _. split; [reflexivity|]. split; [wquiet_run|].
    split; [|intros ? ? [=]].
    intros text E. eapply (Hret text _ _). rewrite <- E. reflexivity.
  - eexists _, _, _. split; [reflexivity|]. split; [constructor|].
    split; [intros ? [=]|]. now intros ? ? [= <- <-].
Qed.

Lemma people_page_run (target : pystr) (b : B) :
  exists r b' t,
    _extract_people_search_page target b
    = (r, b', Core (EvGoto target) :: t) /\
    Forall wquiet t /\
    (forall text, r = Ok text -> exists raw, text = classify_raw raw) /\
    (forall e b1, page_goto target b = (Raise e, b1) ->
                  r = Raise e /\ b' = b1 /\ t = []).
Proof.
  assert (Hret : forall text b' t,
            _extract_people_search_page target b = (Ok text, b', t) ->
            exists raw, text = classify_raw raw).
  { intros text b' t. unfold _extract_people_search_page.
    revert b text b' t. returns_classified. }
  revert Hret. unfold _extract_people_search_page. rewrite goto_then_run.
  destruct (page_goto target b) as [[[]|e] b1]; intros Hret.
  - eexists _, _, _. split; [reflexivity|]. split; [wquiet_run|].
    split; [|intros ? ? [=]].
    intros text E. eapply (Hret text _ _). rewrite <- E. reflexivity.
  - eexists _, _, _. split; [reflexivity|]. split; [constructor|].
    split; [intros ? [=]|]. now intros ? ? [= <- <-].
Qed.

Lemma add_param_run {C} (params name : pystr) (wrap : pystr -> pystr)
    (value : option pystr) (f : pystr -> WIO B C) (b : B) :
  wbind (add_param params name wrap value) f b
  = match quoted_param params name wrap value with
    | Ok p => f p b
    | Raise e => (Raise e, b, [])
    end.
Proof.
  unfold add_param, quoted_param. destruct value as [v|];
    [|apply wret_bind].
  destruct (truthy v); [|apply wret_bind].
  rewrite wbind_assoc, wpure_bind.
  destruct (quote_plus (wrap v)) as [q|e]; [|reflexivity].
  apply wret_bind.
Qed.

Lemma search_posts_run (keywords : pystr) (date_posted sort_by : option pystr)
    (b : B) :
  search_posts keywords date_posted sort_by b
  = match posts_url keywords date_posted sort_by with
    | Raise e => (Raise e, b, [])
    | Ok target =>
        wbind (_extract_posts_page target)
              (fun text =>
                 wret {| url := target;
                         sections := single_section (py "posts") text;
                         pages_visited := [target];
                         sections_requested := [py "posts"] |}) b
    end.
Proof.
  unfold search_posts, posts_url. rewrite wpure_bind.
  destruct (quote_plus keywords) as [qk|e]; [|reflexivity].
  rewrite add_param_run.
  rewrite <- !app_assoc.
  destruct (quoted_param _ (py "datePosted") _ _) as [p1|e]; [|reflexivity].
  rewrite add_param_run.
  destruct (quoted_param _ (py "sortBy") _ _) as [p2|e]; reflexivity.
Qed.

Lemma search_people_run (keywords : pystr) (network : option (list pystr))
    (location current_company : option pystr) (b : B) :
  search_people keywords network location current_company b
  = match people_url keywords network location current_company with
    | Raise e => (Raise e, b, [])
    | Ok target =>
        wbind (_extract_people_search_page target)
              (fun text =>
                 wret {| url := target;
                         sections := single_section (py "people") text;
                         pages_visited := [target];
                         sections_requested := [py "people"] |}) b
    end.
Proof.
  unfold search_people, people_url. rewrite wpure_bind.
  destruct (quote_plus keywords) as [qk|e]; [|reflexivity].
  cbv zeta.
  destruct network as [[|n ns]|].
  - rewrite wret_bind, add_param_run.
    destruct (quoted_param _ (py "geoUrn") _ _) as [p1|e]; [|reflexivity].
    rewrite add_param_run.
    destruct (quoted_param _ (py "currentCompany") _ _) as [p2|e];
      reflexivity.
  - rewrite wbind_assoc, wpure_bind.
    destruct (quote_plus (network_json (n :: ns))) as [qn|e]; [|reflexivity].
    rewrite wret_bind, add_param_run.
    destruct (quoted_param _ (py "geoUrn") _ _) as [p1|e]; [|reflexivity].
    rewrite add_param_run.
    destruct (quoted_param _ (py "currentCompany") _ _) as [p2|e];
      reflexivity.
  - rewrite wret_bind, add_param_run.
    destruct (quoted_param _ (py "geoUrn") _ _) as [p1|e]; [|reflexivity].
    rewrite add_param_run.
    destruct (quoted_param _ (py "currentCompany") _ _) as [p2|e];
      reflexivity.
Qed.

(** A [_extract_posts_page] that returns has done exactly this, and what it
    returns is the classification of what its last call, the script, gave. *)
Lemma posts_page_returns (target : pystr) (b : B) (text : pystr) (b' : B)
    (t : list WEvent) :
  _extract_posts_page target b = (Ok text, b', t) ->
  (exists raw b2,
     page_evaluate_wstr JsPostsInnerText b2 = (Ok raw, b') /\
     text = classify_raw raw) /\
  t = [Core (EvGoto target); Core EvDetectRateLimit;
       Core (EvWaitForSelector
               (py ".search-results-container, .scaffold-finite-scroll__content"));
       Core EvHandleModalClose; WScrollToBottom (8 # 10) 8;
       WEvaluate JsPostsInnerText].
Proof.
  unfold _extract_posts_page, wtry, wbind, wcall, lift, goto,
    detect_rate_limit, wait_for_selector, handle_modal_close, call, wret.
  intros E.
  destruct (page_goto target b) as [[[]|e1] b1]; cbv beta iota in E;
    [|inversion E].
  destruct (util_detect_rate_limit b1) as [[[]|e2] b2]; cbv beta iota in E;
    [|inversion E].
  destruct (page_wait_for_selector _ b2) as [[[]|e3] b3]; cbv beta iota in E;
    [|unfold wignore_timeout, wret, wraise in E;
      destruct (is_timeout e3); cbv beta iota in E; [|inversion E]];
    (destruct (util_handle_modal_close b3) as [[[]|e4] b4];
       cbv beta iota in E; [|inversion E]);
    (destruct (util_scroll_to_bottom_with (8 # 10) 8 b4) as [[[]|e5] b5];
       cbv beta iota in E; [|inversion E]);
    (destruct (page_evaluate_wstr JsPostsInnerText b5) as [[raw|e6] b6] eqn:Er;
       cbv beta iota in E; [|inversion E]);
    inversion E; subst; (split; [now exists raw, b5|reflexivity]).
Qed.

(** A [_extract_people_search_page] that returns has done exactly this, and what it
    returns is the classification of what its last call, the script, gave. *)
Lemma people_page_returns (target : pystr) (b : B) (text : pystr) (b' : B)
    (t : list WEvent) :
  _extract_people_search_page target b = (Ok text, b', t) ->
  (exists raw b2,
     page_evaluate_wstr JsPeopleResults b2 = (Ok raw, b') /\
     text = classify_raw raw) /\
  t = [Core (EvGoto target); Core EvDetectRateLimit;
       Core (EvWaitForSelector
               (py ".search-results-container, .reusable-search__entity-result-list"));
       Core EvHandleModalClose; WScrollToBottom (8 # 10) 5;
       WEvaluate JsPeopleResults].
Proof.
  unfold _extract_people_search_page, wtry, wbind, wcall, lift, goto,
    detect_rate_limit, wait_for_selector, handle_modal_close, call, wret.
  intros E.
  destruct (page_goto target b) as [[[]|e1] b1]; cbv beta iota in E;
    [|inversion E].
  destruct (util_detect_rate_limit b1) as [[[]|e2] b2]; cbv beta iota in E;
    [|inversion E].
  destruct (page_wait_for_selector _ b2) as [[[]|e3] b3]; cbv beta iota in E;
    [|unfold wignore_timeout, wret, wraise in E;
      destruct (is_timeout e3); cbv beta iota in E; [|inversion E]];
    (destruct (util_handle_modal_close b3) as [[[]|e4] b4];
       cbv beta iota in E; [|inversion E]);
    (destruct (util_scroll_to_bottom_with (8 # 10) 5 b4) as [[[]|e5] b5];
       cbv beta iota in E; [|inversion E]);
    (destruct (page_evaluate_wstr JsPeopleResults b5) as [[raw|e6] b6] eqn:Er;
       cbv beta iota in E; [|inversion E]);
    inversion E; subst; (split; [now exists raw, b5|reflexivity]).
Qed.

End SearchFacts.

Lemma count_char_app (c : char) (s1 s2 : pystr) :
  count_char c (s1 ++ s2) = count_char c s1 + count_char c s2.
Proof. induction s1 as [|d s1 IH]; simpl; [reflexivity|rewrite IH; lia]. Qed.

Lemma quoted_has_no_separator (q : pystr) :
  forallb param_char q = true ->
  count_char 38%N q = 0 /\ count_char 61%N q = 0 /\ forallb query_char q = true.
Proof.
  induction q as [|c q IH]; [now repeat split|].
  cbn [forallb count_char]. intros Hq. apply andb_true_iff in Hq as [Hc Hq].
  destruct (IH Hq) as (-> & -> & ->). unfold query_char. rewrite Hc.
  destruct (N.eqb_spec c 38) as [->|_]; [discriminate Hc|].
  destruct (N.eqb_spec c 61) as [->|_]; [discriminate Hc|].
  now repeat split.
Qed.

Lemma param_separators (params name q : pystr) :
  forallb param_char name = true ->
  forallb param_char q = true ->
  count_char 38%N (params ++ py "&" ++ name ++ py "=" ++ q)
  = count_char 38%N params + 1 /\
  count_char 61%N (params ++ py "&" ++ name ++ py "=" ++ q)
  = count_char 61%N params + 1 /\
  (forallb query_char params = true ->
   forallb query_char (params ++ py "&" ++ name ++ py "=" ++ q) = true).
Proof.
  intros Hname Hq.
  destruct (quoted_has_no_separator _ Hname) as (Hn1 & Hn2 & Hn3).
  destruct (quoted_has_no_separator _ Hq) as (Hq1 & Hq2 & Hq3).
  rewrite !count_char_app, Hn1, Hn2, Hq1, Hq2.
  split; [reflexivity|]. split; [reflexivity|].
  intros Hp. rewrite !forallb_app.
  repeat (apply andb_true_iff; split); try assumption; reflexivity.
Qed.

Lemma quoted_param_separators (params name : pystr) (wrap : pystr -> pystr)
    (value : option pystr) (p : pystr) :
  forallb param_char name = true ->
  quoted_param params name wrap value = Ok p ->
  count_char 38%N p = count_char 38%N params + given value /\
  count_char 61%N p = count_char 61%N params + given value /\
  (forallb query_char params = true -> forallb query_char p = true).
Proof.
  intros Hname. unfold quoted_param, given.
  assert (Hsame : forall r : pystr, Ok params = Ok r ->
            count_char 38%N r = count_char 38%N params + 0 /\
            count_char 61%N r = count_char 61%N params + 0 /\
            (forallb query_char params = true ->
             forallb query_char r = true)).
  { intros r E. assert (r = params) by congruence. subst r.
    rewrite !Nat.add_0_r. now repeat split. }
  destruct value as [v|]; [|apply Hsame].
  destruct (truthy v); [|apply Hsame].
  destruct (quote_plus (wrap v)) as [q|e] eqn:Eq; [|discriminate].
  intros E.
  assert (Hp : p = params ++ py "&" ++ name ++ py "=" ++ q) by congruence.
  rewrite Hp.
  exact (param_separators params name q Hname (quote_plus_chars _ _ Eq)).
Qed.

(** * Further properties of the search and network methods *)

(** X21: when [get_pending_invitations] succeeds, no two of the invitations
    it returns have the same key (the profile URL, or the name when the URL
    is empty), none has an empty key, and [count] is their number. *)
Theorem X21_invitations_have_distinct_keys (B : Type) (P : Page B)
    (S : SearchPage B) (b : B) (count : nat) (invitations : list Invitation)
    (b' : B) (t : list WEvent) :
  get_pending_invitations b
  = (Ok (InvitationsSuccess count invitations), b', t) ->
  count = length invitations /\
  List.NoDup (List.map invitation_key invitations) /\
  (forall i, In i invitations -> invitation_key i <> []).
Proof.
  intros E.
  destruct (pending_invitations_returns _ _ _ _ _ E)
    as (items & b2 & _ & -> & ->).
  destruct (unique_loop_spec items ∅ [] [])
    as (added & Hu & _ & Hnd & Hne & _); [intros j []|].
  simpl in Hu. rewrite Hu. split; [reflexivity|]. split; [exact Hnd|].
  intros i Hi. exact (proj1 (Hne i Hi)).
Qed.

(** X21 on a page that shows Ana twice, Bo, and a card without name and
    link: two invitations are returned. *)
Lemma X21_witness :
  exists invitations b' t,
    get_pending_invitations invitations_page
    = (Ok (InvitationsSuccess 2 invitations), b', t) /\
    List.NoDup (List.map invitation_key invitations).
Proof.
  destruct (get_pending_invitations invitations_page)
    as [[[[count invitations|m]|e] b'] t] eqn:E;
    [|vm_compute in E; discriminate..].
  destruct (X21_invitations_have_distinct_keys
              WScripted wscripted_page wscripted_search _ _ _ _ _ E)
    as (Hc & Hnd & _).
  assert (Hcount : count = 2) by (vm_compute in E; congruence).
  exists invitations, b', t. rewrite <- Hcount. split; [reflexivity|exact Hnd].
Defined.

(** X22: the invitations [get_pending_invitations] returns are taken from
    the list the page script returned, in the same order; every returned
    one is the first of that list with its key, and every invitation of
    that list with a non-empty key has its key among the returned ones. *)
Theorem X22_invitations_keep_first_of_each_key (B : Type) (P : Page B)
    (S : SearchPage B) (b : B) (count : nat) (invitations : list Invitation)
    (b' : B) (t : list WEvent) :
  get_pending_invitations b
  = (Ok (InvitationsSuccess count invitations), b', t) ->
  exists items b2,
    page_evaluate_invitations b2 = (Ok items, b') /\
    sublist invitations items /\
    (forall i, In i items -> invitation_key i <> [] ->
               In (invitation_key i) (List.map invitation_key invitations)) /\
    (forall i, In i invitations ->
       exists pre post,
         items = pre ++ i :: post /\
         Forall (fun j => invitation_key j <> invitation_key i) pre).
Proof.
  intros E.
  destruct (pending_invitations_returns _ _ _ _ _ E)
    as (items & b2 & Hev & -> & _).
  exists items, b2. split; [exact Hev|].
  destruct (unique_loop_spec items ∅ [] [])
    as (added & Hu & Hsub & _ & _ & Hall & Hfirst); [intros j []|].
  simpl in Hu. rewrite Hu. split; [exact Hsub|]. split.
  - intros i Hi Hk. destruct (Hall i Hi Hk) as [Hin|Hin]; [|exact Hin].
    now apply not_elem_of_empty in Hin.
  - intros i Hi. destruct (Hfirst i Hi) as (pre & post & Heq & Hpre).
    now exists pre, post.
Qed.

(** X22 on the same page: what is returned is a sublist of the four cards
    the page has. *)
Lemma X22_witness :
  exists count invitations b' t,
    get_pending_invitations invitations_page
    = (Ok (InvitationsSuccess count invitations), b', t) /\
    exists items b2,
      page_evaluate_invitations b2 = (Ok items, b') /\
      sublist invitations items /\
      (forall i, In i items -> invitation_key i <> [] ->
                 In (invitation_key i) (List.map invitation_key invitations)) /\
      (forall i, In i invitations ->
         exists pre post,
           items = pre ++ i :: post /\
           Forall (fun j => invitation_key j <> invitation_key i) pre).
Proof.
  destruct (get_pending_invitations invitations_page)
    as [[[[count invitations|m]|e] b'] t] eqn:E;
    [|vm_compute in E; discriminate..].
  exists count, invitations, b', t. split; [reflexivity|].
  exact (X22_invitations_keep_first_of_each_key
           WScripted wscripted_page wscripted_search _ _ _ _ _ E).
Defined.

(** X23: [get_connections] never raises, and scrolls the window at most
    [min(limit // 10, 10)] times: never more than ten times, and not at all
    for a limit below ten.  When it succeeds it has scrolled exactly that
    often, sleeping two seconds once and one second after each scroll, and
    [retrieved] is the number of connections returned. *)
Theorem X23_connections_scroll_at_most_ten_times (B : Type) (P : Page B)
    (S : SearchPage B) (limit : Z) (b : B) :
  (exists r, wresult_outcome (get_connections limit b) = Ok r) /\
  window_scrolls (wtrace (get_connections limit b)) <= scroll_count limit /\
  scroll_count limit <= 10 /\
  ((limit < 10)%Z -> scroll_count limit = 0) /\
  (forall total retrieved connections b' t,
     get_connections limit b
     = (Ok (ConnectionsSuccess total retrieved connections), b', t) ->
     window_scrolls t = scroll_count limit /\
     retrieved = length connections /\
     wsleeps t = (2 # 1) :: repeat (1 # 1) (scroll_count limit)).
Proof.
  split; [apply get_connections_total|].
  split; [apply get_connections_scrolls|].
  split; [apply scroll_count_bound|].
  split; [apply scroll_count_bound|].
  intros total retrieved connections b' t E.
  exact (get_connections_returns _ _ _ _ _ _ _ E).
Qed.

(** X23 for a limit of 45 on a page with one connection: four scrolls. *)
Lemma X23_witness :
  exists total retrieved connections b' t,
    get_connections 45 connections_page
    = (Ok (ConnectionsSuccess total retrieved connections), b', t) /\
    window_scrolls t = 4 /\ retrieved = 1.
Proof.
  destruct (get_connections 45 connections_page)
    as [[[[total retrieved connections|m]|e] b'] t] eqn:E;
    [|vm_compute in E; discriminate..].
  exists total, retrieved, connections, b', t. split; [reflexivity|].
  destruct (X23_connections_scroll_at_most_ten_times
              WScripted wscripted_page wscripted_search 45 connections_page)
    as (_ & _ & _ & _ & Hok).
  destruct (Hok _ _ _ _ _ E) as (Hw & Hr & _).
  split; [rewrite Hw; reflexivity|].
  rewrite Hr. vm_compute in E. now inversion E.
Defined.

Section SearchRuns.
Context {B : Type} `{Page B} `{SearchPage B}.

Lemma search_run {C} (page : pystr -> WIO B pystr) (mk : pystr -> pystr -> C)
    (target : pystr) (b : B) :
  (exists r b' t,
     page target b = (r, b', Core (EvGoto target) :: t) /\
     Forall wquiet t /\
     (forall text, r = Ok text -> exists raw, text = classify_raw raw) /\
     (forall e b1, page_goto target b = (Raise e, b1) ->
                   r = Raise e /\ b' = b1 /\ t = [])) ->
  (forall res b' t,
     wbind (page target) (fun text => wret (mk target text)) b
     = (Ok res, b', t) ->
     wnavigations t = [target] /\ wsleeps t = [] /\
     exists raw, res = mk target (classify_raw raw)) /\
  (forall e b1,
     page_goto target b = (Raise e, b1) ->
     wbind (page target) (fun text => wret (mk target text)) b
     = (Raise e, b1, [Core (EvGoto target)])).
Proof.
  intros (r & b2 & t2 & Hrun & Hq & Hret & Hfail).
  rewrite wbind_ret_run, Hrun. unfold wresult_outcome, wtrace. simpl.
  destruct (wquiet_navigations _ Hq) as [Hn Hs]. split.
  - intros res b' t E. destruct r as [text|e]; [|discriminate].
    inversion E; subst. simpl. rewrite Hn, Hs.
    destruct (Hret text eq_refl) as [raw ->]. repeat split. now exists raw.
  - intros e b1 Hgo. destruct (Hfail e b1 Hgo) as (-> & -> & ->).
    reflexivity.
Qed.

End SearchRuns.

(** X24: [search_posts] loads one page, the URL it builds from its
    arguments, once and without sleeping: there is no second attempt.
    When it returns it has done exactly six things: load the page, check
    the rate limit, wait for the results, close a modal, scroll, and run
    the script that reads the results.  The result names that URL as [url]
    and as the only page visited, and its section ["posts"], present when
    the text is not empty, is the classification of what that script
    returned: the cleaned text, or the rate-limit sentinel. *)
Theorem X24_search_posts_loads_once (B : Type) (P : Page B)
    (S : SearchPage B) (keywords : pystr) (date_posted sort_by : option pystr)
    (b : B) (res : ScrapeResult) (b' : B) (t : list WEvent) :
  search_posts keywords date_posted sort_by b = (Ok res, b', t) ->
  posts_url keywords date_posted sort_by = Ok (url res) /\
  wnavigations t = [url res] /\
  wsleeps t = [] /\
  pages_visited res = [url res] /\
  sections_requested res = [py "posts"] /\
  (exists raw b2,
     page_evaluate_wstr JsPostsInnerText b2 = (Ok raw, b') /\
     sections res = single_section (py "posts") (classify_raw raw)) /\
  t = [Core (EvGoto (url res)); Core EvDetectRateLimit;
       Core (EvWaitForSelector
               (py ".search-results-container, .scaffold-finite-scroll__content"));
       Core EvHandleModalClose; WScrollToBottom (8 # 10) 8;
       WEvaluate JsPostsInnerText].
Proof.
  rewrite search_posts_run.
  destruct (posts_url keywords date_posted sort_by) as [target|e];
    [|discriminate].
  rewrite wbind_ret_run.
  destruct (_extract_posts_page target b) as [[[text|e] b2] t2] eqn:Ep;
    [|discriminate].
  unfold wresult_outcome, wtrace. cbn [fst snd]. intros E.
  assert (Hres : res = {| url := target;
                          sections := single_section (py "posts") text;
                          pages_visited := [target];
                          sections_requested := [py "posts"] |})
    by congruence.
  assert (Hb : b2 = b') by congruence.
  assert (Ht : t2 = t) by congruence.
  destruct (posts_page_returns _ _ _ _ _ Ep) as ((raw & b3 & Hev & Htext) & Htr).
  rewrite Hres, <- Ht, Htr, <- Hb. cbn [url sections pages_visited
                                          sections_requested].
  repeat split. exists raw, b3. split; [exact Hev|now rewrite Htext].
Qed.

(** X24 on a result page that reads ["3 posts"]. *)
Lemma X24_witness :
  exists res b' t,
    search_posts (py "rocq jobs") (Some (py "past-week")) None
      (results_page (py "3 posts")) = (Ok res, b', t) /\
    wnavigations t = [url res] /\
    pages_visited res = [url res].
Proof.
  destruct (search_posts (py "rocq jobs") (Some (py "past-week")) None
              (results_page (py "3 posts")))
    as [[[res|e] b'] t] eqn:E; [|vm_compute in E; discriminate].
  exists res, b', t. split; [reflexivity|].
  destruct (X24_search_posts_loads_once
              WScripted wscripted_page wscripted_search _ _ _ _ _ _ _ E)
    as (_ & Hn & _ & Hp & _).
  split; assumption.
Defined.

(** X25: [search_people] loads one page, the URL it builds from its
    arguments, once and without sleeping: there is no second attempt.
    When it returns it has done exactly six things: load the page, check
    the rate limit, wait for the results, close a modal, scroll, and run
    the script that reads the person cards.  The result names that URL as [url]
    and as the only page visited, and its section ["people"], present when
    the text is not empty, is the classification of what that script
    returned: the cleaned text, or the rate-limit sentinel. *)
Theorem X25_search_people_loads_once (B : Type) (P : Page B)
    (S : SearchPage B) (keywords : pystr) (network : option (list pystr))
    (location current_company : option pystr)
    (b : B) (res : ScrapeResult) (b' : B) (t : list WEvent) :
  search_people keywords network location current_company b = (Ok res, b', t) ->
  people_url keywords network location current_company = Ok (url res) /\
  wnavigations t = [url res] /\
  wsleeps t = [] /\
  pages_visited res = [url res] /\
  sections_requested res = [py "people"] /\
  (exists raw b2,
     page_evaluate_wstr JsPeopleResults b2 = (Ok raw, b') /\
     sections res = single_section (py "people") (classify_raw raw)) /\
  t = [Core (EvGoto (url res)); Core EvDetectRateLimit;
       Core (EvWaitForSelector
               (py ".search-results-container, .reusable-search__entity-result-list"));
       Core EvHandleModalClose; WScrollToBottom (8 # 10) 5;
       WEvaluate JsPeopleResults].
Proof.
  rewrite search_people_run.
  destruct (people_url keywords network location current_company) as [target|e];
    [|discriminate].
  rewrite wbind_ret_run.
  destruct (_extract_people_search_page target b) as [[[text|e] b2] t2] eqn:Ep;
    [|discriminate].
  unfold wresult_outcome, wtrace. cbn [fst snd]. intros E.
  assert (Hres : res = {| url := target;
                          sections := single_section (py "people") text;
                          pages_visited := [target];
                          sections_requested := [py "people"] |})
    by congruence.
  assert (Hb : b2 = b') by congruence.
  assert (Ht : t2 = t) by congruence.
  destruct (people_page_returns _ _ _ _ _ Ep) as ((raw & b3 & Hev & Htext) & Htr).
  rewrite Hres, <- Ht, Htr, <- Hb. cbn [url sections pages_visited
                                          sections_requested].
  repeat split. exists raw, b3. split; [exact Hev|now rewrite Htext].
Qed.

(** X25 on a result page that reads ["Ana"]. *)
Lemma X25_witness :
  exists res b' t,
    search_people (py "recruiter") (Some [py "S"; py "O"]) None None
      (results_page (py "Ana")) = (Ok res, b', t) /\
    wnavigations t = [url res] /\
    pages_visited res = [url res].
Proof.
  destruct (search_people (py "recruiter") (Some [py "S"; py "O"]) None None
              (results_page (py "Ana")))
    as [[[res|e] b'] t] eqn:E; [|vm_compute in E; discriminate].
  exists res, b', t. split; [reflexivity|].
  destruct (X25_search_people_loads_once
              WScripted wscripted_page wscripted_search _ _ _ _ _ _ _ _ E)
    as (_ & Hn & _ & Hp & _).
  split; assumption.
Defined.

(** X26: the two searches do not turn failures into results or into
    classified exceptions.  If an argument cannot be encoded, the encoding
    error is raised before the browser is touched; if the page load
    raises, that exception leaves the method unchanged, right after that
    one load. *)
Theorem X26_search_failures_escape (B : Type) (P : Page B)
    (S : SearchPage B) (keywords : pystr) (date_posted sort_by : option pystr)
    (network : option (list pystr)) (location current_company : option pystr)
    (b : B) :
  (forall e, posts_url keywords date_posted sort_by = Raise e ->
             search_posts keywords date_posted sort_by b = (Raise e, b, [])) /\
  (forall target e b1,
     posts_url keywords date_posted sort_by = Ok target ->
     page_goto target b = (Raise e, b1) ->
     search_posts keywords date_posted sort_by b
     = (Raise e, b1, [Core (EvGoto target)])) /\
  (forall e, people_url keywords network location current_company = Raise e ->
             search_people keywords network location current_company b
             = (Raise e, b, [])) /\
  (forall target e b1,
     people_url keywords network location current_company = Ok target ->
     page_goto target b = (Raise e, b1) ->
     search_people keywords network location current_company b
     = (Raise e, b1, [Core (EvGoto target)])).
Proof.
  rewrite search_posts_run, search_people_run. repeat split.
  - now intros e ->.
  - intros target e b1 -> Hgo.
    exact (proj2 (search_run _extract_posts_page
                     (fun u text =>
                        {| url := u;
                           sections := single_section (py "posts") text;
                           pages_visited := [u];
                           sections_requested := [py "posts"] |})
                     target b
                    (posts_page_run target b)) e b1 Hgo).
  - now intros e ->.
  - intros target e b1 -> Hgo.
    exact (proj2 (search_run _extract_people_search_page
                     (fun u text =>
                        {| url := u;
                           sections := single_section (py "people") text;
                           pages_visited := [u];
                           sections_requested := [py "people"] |})
                     target b
                    (people_page_run target b)) e b1 Hgo).
Qed.

(** X26 on a page whose load times out: the timeout reaches the caller of
    [search_posts]. *)
Lemma X26_witness :
  search_posts (py "rocq") None None
    (failing_page (PlaywrightTimeoutError (py "Timeout 30000ms exceeded")))
  = (Raise (PlaywrightTimeoutError (py "Timeout 30000ms exceeded")), [],
     [Core (EvGoto (py "https://www.linkedin.com/search/results/content/?keywords=rocq&origin=FACETED_SEARCH"))]).
Proof.
  apply (proj1 (proj2 (X26_search_failures_escape
                         WScripted wscripted_page wscripted_search
                         (py "rocq") None None None None None
                         (failing_page (PlaywrightTimeoutError
                                          (py "Timeout 30000ms exceeded")))))).
  - vm_compute. reflexivity.
  - vm_compute. reflexivity.
Defined.

(** X27: the URLs of the two searches carry only the parameters the code
    writes.  After the question mark come only letters, digits, [_.-~+%]
    and the separators [&] and [=]; there is one [&] for the origin and one
    more for each filter that is given and not empty, and one [=] more than
    that: no argument adds or ends a parameter. *)
Theorem X27_search_urls_carry_only_their_parameters
    (keywords : pystr) (date_posted sort_by : option pystr)
    (network : option (list pystr)) (location current_company : option pystr) :
  (forall target,
     posts_url keywords date_posted sort_by = Ok target ->
     exists query,
       target = py "https://www.linkedin.com/search/results/content/?"
                ++ query /\
       forallb query_char query = true /\
       count_char 38%N query = 1 + given date_posted + given sort_by /\
       count_char 61%N query = 2 + given date_posted + given sort_by) /\
  (forall target,
     people_url keywords network location current_company = Ok target ->
     exists query,
       target = py "https://www.linkedin.com/search/results/people/?"
                ++ query /\
       forallb query_char query = true /\
       count_char 38%N query
       = 1 + given_list network + given location + given current_company /\
       count_char 61%N query
       = 2 + given_list network + given location + given current_company).
Proof.
  assert (Hbase : forall qk : pystr,
    forallb param_char qk = true ->
    forallb query_char ((py "keywords=" ++ qk) ++ py "&origin=FACETED_SEARCH")
    = true /\
    count_char 38%N ((py "keywords=" ++ qk) ++ py "&origin=FACETED_SEARCH")
    = 1 /\
    count_char 61%N ((py "keywords=" ++ qk) ++ py "&origin=FACETED_SEARCH")
    = 2).
  { intros qk Hqk.
    destruct (quoted_has_no_separator _ Hqk) as (H1 & H2 & H3).
    rewrite !forallb_app, !count_char_app, H1, H2. split; [|now split].
    repeat (apply andb_true_iff; split); try assumption; reflexivity. }
  split.
  - intros target. unfold posts_url.
    destruct (quote_plus keywords) as [qk|e] eqn:Ek; [|discriminate].
    destruct (Hbase qk (quote_plus_chars _ _ Ek)) as (Hb0 & Hb1 & Hb2).
    rewrite app_assoc in *.
    destruct (quoted_param _ (py "datePosted") _ _) as [p1|e] eqn:E1;
      [|discriminate].
    destruct (quoted_param p1 (py "sortBy") _ _) as [p2|e] eqn:E2;
      [|discriminate].
    intros E. assert (Ht : target
      = py "https://www.linkedin.com/search/results/content/?" ++ p2)
      by congruence.
    exists p2. split; [exact Ht|].
    destruct (quoted_param_separators _ (py "datePosted") _ _ _ eq_refl E1)
      as (Ha1 & Ha2 & Ha3).
    destruct (quoted_param_separators _ (py "sortBy") _ _ _ eq_refl E2)
      as (Hc1 & Hc2 & Hc3).
    split; [exact (Hc3 (Ha3 Hb0))|]. rewrite Hc1, Hc2, Ha1, Ha2, Hb1, Hb2.
    split; lia.
  - intros target. unfold people_url.
    destruct (quote_plus keywords) as [qk|e] eqn:Ek; [|discriminate].
    destruct (Hbase qk (quote_plus_chars _ _ Ek)) as (Hb0 & Hb1 & Hb2).
    cbv zeta.
    assert (Hnet : forall p0,
      match network with
      | Some (n :: ns) =>
          match quote_plus (network_json (n :: ns)) with
          | Ok quoted_network =>
              Ok (((py "keywords=" ++ qk) ++ py "&origin=FACETED_SEARCH")
                  ++ py "&network=" ++ quoted_network)
          | Raise e => Raise e
          end
      | _ => Ok ((py "keywords=" ++ qk) ++ py "&origin=FACETED_SEARCH")
      end = Ok p0 ->
      forallb query_char p0 = true /\
      count_char 38%N p0 = 1 + given_list network /\
      count_char 61%N p0 = 2 + given_list network).
    { intros p0 E0.
      assert (Hsame : forall r : pystr,
        Ok ((py "keywords=" ++ qk) ++ py "&origin=FACETED_SEARCH") = Ok r ->
        forallb query_char r = true /\ count_char 38%N r = 1 + 0 /\
        count_char 61%N r = 2 + 0).
      { intros r Er.
        assert (r = (py "keywords=" ++ qk) ++ py "&origin=FACETED_SEARCH")
          by congruence.
        subst r. now repeat split. }
      destruct network as [[|n ns]|]; [exact (Hsame _ E0)| |exact (Hsame _ E0)].
      destruct (quote_plus (network_json (n :: ns))) as [qn|e] eqn:En;
        [|discriminate].
      assert (Hp : p0 = ((py "keywords=" ++ qk) ++ py "&origin=FACETED_SEARCH")
                        ++ py "&" ++ py "network" ++ py "=" ++ qn)
        by (change (py "&" ++ py "network" ++ py "=" ++ qn)
              with (py "&network=" ++ qn); congruence).
      destruct (param_separators
                  ((py "keywords=" ++ qk) ++ py "&origin=FACETED_SEARCH")
                  (py "network") qn eq_refl (quote_plus_chars _ _ En))
        as (Hd1 & Hd2 & Hd3).
      rewrite Hp, Hd1, Hd2, Hb1, Hb2. split; [exact (Hd3 Hb0)|].
      split; reflexivity. }
    destruct (match network with Some (_ :: _) => _ | _ => _ end)
      as [p0|e]; [|discriminate].
    destruct (Hnet p0 eq_refl) as (Hn0 & Hn1 & Hn2).
    destruct (quoted_param p0 (py "geoUrn") _ _) as [p1|e] eqn:E1;
      [|discriminate].
    destruct (quoted_param p1 (py "currentCompany") _ _) as [p2|e] eqn:E2;
      [|discriminate].
    intros E. assert (Ht : target
      = py "https://www.linkedin.com/search/results/people/?" ++ p2)
      by congruence.
    exists p2. split; [exact Ht|].
    destruct (quoted_param_separators _ (py "geoUrn") _ _ _ eq_refl E1)
      as (Ha1 & Ha2 & Ha3).
    destruct (quoted_param_separators _ (py "currentCompany") _ _ _ eq_refl E2)
      as (Hc1 & Hc2 & Hc3).
    split; [exact (Hc3 (Ha3 Hn0))|]. rewrite Hc1, Hc2, Ha1, Ha2, Hn1, Hn2.
    split; lia.
Qed.

(** X27 for keywords and a company name that contain separators. *)
Lemma X27_witness :
  exists query,
    people_url (py "R&D lead") (Some [py "S"]) None (Some (py "a=b&c"))
    = Ok (py "https://www.linkedin.com/search/results/people/?" ++ query) /\
    count_char 38%N query = 3.
Proof.
  destruct (proj2 (X27_search_urls_carry_only_their_parameters
                     (py "R&D lead") None None
                     (Some [py "S"]) None (Some (py "a=b&c")))
                  _ eq_refl)
    as (query & Hu & _ & Hc & _).
  exists query. split; [|exact Hc].
  rewrite <- Hu. reflexivity.
Defined.

(** ** [create_job_alert] *)

Section AlertFacts.
Context {B : Type} `{Page B} `{AlertPage B}.

Lemma create_job_alert_run (keywords : pystr) (location : option pystr)
    (b : B) :
  create_job_alert keywords location b
  = match alert_url keywords location with
    | Raise e => (Raise e, b, [])
    | Ok target =>
        match page_goto target b with
        | (Raise e, b1) =>
            (Ok (AlertError (py "Error creating job alert: " ++ exn_str e)),
             b1, [Core (EvGoto target)])
        | (Ok _, b1) =>
            match util_detect_rate_limit b1 with
            | (Raise e, b2) =>
                (Ok (AlertError (py "Error creating job alert: "
                                 ++ exn_str e)),
                 b2, [Core (EvGoto target); Core EvDetectRateLimit])
            | (Ok _, b2) =>
                match page_evaluate_alert b2 with
                | (Raise e, b3) =>
                    (Ok (AlertError (py "Error creating job alert: "
                                     ++ exn_str e)),
                     b3, [Core (EvGoto target); Core EvDetectRateLimit;
                          Core (EvSleep (2 # 1)); WEvaluate JsSetAlert])
                | (Ok answer, b3) =>
                    if decide (answer = py "already_exists") then
                      (Ok (AlertReport (py "already_exists")
                             (py "Job alert for '" ++ keywords
                              ++ py "' already exists")
                             keywords location),
                       b3, [Core (EvGoto target); Core EvDetectRateLimit;
                            Core (EvSleep (2 # 1)); WEvaluate JsSetAlert])
                    else if decide (answer = py "clicked") then
                      (Ok (AlertReport (py "success")
                             (py "Job alert created for '" ++ keywords
                              ++ py "'" ++ in_location location)
                             keywords location),
                       b3, [Core (EvGoto target); Core EvDetectRateLimit;
                            Core (EvSleep (2 # 1)); WEvaluate JsSetAlert;
                            Core (EvSleep (2 # 1))])
                    else
                      (Ok (AlertReport (py "not_found")
                             (py "Could not find alert button. Try searching for jobs first.")
                             keywords location),
                       b3, [Core (EvGoto target); Core EvDetectRateLimit;
                            Core (EvSleep (2 # 1)); WEvaluate JsSetAlert])
                end
            end
        end
    end.
Proof.
  assert (Htail : forall target : pystr,
    wtry
      (lift (goto target) ;;
       lift detect_rate_limit ;;
       lift (sleep (2 # 1)) ;;
       alert_created <- wcall (WEvaluate JsSetAlert) page_evaluate_alert ;;
       if decide (alert_created = py "already_exists") then
         wret (AlertReport (py "already_exists")
                 (py "Job alert for '" ++ keywords ++ py "' already exists")
                 keywords location)
       else if decide (alert_created = py "clicked") then
         lift (sleep (2 # 1)) ;;
         wret (AlertReport (py "success")
                 (py "Job alert created for '" ++ keywords ++ py "'"
                  ++ in_location location)
                 keywords location)
       else
         wret (AlertReport (py "not_found")
                 (py "Could not find alert button. Try searching for jobs first.")
                 keywords location))%wio
      (fun e =>
         wret (AlertError (py "Error creating job alert: " ++ exn_str e))) b
    = match page_goto target b with
      | (Raise e, b1) =>
          (Ok (AlertError (py "Error creating job alert: " ++ exn_str e)),
           b1, [Core (EvGoto target)])
      | (Ok _, b1) =>
          match util_detect_rate_limit b1 with
          | (Raise e, b2) =>
              (Ok (AlertError (py "Error creating job alert: "
                               ++ exn_str e)),
               b2, [Core (EvGoto target); Core EvDetectRateLimit])
          | (Ok _, b2) =>
              match page_evaluate_alert b2 with
              | (Raise e, b3) =>
                  (Ok (AlertError (py "Error creating job alert: "
                                   ++ exn_str e)),
                   b3, [Core (EvGoto target); Core EvDetectRateLimit;
                        Core (EvSleep (2 # 1)); WEvaluate JsSetAlert])
              | (Ok answer, b3) =>
                  if decide (answer = py "already_exists") then
                    (Ok (AlertReport (py "already_exists")
                           (py "Job alert for '" ++ keywords
                            ++ py "' already exists")
                           keywords location),
                     b3, [Core (EvGoto target); Core EvDetectRateLimit;
                          Core (EvSleep (2 # 1)); WEvaluate JsSetAlert])
                  else if decide (answer = py "clicked") then
                    (Ok (AlertReport (py "success")
                           (py "Job alert created for '" ++ keywords
                            ++ py "'" ++ in_location location)
                           keywords location),
                     b3, [Core (EvGoto target); Core EvDetectRateLimit;
                          Core (EvSleep (2 # 1)); WEvaluate JsSetAlert;
                          Core (EvSleep (2 # 1))])
                  else
                    (Ok (AlertReport (py "not_found")
                           (py "Could not find alert button. Try searching for jobs first.")
                           keywords location),
                     b3, [Core (EvGoto target); Core EvDetectRateLimit;
                          Core (EvSleep (2 # 1)); WEvaluate JsSetAlert])
              end
          end
      end).
  { intros target.
    unfold wtry, wbind, lift, goto, detect_rate_limit, call, sleep, wcall,
      wret.
    destruct (page_goto target b) as [[[]|e1] b1]; [|reflexivity].
    destruct (util_detect_rate_limit b1) as [[[]|e2] b2]; [|reflexivity].
    destruct (page_evaluate_alert b2) as [[answer|e3] b3]; [|reflexivity].
    destruct (decide (answer = py "already_exists")); [reflexivity|].
    destruct (decide (answer = py "clicked")); reflexivity. }
  unfold create_job_alert, alert_url. rewrite wpure_bind.
  destruct (quote_plus keywords) as [qk|e]; [|reflexivity].
  cbv zeta. destruct location as [place|].
  - destruct (truthy place) eqn:Et.
    + rewrite wbind_assoc, wpure_bind.
      destruct (quote_plus place) as [ql|e]; [|reflexivity].
      rewrite wret_bind. apply Htail.
    + rewrite wret_bind. apply Htail.
  - rewrite wret_bind. apply Htail.
Qed.

Lemma alert_url_raises (keywords : pystr) (location : option pystr) (e : exn) :
  alert_url keywords location = Raise e ->
  quote_plus keywords = Raise e \/
  exists place, location = Some place /\ quote_plus place = Raise e.
Proof.
  unfold alert_url. destruct (quote_plus keywords) as [qk|e0];
    [|intros [= ->]; now left].
  cbv zeta. destruct location as [place|]; [|discriminate].
  destruct (truthy place); [|discriminate].
  destruct (quote_plus place) as [ql|e1] eqn:El; [discriminate|].
  intros [= ->]. right. now exists place.
Qed.

Lemma search_jobs_reports_alert_url (keywords : pystr)
    (location : option pystr) (b : B) (res : ScrapeResult) (b' : B)
    (t : list Event) :
  search_jobs keywords location b = (Ok res, b', t) ->
  alert_url keywords location = Ok (url res).
Proof.
  intros E. pose proof (search_jobs_run keywords location b) as Hrun.
  unfold alert_url.
  destruct (quote_plus keywords) as [qk|e];
    [|rewrite Hrun in E; discriminate].
  assert (Hgo : forall tail,
    search_jobs keywords location b
    = (text <- extract_page
                 (py "https://www.linkedin.com/jobs/search/?"
                  ++ (py "keywords=" ++ qk) ++ tail) ;;
       ret {| url := py "https://www.linkedin.com/jobs/search/?"
                     ++ (py "keywords=" ++ qk) ++ tail;
              sections := single_section (py "search_results") text;
              pages_visited := [py "https://www.linkedin.com/jobs/search/?"
                                ++ (py "keywords=" ++ qk) ++ tail];
              sections_requested := [py "search_results"] |})%io b ->
    url res = py "https://www.linkedin.com/jobs/search/?"
              ++ (py "keywords=" ++ qk) ++ tail).
  { intros tail Heq. rewrite Heq, bind_ret_run in E.
    destruct (outcome (extract_page _ b)) as [text|e]; [|discriminate].
    assert (Hres : res = {| url := py "https://www.linkedin.com/jobs/search/?"
                                    ++ (py "keywords=" ++ qk) ++ tail;
                            sections := single_section (py "search_results")
                                          text;
                            pages_visited :=
                              [py "https://www.linkedin.com/jobs/search/?"
                               ++ (py "keywords=" ++ qk) ++ tail];
                            sections_requested := [py "search_results"] |})
      by congruence.
    now rewrite Hres. }
  cbv zeta. destruct location as [place|]; simpl in Hrun.
  - destruct (truthy place).
    + destruct (quote_plus place) as [ql|e];
        [|rewrite Hrun in E; discriminate].
      rewrite (Hgo _ Hrun). reflexivity.
    + rewrite (Hgo _ Hrun), !app_nil_r. reflexivity.
  - rewrite (Hgo _ Hrun), !app_nil_r. reflexivity.
Qed.

End AlertFacts.

(** X28: [create_job_alert] builds its URL before the [try] block, so the
    only exceptions it raises are the encoding errors of its two
    arguments, raised before the browser is touched.  When the arguments
    can be encoded it returns a record whatever the browser does, having
    loaded one page: the URL that [search_jobs] reports for the same
    arguments. *)
Theorem X28_job_alert_raises_only_encoding_errors (B : Type) (P : Page B)
    (A : AlertPage B) (keywords : pystr) (location : option pystr) (b : B) :
  (forall e,
     wresult_outcome (create_job_alert keywords location b) = Raise e ->
     (quote_plus keywords = Raise e \/
      exists place, location = Some place /\ quote_plus place = Raise e) /\
     create_job_alert keywords location b = (Raise e, b, [])) /\
  (forall target,
     alert_url keywords location = Ok target ->
     (exists r,
        wresult_outcome (create_job_alert keywords location b) = Ok r) /\
     wnavigations (wtrace (create_job_alert keywords location b))
     = [target]) /\
  (forall (b0 : B) res b0' t0,
     search_jobs keywords location b0 = (Ok res, b0', t0) ->
     alert_url keywords location = Ok (url res)).
Proof.
  rewrite create_job_alert_run.
  split; [|split; [|apply search_jobs_reports_alert_url]].
  - destruct (alert_url keywords location) as [target|e0] eqn:Eu.
    + intros e.
      destruct (page_goto target b) as [[[]|e1] b1]; [|discriminate].
      destruct (util_detect_rate_limit b1) as [[[]|e2] b2]; [|discriminate].
      destruct (page_evaluate_alert b2) as [[answer|e3] b3]; [|discriminate].
      destruct (decide (answer = py "already_exists")); [discriminate|].
      destruct (decide (answer = py "clicked")); discriminate.
    + intros e E. assert (e0 = e) by (unfold wresult_outcome in E;
                                      simpl in E; congruence).
      subst e0. split; [exact (alert_url_raises _ _ _ Eu)|reflexivity].
  - intros target ->.
    destruct (page_goto target b) as [[[]|e1] b1];
      [|split; [eexists|]; reflexivity].
    destruct (util_detect_rate_limit b1) as [[[]|e2] b2];
      [|split; [eexists|]; reflexivity].
    destruct (page_evaluate_alert b2) as [[answer|e3] b3];
      [|split; [eexists|]; reflexivity].
    destruct (decide (answer = py "already_exists"));
      [split; [eexists|]; reflexivity|].
    destruct (decide (answer = py "clicked"));
      split; try eexists; reflexivity.
Qed.

(** X28 on keywords that hold a lone surrogate: the encoding error leaves
    the method. *)
Lemma X28_witness :
  exists e,
    create_job_alert [55296%N] None (alert_page (py "clicked"))
    = (Raise e, alert_page (py "clicked"), []).
Proof.
  destruct (wresult_outcome
              (create_job_alert [55296%N] None (alert_page (py "clicked"))))
    as [r|e] eqn:E; [vm_compute in E; discriminate|].
  exists e.
  exact (proj2 (proj1 (X28_job_alert_raises_only_encoding_errors
                         WScripted wscripted_page wscripted_alert
                         [55296%N] None (alert_page (py "clicked"))) e E)).
Defined.

(** X29: a record other than the error record comes from one run only:
    the page was loaded, the rate limit checked, two seconds slept and the
    alert script run once.  The status is ["already_exists"] or
    ["not_found"] without anything further, or ["success"] after two more
    seconds of sleep, exactly when the script answered ["clicked"]; the
    record repeats the two arguments unchanged. *)
Theorem X29_job_alert_report (B : Type) (P : Page B) (A : AlertPage B)
    (keywords : pystr) (location : option pystr) (b : B)
    (status message kw : pystr) (loc : option pystr) (b' : B)
    (t : list WEvent) :
  create_job_alert keywords location b
  = (Ok (AlertReport status message kw loc), b', t) ->
  kw = keywords /\ loc = location /\
  exists target answer b2,
    alert_url keywords location = Ok target /\
    page_evaluate_alert b2 = (Ok answer, b') /\
    ((answer = py "already_exists" /\ status = py "already_exists" /\
      t = [Core (EvGoto target); Core EvDetectRateLimit;
           Core (EvSleep (2 # 1)); WEvaluate JsSetAlert]) \/
     (answer = py "clicked" /\ status = py "success" /\
      message = py "Job alert created for '" ++ keywords ++ py "'"
                ++ in_location location /\
      t = [Core (EvGoto target); Core EvDetectRateLimit;
           Core (EvSleep (2 # 1)); WEvaluate JsSetAlert;
           Core (EvSleep (2 # 1))]) \/
     (answer <> py "already_exists" /\ answer <> py "clicked" /\
      status = py "not_found" /\
      t = [Core (EvGoto target); Core EvDetectRateLimit;
           Core (EvSleep (2 # 1)); WEvaluate JsSetAlert])).
Proof.
  rewrite create_job_alert_run.
  destruct (alert_url keywords location) as [target|e0]; [|discriminate].
  destruct (page_goto target b) as [[[]|e1] b1]; [|discriminate].
  destruct (util_detect_rate_limit b1) as [[[]|e2] b2]; [|discriminate].
  destruct (page_evaluate_alert b2) as [[answer|e3] b3] eqn:Ea;
    [|discriminate].
  destruct (decide (answer = py "already_exists")) as [Ha|Ha];
    [|destruct (decide (answer = py "clicked")) as [Hc|Hc]];
    intros E;
    assert (Hkw : kw = keywords) by congruence;
    assert (Hloc : loc = location) by congruence;
    assert (Hb : b3 = b') by congruence;
    (split; [exact Hkw|]); (split; [exact Hloc|]);
    exists target, answer, b2; (split; [reflexivity|]);
    (split; [rewrite <- Hb; exact Ea|]).
  - left. repeat split; congruence.
  - right. left. repeat split; congruence.
  - right. right. repeat split; congruence.
Qed.

(** X29 on a page whose alert button can be clicked. *)
Lemma X29_witness :
  exists message b' t,
    create_job_alert (py "rocq") (Some (py "Remote"))
      (alert_page (py "clicked"))
    = (Ok (AlertReport (py "success") message (py "rocq")
             (Some (py "Remote"))), b', t) /\
    wsleeps t = [2 # 1; 2 # 1].
Proof.
  destruct (create_job_alert (py "rocq") (Some (py "Remote"))
              (alert_page (py "clicked")))
    as [[[[status message kw loc|m]|e] b'] t] eqn:E;
    [|vm_compute in E; discriminate..].
  destruct (X29_job_alert_report
              WScripted wscripted_page wscripted_alert _ _ _ _ _ _ _ _ _ E)
    as (-> & -> & target & answer & b2 & _ & _ & Hcases).
  assert (Hs : status = py "success")
    by (vm_compute in E; vm_compute; congruence).
  exists message, b', t. rewrite <- Hs. split; [reflexivity|].
  destruct Hcases as [(_ & Hst & _)|[(_ & _ & _ & ->)|(_ & _ & Hst & _)]];
    [rewrite Hs in Hst; vm_compute in Hst; discriminate Hst|reflexivity
    |rewrite Hs in Hst; vm_compute in Hst; discriminate Hst].
Defined.
